(** * NFTMarketplace: a shallow embedding of contracts/NFTMarketplace.sol

    The contract storage, the EVM facts the contract relies on
    (msg.value credited before the body runs, revert = no state change,
    checked 0.8 arithmetic) and the external calls it makes
    (IERC721.safeTransferFrom on the collection, low-level value calls)
    are modelled.  An external call hands control to the callee, which may
    call back into the marketplace: the callee's behaviour is a parameter
    [hook] of the semantics, so every theorem holds for every callee.
    [placeBid] of the second marketplace contract, [Marketplace] of
    src/unnamed/part_009, is embedded too, for comparison. *)

From stdpp Require Import base gmap list.
From Stdlib Require Import NArith Lia.

Local Open Scope N_scope.

(** ** Data model *)

(** A listing / auction identifier is
    [keccak256(abi.encodePacked(nftContract, tokenId, msg.sender, block.timestamp))];
    keccak256 is taken as collision free, so the packed tuple itself
    stands for the hash (and it is never [bytes32(0)]). *)
Abbreviation Key := (N * N * N * N)%type.

Definition sale_key (nftContract tokenId seller ts : N) : Key :=
  (nftContract, tokenId, seller, ts).

Module Listing.
Record t := mk {
  id : Key;
  nftContract : N;
  tokenId : N;
  seller : N;
  price : N;
  isActive : bool;
  createdAt : N }.

(** [listing.isActive = false] *)
Definition deactivate (l : t) : t :=
  mk (id l) (nftContract l) (tokenId l) (seller l) (price l) false (createdAt l).
End Listing.

Module Auction.
Record t := mk {
  id : Key;
  nftContract : N;
  tokenId : N;
  seller : N;
  startingBid : N;
  highestBid : N;
  highestBidder : N;
  endTime : N;
  isActive : bool;
  isFinalized : bool;
  createdAt : N }.

(** [auction.highestBid = amount; auction.highestBidder = bidder;
     auction.endTime = endTime'] *)
Definition bid (a : t) (amount bidder endTime' : N) : t :=
  mk (id a) (nftContract a) (tokenId a) (seller a) (startingBid a)
     amount bidder endTime' (isActive a) (isFinalized a) (createdAt a).

(** [auction.isFinalized = true; auction.isActive = false] *)
Definition finalize (a : t) : t :=
  mk (id a) (nftContract a) (tokenId a) (seller a) (startingBid a)
     (highestBid a) (highestBidder a) (endTime a) false true (createdAt a).
End Auction.

Inductive Event :=
| ItemListed (listingId : Key) (nftContract tokenId seller price : N)
| ListingCancelled (listingId : Key)
| ItemBought (listingId : Key) (buyer price marketplaceFee : N)
| AuctionCreated (auctionId : Key) (nftContract tokenId seller startingBid endTime : N)
| BidPlaced (auctionId : Key) (bidder amount : N)
| AuctionFinalized (auctionId : Key) (winner winningBid marketplaceFee : N)
| ProceedsWithdrawn (seller amount : N)
| MarketplaceFeeUpdated (newFeePercentage : N)
| Paused (account : N)
| Unpaused (account : N)
| OwnershipTransferred (previousOwner newOwner : N).

(** The contract's custom errors, the OpenZeppelin guard errors, and the
    EVM-level failures (checked-arithmetic panic, value sent to a
    non-payable function, failing ERC721 transfer, out of gas). *)
Inductive Error :=
| ListingNotFound | AuctionNotFound | ListingNotActive | AuctionNotActive
| AuctionEnded | AuctionNotEnded | NotListingOwner | NotAuctionOwner
| InvalidPrice | InvalidDuration | BidTooLow | NoBids | TransferFailed
| InvalidMarketplaceFee | NFTAlreadyListed | NFTAlreadyAuctioned | NotAuthorized
| EnforcedPause | ExpectedPause | ReentrancyGuardReentrantCall
| OwnableUnauthorizedAccount | OwnableInvalidOwner
| Panic | NonPayable | ERC721TransferFailed | OutOfGas.

(** Contract storage together with the part of the chain it interacts with. *)
Record World := mkWorld {
  listings : gmap Key Listing.t;
  auctions : gmap Key Auction.t;
  nftToListing : gmap (N * N) Key;
  nftToAuction : gmap (N * N) Key;
  proceeds : gmap N N;
  activeListings : list Key;
  activeAuctions : list Key;
  marketplaceFeePercentage : N;
  paused : bool;              (* Pausable._paused *)
  entered : bool;             (* ReentrancyGuard._status == ENTERED *)
  owner : N;                  (* Ownable._owner *)
  balance : N;                (* address(this).balance *)
  timestamp : N;              (* block.timestamp *)
  nftOwners : gmap (N * N) N; (* IERC721(nftContract).ownerOf(tokenId) *)
  sent : list (N * N);        (* value sent out: (recipient, amount) *)
  events : list Event }.

Definition set_listings v w := mkWorld v (auctions w) (nftToListing w) (nftToAuction w) (proceeds w) (activeListings w) (activeAuctions w) (marketplaceFeePercentage w) (paused w) (entered w) (owner w) (balance w) (timestamp w) (nftOwners w) (sent w) (events w).
Definition set_auctions v w := mkWorld (listings w) v (nftToListing w) (nftToAuction w) (proceeds w) (activeListings w) (activeAuctions w) (marketplaceFeePercentage w) (paused w) (entered w) (owner w) (balance w) (timestamp w) (nftOwners w) (sent w) (events w).
Definition set_nftToListing v w := mkWorld (listings w) (auctions w) v (nftToAuction w) (proceeds w) (activeListings w) (activeAuctions w) (marketplaceFeePercentage w) (paused w) (entered w) (owner w) (balance w) (timestamp w) (nftOwners w) (sent w) (events w).
Definition set_nftToAuction v w := mkWorld (listings w) (auctions w) (nftToListing w) v (proceeds w) (activeListings w) (activeAuctions w) (marketplaceFeePercentage w) (paused w) (entered w) (owner w) (balance w) (timestamp w) (nftOwners w) (sent w) (events w).
Definition set_proceeds v w := mkWorld (listings w) (auctions w) (nftToListing w) (nftToAuction w) v (activeListings w) (activeAuctions w) (marketplaceFeePercentage w) (paused w) (entered w) (owner w) (balance w) (timestamp w) (nftOwners w) (sent w) (events w).
Definition set_activeListings v w := mkWorld (listings w) (auctions w) (nftToListing w) (nftToAuction w) (proceeds w) v (activeAuctions w) (marketplaceFeePercentage w) (paused w) (entered w) (owner w) (balance w) (timestamp w) (nftOwners w) (sent w) (events w).
Definition set_activeAuctions v w := mkWorld (listings w) (auctions w) (nftToListing w) (nftToAuction w) (proceeds w) (activeListings w) v (marketplaceFeePercentage w) (paused w) (entered w) (owner w) (balance w) (timestamp w) (nftOwners w) (sent w) (events w).
Definition set_marketplaceFeePercentage v w := mkWorld (listings w) (auctions w) (nftToListing w) (nftToAuction w) (proceeds w) (activeListings w) (activeAuctions w) v (paused w) (entered w) (owner w) (balance w) (timestamp w) (nftOwners w) (sent w) (events w).
Definition set_paused v w := mkWorld (listings w) (auctions w) (nftToListing w) (nftToAuction w) (proceeds w) (activeListings w) (activeAuctions w) (marketplaceFeePercentage w) v (entered w) (owner w) (balance w) (timestamp w) (nftOwners w) (sent w) (events w).
Definition set_entered v w := mkWorld (listings w) (auctions w) (nftToListing w) (nftToAuction w) (proceeds w) (activeListings w) (activeAuctions w) (marketplaceFeePercentage w) (paused w) v (owner w) (balance w) (timestamp w) (nftOwners w) (sent w) (events w).
Definition set_owner v w := mkWorld (listings w) (auctions w) (nftToListing w) (nftToAuction w) (proceeds w) (activeListings w) (activeAuctions w) (marketplaceFeePercentage w) (paused w) (entered w) v (balance w) (timestamp w) (nftOwners w) (sent w) (events w).
Definition set_balance v w := mkWorld (listings w) (auctions w) (nftToListing w) (nftToAuction w) (proceeds w) (activeListings w) (activeAuctions w) (marketplaceFeePercentage w) (paused w) (entered w) (owner w) v (timestamp w) (nftOwners w) (sent w) (events w).
Definition set_timestamp v w := mkWorld (listings w) (auctions w) (nftToListing w) (nftToAuction w) (proceeds w) (activeListings w) (activeAuctions w) (marketplaceFeePercentage w) (paused w) (entered w) (owner w) (balance w) v (nftOwners w) (sent w) (events w).
Definition set_nftOwners v w := mkWorld (listings w) (auctions w) (nftToListing w) (nftToAuction w) (proceeds w) (activeListings w) (activeAuctions w) (marketplaceFeePercentage w) (paused w) (entered w) (owner w) (balance w) (timestamp w) v (sent w) (events w).
Definition set_sent v w := mkWorld (listings w) (auctions w) (nftToListing w) (nftToAuction w) (proceeds w) (activeListings w) (activeAuctions w) (marketplaceFeePercentage w) (paused w) (entered w) (owner w) (balance w) (timestamp w) (nftOwners w) v (events w).
Definition set_events v w := mkWorld (listings w) (auctions w) (nftToListing w) (nftToAuction w) (proceeds w) (activeListings w) (activeAuctions w) (marketplaceFeePercentage w) (paused w) (entered w) (owner w) (balance w) (timestamp w) (nftOwners w) (sent w) v.

(** [emit e] *)
Definition emit (e : Event) (w : World) : World := set_events (events w ++ [e]) w.

(** [proceeds[a]] : a Solidity mapping reads 0 for a missing key. *)
Definition proceeds_of (w : World) (a : N) : N := default 0 (proceeds w !! a).

(** ** Results, checked arithmetic *)

Inductive Res (A : Type) : Type :=
| Ok (x : A)
| Err (e : Error).
Arguments Ok {A} x.
Arguments Err {A} e.

Definition bind {A B} (m : Res A) (k : A -> Res B) : Res B :=
  match m with Ok x => k x | Err e => Err e end.

Notation "x <- m ;; k" := (bind m (fun x => k))
  (at level 100, m at next level, right associativity).

Definition UINT256_MAX : N := 2 ^ 256 - 1.

Definition add256 (a b : N) : Res N :=
  if a + b <=? UINT256_MAX then Ok (a + b) else Err Panic.
Definition sub256 (a b : N) : Res N :=
  if b <=? a then Ok (a - b) else Err Panic.
Definition mul256 (a b : N) : Res N :=
  if a * b <=? UINT256_MAX then Ok (a * b) else Err Panic.

Definition MAX_MARKETPLACE_FEE : N := 1000.
Definition MIN_AUCTION_DURATION : N := 3600.
Definition MAX_AUCTION_DURATION : N := 604800.
Definition AUCTION_EXTENSION_TIME : N := 300.

(** ** External calls and transactions *)

(** An external call made by the marketplace. *)
Inductive ExtCall :=
| NftTransfer (nftContract tokenId from to : N)  (* IERC721(nftContract).safeTransferFrom(from, to, tokenId) *)
| EthSend (to amount : N).                       (* to.call{value: amount}("") *)

(** The public and external entry points of the contract. *)
Inductive Op :=
| ListItem (nftContract tokenId price : N)
| CancelListing (listingId : Key)
| BuyNow (listingId : Key)
| CreateAuction (nftContract tokenId startingBid duration : N)
| PlaceBid (auctionId : Key)
| EndAuction (auctionId : Key)
| WithdrawProceeds
| SetMarketplaceFee (newFeePercentage : N)
| Pause
| Unpause
| WithdrawFees
| TransferOwnership (newOwner : N)
| RenounceOwnership.

(** A message call: [msg.sender] (never [address(0)]), the entry point,
    [msg.value]. *)
Record Req := mkReq { sender : positive; op : Op; value : N }.

(** What a callee does when the marketplace calls it: the calls it makes
    back into the marketplace, and whether a failing call back makes the
    callee itself revert ([true]) or is caught ([false], try/catch). *)
Record Callback := mkCallback { cb_calls : list Req; cb_propagates : bool }.

Section Engine.

(** [address(this)] *)
Variable self : N.
(** the behaviour of every callee *)
Variable hook : ExtCall -> World -> Callback.

(** The callee's calls back into the marketplace, run one after the other;
    a failing call back reverts only its own frame unless it propagates. *)
Fixpoint nested (rn : World -> Req -> Res World) (propagates : bool)
    (calls : list Req) (w : World) : Res World :=
  match calls with
  | [] => Ok w
  | r :: rs =>
      match rn w r with
      | Ok w' => nested rn propagates rs w'
      | Err e => if propagates then Err e else nested rn propagates rs w
      end
  end.

(** Semantics of an external call, given the semantics [rn] of a call back
    into the marketplace.  The collection is an ERC721 ledger: the transfer
    needs [from] to be the owner, moves the token, then hands control to
    the callee (collection / receiver).  A value call fails when the
    balance is short, otherwise pays and hands control to the recipient. *)
Definition external (rn : World -> Req -> Res World) (c : ExtCall) (w : World)
    : Res World :=
  match c with
  | NftTransfer nft tok from to =>
      if decide (nftOwners w !! (nft, tok) = Some from) then
        let w1 := set_nftOwners (<[(nft, tok) := to]> (nftOwners w)) w in
        nested rn (cb_propagates (hook c w1)) (cb_calls (hook c w1)) w1
      else Err ERC721TransferFailed
  | EthSend to amount =>
      if amount <=? balance w then
        let w1 := set_sent (sent w ++ [(to, amount)]) (set_balance (balance w - amount) w) in
        nested rn (cb_propagates (hook c w1)) (cb_calls (hook c w1)) w1
      else Err TransferFailed
  end.

(** *** Modifiers *)

(** a non-payable function reverts when value is sent *)
Definition nonpayable (v : N) (k : World -> Res World) (w : World) : Res World :=
  if v =? 0 then k w else Err NonPayable.

(** a payable function: [msg.value] is credited before the body runs *)
Definition payable (v : N) (k : World -> Res World) (w : World) : Res World :=
  k (set_balance (balance w + v) w).

Definition whenNotPaused (k : World -> Res World) (w : World) : Res World :=
  if paused w then Err EnforcedPause else k w.

Definition nonReentrant (k : World -> Res World) (w : World) : Res World :=
  if entered w then Err ReentrancyGuardReentrantCall
  else match k (set_entered true w) with
       | Ok w' => Ok (set_entered false w')
       | Err e => Err e
       end.

Definition onlyOwner (s : N) (k : World -> Res World) (w : World) : Res World :=
  if owner w =? s then k w else Err OwnableUnauthorizedAccount.

(** *** Internal helpers *)

(** [_removeFromActiveListings] / [_removeFromActiveAuctions]: find the
    first occurrence, overwrite it with the last element, pop. *)
Definition removeFromActive (k : Key) (arr : list Key) : list Key :=
  match list_find (fun x => x = k) arr with
  | Some (i, _) =>
      match last arr with
      | Some x => take (length arr - 1)%nat (<[i := x]> arr)
      | None => arr
      end
  | None => arr
  end.

(** *** Function bodies ([ext] performs the external calls) *)

Variable ext : ExtCall -> World -> Res World.

Definition listItem (s nft tok price : N) (w : World) : Res World :=
  if price =? 0 then Err InvalidPrice else
  match nftToListing w !! (nft, tok) with Some _ => Err NFTAlreadyListed | None =>
  match nftToAuction w !! (nft, tok) with Some _ => Err NFTAlreadyAuctioned | None =>
  w1 <- ext (NftTransfer nft tok s self) w ;;
  let listingId := sale_key nft tok s (timestamp w1) in
  let w2 := set_listings (<[listingId := Listing.mk listingId nft tok s price true (timestamp w1)]> (listings w1)) w1 in
  let w3 := set_nftToListing (<[(nft, tok) := listingId]> (nftToListing w2)) w2 in
  let w4 := set_activeListings (activeListings w3 ++ [listingId]) w3 in
  Ok (emit (ItemListed listingId nft tok s price) w4)
  end end.

Definition cancelListing (s : N) (listingId : Key) (w : World) : Res World :=
  match listings w !! listingId with None => Err ListingNotFound | Some l =>
  if negb (Listing.seller l =? s) && negb (owner w =? s) then Err NotListingOwner else
  if negb (Listing.isActive l) then Err ListingNotActive else
  w1 <- ext (NftTransfer (Listing.nftContract l) (Listing.tokenId l) self (Listing.seller l)) w ;;
  let w2 := set_listings (alter Listing.deactivate listingId (listings w1)) w1 in
  let w3 := set_activeListings (removeFromActive listingId (activeListings w2)) w2 in
  let w4 := set_nftToListing (delete (Listing.nftContract l, Listing.tokenId l) (nftToListing w3)) w3 in
  Ok (emit (ListingCancelled listingId) w4)
  end.

Definition buyNow (s v : N) (listingId : Key) (w : World) : Res World :=
  match listings w !! listingId with None => Err ListingNotFound | Some l =>
  if negb (Listing.isActive l) then Err ListingNotActive else
  if negb (v =? Listing.price l) then Err InvalidPrice else
  prod <- mul256 (Listing.price l) (marketplaceFeePercentage w) ;;
  let marketplaceFee := prod / 10000 in
  sellerProceeds <- sub256 (Listing.price l) marketplaceFee ;;
  w1 <- ext (NftTransfer (Listing.nftContract l) (Listing.tokenId l) self s) w ;;
  let w2 := set_listings (alter Listing.deactivate listingId (listings w1)) w1 in
  let w3 := set_activeListings (removeFromActive listingId (activeListings w2)) w2 in
  let w4 := set_nftToListing (delete (Listing.nftContract l, Listing.tokenId l) (nftToListing w3)) w3 in
  np <- add256 (proceeds_of w4 (Listing.seller l)) sellerProceeds ;;
  let w5 := set_proceeds (<[Listing.seller l := np]> (proceeds w4)) w4 in
  Ok (emit (ItemBought listingId s (Listing.price l) marketplaceFee) w5)
  end.

Definition createAuction (s nft tok startingBid duration : N) (w : World) : Res World :=
  if startingBid =? 0 then Err InvalidPrice else
  if (duration <? MIN_AUCTION_DURATION) || (MAX_AUCTION_DURATION <? duration)
  then Err InvalidDuration else
  match nftToListing w !! (nft, tok) with Some _ => Err NFTAlreadyListed | None =>
  match nftToAuction w !! (nft, tok) with Some _ => Err NFTAlreadyAuctioned | None =>
  w1 <- ext (NftTransfer nft tok s self) w ;;
  let auctionId := sale_key nft tok s (timestamp w1) in
  endTime <- add256 (timestamp w1) duration ;;
  let w2 := set_auctions (<[auctionId := Auction.mk auctionId nft tok s startingBid 0 0 endTime true false (timestamp w1)]> (auctions w1)) w1 in
  let w3 := set_nftToAuction (<[(nft, tok) := auctionId]> (nftToAuction w2)) w2 in
  let w4 := set_activeAuctions (activeAuctions w3 ++ [auctionId]) w3 in
  Ok (emit (AuctionCreated auctionId nft tok s startingBid endTime) w4)
  end end.

(** no external call *)
Definition placeBid (s v : N) (auctionId : Key) (w : World) : Res World :=
  match auctions w !! auctionId with None => Err AuctionNotFound | Some a =>
  if negb (Auction.isActive a) then Err AuctionNotActive else
  if Auction.endTime a <=? timestamp w then Err AuctionEnded else
  if v <=? Auction.highestBid a then Err BidTooLow else
  pr <- (if Auction.highestBidder a =? 0 then Ok (proceeds w) else
         np <- add256 (proceeds_of w (Auction.highestBidder a)) (Auction.highestBid a) ;;
         Ok (<[Auction.highestBidder a := np]> (proceeds w))) ;;
  endTime <- (if Auction.endTime a - timestamp w <? AUCTION_EXTENSION_TIME
              then add256 (timestamp w) AUCTION_EXTENSION_TIME
              else Ok (Auction.endTime a)) ;;
  let w1 := set_proceeds pr w in
  let w2 := set_auctions (<[auctionId := Auction.bid a v s endTime]> (auctions w1)) w1 in
  Ok (emit (BidPlaced auctionId s v) w2)
  end.

Definition endAuction (auctionId : Key) (w : World) : Res World :=
  match auctions w !! auctionId with None => Err AuctionNotFound | Some a =>
  if negb (Auction.isActive a) then Err AuctionNotActive else
  if timestamp w <? Auction.endTime a then Err AuctionNotEnded else
  if Auction.isFinalized a then Err AuctionNotActive else
  let w1 := set_auctions (<[auctionId := Auction.finalize a]> (auctions w)) w in
  let w2 := set_activeAuctions (removeFromActive auctionId (activeAuctions w1)) w1 in
  let w3 := set_nftToAuction (delete (Auction.nftContract a, Auction.tokenId a) (nftToAuction w2)) w2 in
  if negb (Auction.highestBidder a =? 0) then
    prod <- mul256 (Auction.highestBid a) (marketplaceFeePercentage w3) ;;
    let marketplaceFee := prod / 10000 in
    sellerProceeds <- sub256 (Auction.highestBid a) marketplaceFee ;;
    w4 <- ext (NftTransfer (Auction.nftContract a) (Auction.tokenId a) self (Auction.highestBidder a)) w3 ;;
    np <- add256 (proceeds_of w4 (Auction.seller a)) sellerProceeds ;;
    let w5 := set_proceeds (<[Auction.seller a := np]> (proceeds w4)) w4 in
    Ok (emit (AuctionFinalized auctionId (Auction.highestBidder a) (Auction.highestBid a) marketplaceFee) w5)
  else
    w4 <- ext (NftTransfer (Auction.nftContract a) (Auction.tokenId a) self (Auction.seller a)) w3 ;;
    Ok (emit (AuctionFinalized auctionId 0 0 0) w4)
  end.

Definition withdrawProceeds (s : N) (w : World) : Res World :=
  let amount := proceeds_of w s in
  if amount =? 0 then Err NoBids else
  let w1 := set_proceeds (<[s := 0]> (proceeds w)) w in
  match ext (EthSend s amount) w1 with
  | Err _ => Err TransferFailed
  | Ok w2 => Ok (emit (ProceedsWithdrawn s amount) w2)
  end.

Definition setMarketplaceFee (newFeePercentage : N) (w : World) : Res World :=
  if MAX_MARKETPLACE_FEE <? newFeePercentage then Err InvalidMarketplaceFee else
  Ok (emit (MarketplaceFeeUpdated newFeePercentage)
        (set_marketplaceFeePercentage newFeePercentage w)).

(** [_pause] carries [whenNotPaused], [_unpause] carries [whenPaused] *)
Definition pause (s : N) (w : World) : Res World :=
  if paused w then Err EnforcedPause else Ok (emit (Paused s) (set_paused true w)).

Definition unpause (s : N) (w : World) : Res World :=
  if negb (paused w) then Err ExpectedPause else Ok (emit (Unpaused s) (set_paused false w)).

Definition withdrawFees (w : World) : Res World :=
  let bal := balance w in
  match ext (EthSend (owner w) bal) w with
  | Err _ => Err TransferFailed
  | Ok w1 => Ok w1
  end.

Definition transferOwnership (newOwner : N) (w : World) : Res World :=
  if newOwner =? 0 then Err OwnableInvalidOwner else
  Ok (emit (OwnershipTransferred (owner w) newOwner) (set_owner newOwner w)).

Definition renounceOwnership (w : World) : Res World :=
  Ok (emit (OwnershipTransferred (owner w) 0) (set_owner 0 w)).

End Engine.

Section Dispatch.

Variable self : N.
Variable hook : ExtCall -> World -> Callback.

(** Function dispatch with the modifiers in source order. *)
Definition step (ext : ExtCall -> World -> Res World) (w : World) (r : Req) : Res World :=
  let s := Npos (sender r) in
  let v := value r in
  match op r with
  | ListItem nft tok price =>
      nonpayable v (whenNotPaused (nonReentrant (listItem self ext s nft tok price))) w
  | CancelListing k =>
      nonpayable v (whenNotPaused (nonReentrant (cancelListing self ext s k))) w
  | BuyNow k =>
      payable v (whenNotPaused (nonReentrant (buyNow self ext s v k))) w
  | CreateAuction nft tok sb dur =>
      nonpayable v (whenNotPaused (nonReentrant (createAuction self ext s nft tok sb dur))) w
  | PlaceBid k =>
      payable v (whenNotPaused (nonReentrant (placeBid s v k))) w
  | EndAuction k =>
      nonpayable v (whenNotPaused (nonReentrant (endAuction self ext k))) w
  | WithdrawProceeds =>
      nonpayable v (nonReentrant (withdrawProceeds ext s)) w
  | SetMarketplaceFee f =>
      nonpayable v (onlyOwner s (setMarketplaceFee f)) w
  | Pause => nonpayable v (onlyOwner s (pause s)) w
  | Unpause => nonpayable v (onlyOwner s (unpause s)) w
  | WithdrawFees => nonpayable v (onlyOwner s (withdrawFees ext)) w
  | TransferOwnership o => nonpayable v (onlyOwner s (transferOwnership o)) w
  | RenounceOwnership => nonpayable v (onlyOwner s renounceOwnership) w
  end.

(** A message call with [n] levels of call depth available; the calls back
    from a callee run one level deeper. *)
Fixpoint run (n : nat) (w : World) (r : Req) : Res World :=
  match n with
  | O => Err OutOfGas
  | S n' => step (external hook (run n')) w r
  end.

(** A transaction: a reverted call leaves the world as it was. *)
Definition exec (n : nat) (w : World) (r : Req) : World :=
  match run n w r with Ok w' => w' | Err _ => w end.

End Dispatch.

(** The constructor. *)
Definition deploy (deployer : positive) (fee t : N) (nfts : gmap (N * N) N) : Res World :=
  if MAX_MARKETPLACE_FEE <? fee then Err InvalidMarketplaceFee else
  Ok (mkWorld ∅ ∅ ∅ ∅ ∅ [] [] fee false false (Npos deployer) 0 t nfts [] []).

(** Reachable worlds: deployment, then transactions, the clock moving
    forward, and token moves by others in the collections. *)
Inductive reachable (self : N) (hook : ExtCall -> World -> Callback) : World -> Prop :=
| reach_deploy d fee t nfts w :
    deploy d fee t nfts = Ok w -> reachable self hook w
| reach_tx w n r w' :
    reachable self hook w -> run self hook n w r = Ok w' -> reachable self hook w'
| reach_time w t :
    reachable self hook w -> timestamp w <= t -> reachable self hook (set_timestamp t w)
| reach_nft w m :
    reachable self hook w -> reachable self hook (set_nftOwners m w).

(** A callee that never calls back. *)
Definition no_hook : ExtCall -> World -> Callback := fun _ _ => mkCallback [] false.

(** ** Views of the world used by the specification *)

(** The contract's own storage that the marketplace functions read and write. *)
Definition store (w : World) :=
  (listings w, auctions w, nftToListing w, nftToAuction w, proceeds w,
   activeListings w, activeAuctions w, entered w, timestamp w).

(** the (collection, token) pair inside an identifier *)
Definition key_asset (k : Key) : N * N := (k.1.1.1, k.1.1.2).

Definition lkey (l : Listing.t) : Key :=
  sale_key (Listing.nftContract l) (Listing.tokenId l) (Listing.seller l) (Listing.createdAt l).
Definition akey (a : Auction.t) : Key :=
  sale_key (Auction.nftContract a) (Auction.tokenId a) (Auction.seller a) (Auction.createdAt a).

(** The sale registry [M] and the asset index [NM] agree: entries sit at
    their own identifier, every active sale is indexed under its asset,
    and every index entry points to an active sale of that asset. *)
Definition sale_inv {T} (tkey : T -> Key) (tactive : T -> bool)
    (M : gmap Key T) (NM : gmap (N * N) Key) : Prop :=
  (forall k t, M !! k = Some t -> k = tkey t) /\
  (forall k t, M !! k = Some t -> tactive t = true -> NM !! key_asset k = Some k) /\
  (forall x k, NM !! x = Some k ->
     exists t, M !! k = Some t /\ tactive t = true /\ key_asset k = x).

(** Facts about one auction at time [now]. *)
Definition auction_ok (now : N) (a : Auction.t) : Prop :=
  (Auction.highestBidder a = 0 -> Auction.highestBid a = 0) /\
  Auction.isActive a = negb (Auction.isFinalized a) /\
  Auction.createdAt a < Auction.endTime a /\
  Auction.createdAt a <= now /\
  (Auction.isFinalized a = true -> Auction.endTime a <= now).

Definition InvS (w : World) : Prop :=
  sale_inv lkey Listing.isActive (listings w) (nftToListing w) /\
  sale_inv akey Auction.isActive (auctions w) (nftToAuction w) /\
  (forall x, nftToListing w !! x = None \/ nftToAuction w !! x = None) /\
  map_Forall (fun _ a => auction_ok (timestamp w) a) (auctions w).

(** The invariant of every world between transactions. *)
Definition Inv (w : World) : Prop := entered w = false /\ InvS w.

(** At most one active sale per asset. *)
Definition exclusive (w : World) : Prop :=
  (forall k1 k2 l1 l2, listings w !! k1 = Some l1 -> listings w !! k2 = Some l2 ->
     Listing.isActive l1 = true -> Listing.isActive l2 = true ->
     (Listing.nftContract l1, Listing.tokenId l1) = (Listing.nftContract l2, Listing.tokenId l2) ->
     k1 = k2) /\
  (forall k1 k2 a1 a2, auctions w !! k1 = Some a1 -> auctions w !! k2 = Some a2 ->
     Auction.isActive a1 = true -> Auction.isActive a2 = true ->
     (Auction.nftContract a1, Auction.tokenId a1) = (Auction.nftContract a2, Auction.tokenId a2) ->
     k1 = k2) /\
  (forall k1 k2 l a, listings w !! k1 = Some l -> auctions w !! k2 = Some a ->
     Listing.isActive l = true -> Auction.isActive a = true ->
     (Listing.nftContract l, Listing.tokenId l) <> (Auction.nftContract a, Auction.tokenId a)).

(** Value accounting. *)
Definition fee_of (e : Event) : N :=
  match e with
  | ItemBought _ _ _ f => f
  | AuctionFinalized _ _ _ f => f
  | _ => 0
  end.

(** marketplace fees charged so far, read off the settlement events *)
Definition fees_taken (evs : list Event) : N := fold_right (fun e acc => fee_of e + acc) 0 evs.

Definition msum {K} `{Countable K} {A} (g : A -> N) (m : gmap K A) : N :=
  map_fold (fun _ x acc => g x + acc) 0 m.

(** sum of all escrow balances *)
Definition escrow (w : World) : N := msum (fun x => x) (proceeds w).

(** highest bids held by active auctions *)
Definition held_bid (a : Auction.t) : N :=
  if Auction.isActive a then Auction.highestBid a else 0.
Definition held (w : World) : N := msum held_bid (auctions w).

(** what the contract owes to sellers and bidders plus the fees it took *)
Definition total (w : World) : N := escrow w + held w + fees_taken (events w).

(** [balance] = value received - value paid out, plus [d]: value that
    reached the address without a call to it *)
Definition conserved (d : N) (w : World) : Prop := balance w = total w + d.

(** value an external call takes out of the contract *)
Definition paid_out (c : ExtCall) : N :=
  match c with NftTransfer _ _ _ _ => 0 | EthSend _ amount => amount end.

(** callees that never call [withdrawFees] back *)
Definition hook_nwf (hook : ExtCall -> World -> Callback) : Prop :=
  forall c w, Forall (fun r => op r <> WithdrawFees) (cb_calls (hook c w)).

(** Worlds reachable without ever calling [withdrawFees]. *)
Inductive reachable_nwf (self : N) (hook : ExtCall -> World -> Callback) : World -> Prop :=
| nwf_deploy d fee t nfts w :
    deploy d fee t nfts = Ok w -> reachable_nwf self hook w
| nwf_tx w n r w' :
    reachable_nwf self hook w -> op r <> WithdrawFees ->
    run self hook n w r = Ok w' -> reachable_nwf self hook w'
| nwf_time w t :
    reachable_nwf self hook w -> timestamp w <= t -> reachable_nwf self hook (set_timestamp t w)
| nwf_nft w m :
    reachable_nwf self hook w -> reachable_nwf self hook (set_nftOwners m w)
(** value forced in without a call (a [selfdestruct] payout, a block
    reward), or held at the address before deployment *)
| nwf_force w a :
    reachable_nwf self hook w -> reachable_nwf self hook (set_balance (balance w + a) w).

(** Entry points guarded by [nonReentrant]. *)
Definition lock_guarded (o : Op) : bool :=
  match o with
  | ListItem _ _ _ | CancelListing _ | BuyNow _ | CreateAuction _ _ _ _
  | PlaceBid _ | EndAuction _ | WithdrawProceeds => true
  | _ => false
  end.

(** Entry points guarded by [whenNotPaused]. *)
Definition pause_guarded (o : Op) : bool :=
  match o with
  | ListItem _ _ _ | CancelListing _ | BuyNow _ | CreateAuction _ _ _ _
  | PlaceBid _ | EndAuction _ => true
  | _ => false
  end.

(** Owner-only entry points whose bodies neither read the pause flag nor
    call out. *)
Definition pause_free (o : Op) : bool :=
  match o with
  | SetMarketplaceFee _ | TransferOwnership _ | RenounceOwnership => true
  | _ => false
  end.

Definition res_map {A B} (f : A -> B) (x : Res A) : Res B :=
  match x with Ok y => Ok (f y) | Err e => Err e end.

Definition is_payable (o : Op) : bool :=
  match o with BuyNow _ | PlaceBid _ => true | _ => false end.

(** Every auction keeps its entry and its highest bid does not go down. *)
Definition bids_kept (A A' : gmap Key Auction.t) : Prop :=
  forall k a, A !! k = Some a ->
    exists a', A' !! k = Some a' /\ Auction.highestBid a <= Auction.highestBid a'.

(** [x] has an active listing / an active auction. *)
Definition listed (w : World) (x : N * N) : Prop :=
  exists k l, listings w !! k = Some l /\ Listing.isActive l = true /\
              (Listing.nftContract l, Listing.tokenId l) = x.
Definition auctioned (w : World) (x : N * N) : Prop :=
  exists k a, auctions w !! k = Some a /\ Auction.isActive a = true /\
              (Auction.nftContract a, Auction.tokenId a) = x.

(** The asset a [listItem] / [createAuction] call opens a sale for, when
    its argument checks ([price], [startingBid], [duration]) pass. *)
Definition sale_request (o : Op) : option (N * N) :=
  match o with
  | ListItem nft tok price => if price =? 0 then None else Some (nft, tok)
  | CreateAuction nft tok sb dur =>
      if (sb =? 0) || ((dur <? MIN_AUCTION_DURATION) || (MAX_AUCTION_DURATION <? dur))
      then None else Some (nft, tok)
  | _ => None
  end.

(** ** Public view functions *)

(** [getActiveListings] / [getActiveAuctions] *)
Definition getActiveListings (w : World) : list Key := activeListings w.
Definition getActiveAuctions (w : World) : list Key := activeAuctions w.

(** [getListing] / [getAuction]: a missing entry reads as the all-zero
    struct, [None] here. *)
Definition getListing (w : World) (listingId : Key) : option Listing.t := listings w !! listingId.
Definition getAuction (w : World) (auctionId : Key) : option Auction.t := auctions w !! auctionId.

(** [getProceeds] *)
Definition getProceeds (w : World) (user : N) : N := proceeds_of w user.

(** The array [arr] holds each identifier of an active entry of [M] once,
    and nothing else. *)
Definition active_index {T} (tactive : T -> bool) (M : gmap Key T) (arr : list Key) : Prop :=
  NoDup arr /\ forall k, k ∈ arr <-> exists t, M !! k = Some t /\ tactive t = true.

(** The active arrays index exactly the active listings and auctions. *)
Definition active_ok (w : World) : Prop :=
  active_index Listing.isActive (listings w) (activeListings w) /\
  active_index Auction.isActive (auctions w) (activeAuctions w).

(** The marketplace holds the token of every active listing and auction. *)
Definition custody (self : N) (w : World) : Prop :=
  (forall k l, listings w !! k = Some l -> Listing.isActive l = true ->
     nftOwners w !! (Listing.nftContract l, Listing.tokenId l) = Some self) /\
  (forall k a, auctions w !! k = Some a -> Auction.isActive a = true ->
     nftOwners w !! (Auction.nftContract a, Auction.tokenId a) = Some self).

(** Entry points guarded by [onlyOwner]. *)
Definition owner_only (o : Op) : bool :=
  match o with
  | SetMarketplaceFee _ | Pause | Unpause | WithdrawFees
  | TransferOwnership _ | RenounceOwnership => true
  | _ => false
  end.

(** A sequence of transactions, each one reverting on its own. *)
Fixpoint exec_all (self : N) (hook : ExtCall -> World -> Callback) (w : World)
    (txs : list (nat * Req)) : World :=
  match txs with
  | [] => w
  | (n, r) :: rest => exec_all self hook (exec self hook n w r) rest
  end.

(** ** Concrete runs

    The marketplace at address 100, deployed by account 1 with a 2.5% fee
    at time 1000; account 3 owns token 1 of the collection at address 7. *)

Definition mkt : N := 100.
Definition nfts0 : gmap (N * N) N := {[(7, 1) := 3]}.
Definition W0 : World := mkWorld ∅ ∅ ∅ ∅ ∅ [] [] 250 false false 1 0 1000 nfts0 [] [].
(** the identifier of a sale of token (7, 1) opened by 3 at time 1000 *)
Definition key0 : Key := sale_key 7 1 3 1000.

(** Fixed price: 3 lists at 100, 4 buys, the owner pauses. *)
Definition W1 : World := exec mkt no_hook 1 W0 (mkReq 3 (ListItem 7 1 100) 0).
Definition W2 : World := exec mkt no_hook 1 W1 (mkReq 4 (BuyNow key0) 100).
Definition W3 : World := exec mkt no_hook 1 W2 (mkReq 1 Pause 0).

(** Auction: 3 auctions for an hour from 10, 4 bids 50, 5 bids 60, the
    clock moves past the end, 4 ends the auction. *)
Definition A1 : World := exec mkt no_hook 1 W0 (mkReq 3 (CreateAuction 7 1 10 3600) 0).
Definition A2 : World := exec mkt no_hook 1 A1 (mkReq 4 (PlaceBid key0) 50).
Definition A3 : World := exec mkt no_hook 1 A2 (mkReq 5 (PlaceBid key0) 60).
Definition A4 : World := set_timestamp 5000 A3.
Definition A5 : World := exec mkt no_hook 1 A4 (mkReq 4 (EndAuction key0) 0).

(** The owner sells its own token; when paid, it calls [pause] back. *)
Definition nfts1 : gmap (N * N) N := {[(7, 1) := 1]}.
Definition V0 : World := mkWorld ∅ ∅ ∅ ∅ ∅ [] [] 250 false false 1 0 1000 nfts1 [] [].
Definition keyV : Key := sale_key 7 1 1 1000.
Definition pause_on_receipt : ExtCall -> World -> Callback := fun c _ =>
  match c with
  | EthSend to _ => if to =? 1 then mkCallback [mkReq 1 Pause 0] true else mkCallback [] false
  | NftTransfer _ _ _ _ => mkCallback [] false
  end.
Definition V1 : World := exec mkt pause_on_receipt 2 V0 (mkReq 1 (ListItem 7 1 100) 0).
Definition V2 : World := exec mkt pause_on_receipt 2 V1 (mkReq 4 (BuyNow keyV) 100).

(** The owner, paid by [withdrawFees], lists its token on receipt. *)
Definition list_on_receipt : ExtCall -> World -> Callback := fun c _ =>
  match c with
  | EthSend to _ =>
      if to =? 1 then mkCallback [mkReq 1 (ListItem 7 1 100) 0] true else mkCallback [] false
  | NftTransfer _ _ _ _ => mkCallback [] false
  end.

(** ** The contract [Marketplace] of src/unnamed/part_009

    The repository's second marketplace contract.  Embedded: the listing
    storage [placeBid] reads and writes, and [placeBid] itself.  It is
    built on OpenZeppelin 4, whose [whenNotPaused] and [nonReentrant]
    revert with the strings "Pausable: paused" and "ReentrancyGuard:
    reentrant call", written here [EnforcedPause] and
    [ReentrancyGuardReentrantCall]. *)
Module Marketplace.

Inductive ListingType := FixedPrice | Auction.
Inductive ListingStatus := Active | Sold | Cancelled.

(** [IMarketplace.Listing] *)
Record Listing := mkListing {
  id : N;
  nftContract : N;
  tokenId : N;
  seller : N;
  price : N;
  currentBid : N;
  currentBidder : N;
  listingType : ListingType;
  status : ListingStatus;
  endTime : N;
  createdAt : N }.

Record State := mkState {
  listings : gmap N Listing;  (* listings *)
  paused : bool;              (* Pausable._paused *)
  entered : bool;             (* ReentrancyGuard._status == _ENTERED *)
  balance : N;                (* address(this).balance *)
  timestamp : N;              (* block.timestamp *)
  sent : list (N * N);        (* value sent out: (recipient, amount) *)
  events : list (N * N * N)   (* BidPlaced(listingId, bidder, amount) *)
}.

Definition set_listings v st := mkState v (paused st) (entered st) (balance st) (timestamp st) (sent st) (events st).
Definition set_entered v st := mkState (listings st) (paused st) v (balance st) (timestamp st) (sent st) (events st).
Definition set_balance v st := mkState (listings st) (paused st) (entered st) v (timestamp st) (sent st) (events st).
Definition set_sent v st := mkState (listings st) (paused st) (entered st) (balance st) (timestamp st) v (events st).
Definition set_events v st := mkState (listings st) (paused st) (entered st) (balance st) (timestamp st) (sent st) v.

Definition set_currentBid v l := mkListing (id l) (nftContract l) (tokenId l) (seller l) (price l) v (currentBidder l) (listingType l) (status l) (endTime l) (createdAt l).
Definition set_currentBidder v l := mkListing (id l) (nftContract l) (tokenId l) (seller l) (price l) (currentBid l) v (listingType l) (status l) (endTime l) (createdAt l).
Definition set_endTime v l := mkListing (id l) (nftContract l) (tokenId l) (seller l) (price l) (currentBid l) (currentBidder l) (listingType l) (status l) v (createdAt l).

(** [listings[listingId]]: a missing entry reads as the all-zero struct *)
Definition zeroListing : Listing := mkListing 0 0 0 0 0 0 0 FixedPrice Active 0 0.
Definition listing_at (st : State) (listingId : N) : Listing :=
  default zeroListing (listings st !! listingId).

Section Calls.

(** Whether the recipient's code accepts a value transfer of [amount] to
    [to] (a contract may revert on receipt). *)
Variable accepts : N -> N -> State -> bool.

(** [to.call{value: amount}("")]: [None] is [success == false]. *)
Definition call_value (to amount : N) (st : State) : option State :=
  if (amount <=? balance st) && accepts to amount st
  then Some (set_sent (sent st ++ [(to, amount)]) (set_balance (balance st - amount) st))
  else None.

(** The body of [placeBid]. *)
Definition placeBid_body (sender value listingId : N) (st : State) : Res State :=
  let listing := listing_at st listingId in
  if id listing =? 0 then Err ListingNotFound else
  match listingType listing with
  | FixedPrice => Err NotAuthorized
  | Auction =>
  match status listing with
  | Sold | Cancelled => Err ListingNotActive
  | Active =>
  if endTime listing <=? timestamp st then Err AuctionEnded else
  if value <=? currentBid listing then Err BidTooLow else
  st1 <- (if currentBidder listing =? 0 then Ok st else
          match call_value (currentBidder listing) (currentBid listing) st with
          | Some st' => Ok st'
          | None => Err TransferFailed
          end) ;;
  let l1 := set_currentBidder sender (set_currentBid value listing) in
  left <- sub256 (endTime listing) (timestamp st) ;;
  l2 <- (if left <? AUCTION_EXTENSION_TIME then
           et <- add256 (timestamp st) AUCTION_EXTENSION_TIME ;; Ok (set_endTime et l1)
         else Ok l1) ;;
  let st2 := set_listings (<[listingId := l2]> (listings st1)) st1 in
  Ok (set_events (events st2 ++ [(listingId, sender, value)]) st2)
  end
  end.

(** [placeBid(listingId)], external payable whenNotPaused nonReentrant. *)
Definition placeBid (sender value listingId : N) (st : State) : Res State :=
  let st0 := set_balance (balance st + value) st in
  if paused st0 then Err EnforcedPause else
  if entered st0 then Err ReentrancyGuardReentrantCall else
  match placeBid_body sender value listingId (set_entered true st0) with
  | Ok st' => Ok (set_entered false st')
  | Err e => Err e
  end.

End Calls.

(** Listing 1: an auction of token (7, 1) by account 3 until time 5000,
    account 4 holding the highest bid of 50; the clock at 1000. *)
Definition M0 : State :=
  mkState {[1 := mkListing 1 7 1 3 10 50 4 Auction Active 5000 1000]} false false 50 1000 [] [].

(** Recipients that accept every transfer, and account 4 rejecting one. *)
Definition accept_all : N -> N -> State -> bool := fun _ _ _ => true.
Definition reject_4 : N -> N -> State -> bool := fun to _ _ => negb (to =? 4).

End Marketplace.

(** * Proofs *)

(** ** Calls back from a callee *)

Lemma nested_preserve (P : World -> Prop) rn p calls w w' :
  (forall x r y, P x -> rn x r = Ok y -> P y) ->
  P w -> nested rn p calls w = Ok w' -> P w'.
Proof.
  intros Hstep. revert w. induction calls as [|r rs IH]; simpl; intros w Hw H.
  - congruence.
  - destruct (rn w r) eqn:E.
    + eapply IH; [|exact H]. eauto.
    + destruct p; [discriminate|]. eauto.
Qed.

Lemma nested_all_fail rn calls w :
  Forall (fun r => exists e, rn w r = Err e) calls ->
  nested rn false calls w = Ok w.
Proof.
  induction 1 as [|r rs [e He] _ IH]; simpl; [reflexivity|]. rewrite He. exact IH.
Qed.

Lemma nested_congr (P : World -> Prop) rn1 rn2 p calls w :
  (forall x r, P x -> rn1 x r = rn2 x r) ->
  (forall x r y, P x -> rn1 x r = Ok y -> P y) ->
  P w -> nested rn1 p calls w = nested rn2 p calls w.
Proof.
  intros Heq Hstep. revert w. induction calls as [|r rs IH]; simpl; intros w Hw; [reflexivity|].
  rewrite <- (Heq w r Hw). destruct (rn1 w r) eqn:E.
  - apply IH. eauto.
  - destruct p; [reflexivity|]. auto.
Qed.

(** ** Calls made while the lock is held *)

Lemma store_entered x y : store x = store y -> entered x = entered y.
Proof. unfold store. intros H. injection H. auto. Qed.

Ltac modifiers :=
  unfold nonpayable, payable, whenNotPaused, nonReentrant, onlyOwner in *.

(** A lock-guarded entry point called while the lock is held fails. *)
Lemma guarded_locked_fail self ext w r :
  entered w = true -> lock_guarded (op r) = true ->
  exists e, step self ext w r = Err e.
Proof.
  intros Hent G. destruct r as [s o v]. unfold step.
  destruct o; simpl in G; try discriminate; cbn -[listItem cancelListing buyNow
    createAuction placeBid endAuction withdrawProceeds]; modifiers;
  cbn -[listItem cancelListing buyNow createAuction placeBid endAuction withdrawProceeds];
  rewrite ?Hent;
  repeat match goal with |- context [if ?b then _ else _] => destruct b end; eauto.
Qed.

(** Under the lock only the owner-only functions can succeed, and they
    touch neither the marketplace storage nor the token ledgers. *)
Lemma run_locked_frame self hook n : forall w r w',
  entered w = true -> run self hook n w r = Ok w' ->
  store w' = store w /\ nftOwners w' = nftOwners w.
Proof.
  induction n as [|n IH]; intros w r w' Hent H; simpl in H; [discriminate|].
  destruct (lock_guarded (op r)) eqn:G.
  { destruct (guarded_locked_fail self (external hook (run self hook n)) w r Hent G) as [e He].
    congruence. }
  destruct r as [s o v]. unfold step in H; simpl in G, H.
  destruct o; try discriminate G; modifiers;
  destruct (v =? 0); try discriminate; destruct (owner w =? N.pos s); try discriminate.
  - unfold setMarketplaceFee in H. destruct (_ <? _); inversion H; auto.
  - unfold pause in H. destruct (paused w); inversion H; auto.
  - unfold unpause in H. destruct (negb (paused w)); inversion H; auto.
  - unfold withdrawFees, external in H.
    destruct (balance w <=? balance w); [|discriminate].
    destruct (nested _ _ _ _) as [w1|] eqn:E; inversion H; subst w1.
    eapply (nested_preserve (fun x => store x = store w /\ nftOwners x = nftOwners w)); [| |exact E].
    + intros x r y [Hs Ho] Hr.
      assert (entered x = true) by (rewrite (store_entered _ _ Hs); exact Hent).
      destruct (IH x r y H0 Hr) as [H1 H2]. split; congruence.
    + split; reflexivity.
  - unfold transferOwnership in H. destruct (_ =? 0); inversion H; auto.
  - unfold renounceOwnership in H. inversion H; auto.
Qed.

(** What an external call made under the lock does: the token moves (or
    the value leaves), the marketplace storage is as before. *)
Lemma external_frame self hook n c x y :
  entered x = true -> external hook (run self hook n) c x = Ok y ->
  store y = store x /\
  match c with
  | NftTransfer nft tok from to =>
      nftOwners x !! (nft, tok) = Some from /\ nftOwners y = <[(nft, tok) := to]> (nftOwners x)
  | EthSend _ _ => nftOwners y = nftOwners x
  end.
Proof.
  intros Hent H. destruct c as [nft tok from to|to amount]; simpl in H.
  - case_decide as Hown; [|discriminate].
    set (w1 := set_nftOwners _ x) in H.
    assert (P : store y = store w1 /\ nftOwners y = nftOwners w1).
    { eapply (nested_preserve (fun z => store z = store w1 /\ nftOwners z = nftOwners w1)); [| |exact H].
      - intros z r z' [Hs Ho] Hr.
        assert (entered z = true) by (rewrite (store_entered _ _ Hs); exact Hent).
        destruct (run_locked_frame self hook n z r z' H0 Hr). split; congruence.
      - split; reflexivity. }
    destruct P as [P1 P2]. split; [exact P1|]. split; [exact Hown|exact P2].
  - destruct (amount <=? balance x); [|discriminate].
    set (w1 := set_sent _ _) in H.
    assert (P : store y = store w1 /\ nftOwners y = nftOwners w1).
    { eapply (nested_preserve (fun z => store z = store w1 /\ nftOwners z = nftOwners w1)); [| |exact H].
      - intros z r z' [Hs Ho] Hr.
        assert (entered z = true) by (rewrite (store_entered _ _ Hs); exact Hent).
        destruct (run_locked_frame self hook n z r z' H0 Hr). split; congruence.
      - split; reflexivity. }
    destruct P as [P1 P2]. split; [exact P1|exact P2].
Qed.

(** ** Registry lemmas *)

Lemma alter_some {K A} `{Countable K} (f : A -> A) (k : K) (m : gmap K A) x :
  m !! k = Some x -> alter f k m = <[k := f x]> m.
Proof.
  intros Hk. apply map_eq. intros j. rewrite lookup_alter, lookup_insert.
  case_decide; subst; [rewrite Hk|]; reflexivity.
Qed.

Section SaleInv.
Context {T : Type} (tkey : T -> Key) (tactive : T -> bool).

(** a fresh sale at [k] is registered and indexed *)
Lemma sale_inv_insert_new M NM k t :
  sale_inv tkey tactive M NM -> NM !! key_asset k = None ->
  tkey t = k -> tactive t = true ->
  sale_inv tkey tactive (<[k := t]> M) (<[key_asset k := k]> NM).
Proof.
  intros (H1 & H2 & H3) Hfree Hkey Hact. split; [|split].
  - intros k' t' Hl. apply lookup_insert_Some in Hl as [[<- <-]|[_ Hl]]; eauto.
  - intros k' t' Hl Ha. apply lookup_insert_Some in Hl as [[<- <-]|[Hne Hl]].
    + apply lookup_insert_eq.
    + specialize (H2 _ _ Hl Ha). rewrite lookup_insert_ne; [exact H2|].
      intros E. rewrite E in Hfree. congruence.
  - intros x k' Hx. apply lookup_insert_Some in Hx as [[<- <-]|[Hne Hx]].
    + exists t. split; [apply lookup_insert_eq|]. auto.
    + destruct (H3 _ _ Hx) as (t' & Hl & Ha & Hka). exists t'.
      split; [|auto]. rewrite lookup_insert_ne; [exact Hl|].
      intros <-. congruence.
Qed.

(** a sale at [k] is deactivated and unindexed *)
Lemma sale_inv_remove M NM k t t' :
  sale_inv tkey tactive M NM -> M !! k = Some t -> tactive t = true ->
  tkey t' = tkey t -> tactive t' = false ->
  sale_inv tkey tactive (<[k := t']> M) (delete (key_asset k) NM).
Proof.
  intros (H1 & H2 & H3) Hk Hact Hkey Hoff. split; [|split].
  - intros k' t'' Hl. apply lookup_insert_Some in Hl as [[<- <-]|[_ Hl]]; eauto.
    rewrite Hkey. eauto.
  - intros k' t'' Hl Ha. apply lookup_insert_Some in Hl as [[<- <-]|[Hne Hl]].
    + congruence.
    + rewrite lookup_delete_ne; [eauto|].
      intros E. pose proof (H2 _ _ Hl Ha) as G1. pose proof (H2 k t Hk Hact) as G2.
      rewrite E in G2. congruence.
  - intros x k' Hx. apply lookup_delete_Some in Hx as [Hne Hx].
    destruct (H3 _ _ Hx) as (t'' & Hl & Ha & Hka). exists t''.
    split; [|auto]. rewrite lookup_insert_ne; [exact Hl|]. intros <-. congruence.
Qed.

(** a sale is updated in place, keeping identifier and status *)
Lemma sale_inv_update M NM k t t' :
  sale_inv tkey tactive M NM -> M !! k = Some t ->
  tkey t' = tkey t -> tactive t' = tactive t ->
  sale_inv tkey tactive (<[k := t']> M) NM.
Proof.
  intros (H1 & H2 & H3) Hk Hkey Hact. split; [|split].
  - intros k' t'' Hl. apply lookup_insert_Some in Hl as [[<- <-]|[_ Hl]]; eauto.
    rewrite Hkey. eauto.
  - intros k' t'' Hl Ha. apply lookup_insert_Some in Hl as [[<- <-]|[Hne Hl]].
    + rewrite Hact in Ha. eauto.
    + eauto.
  - intros x k' Hx. destruct (H3 _ _ Hx) as (t'' & Hl & Ha & Hka).
    destruct (decide (k' = k)) as [->|Hne].
    + exists t'. rewrite lookup_insert_eq. rewrite Hk in Hl. injection Hl as <-.
      rewrite Hact. auto.
    + exists t''. rewrite lookup_insert_ne by congruence. auto.
Qed.

Lemma sale_inv_active M NM k t :
  sale_inv tkey tactive M NM -> M !! k = Some t -> tactive t = true ->
  NM !! key_asset k = Some k.
Proof. intros (_ & H2 & _). eauto. Qed.

End SaleInv.

Lemma InvS_store w w' : store w' = store w -> InvS w -> InvS w'.
Proof.
  unfold store, InvS. intros H. injection H as HL HA HNL HNA _ _ _ _ HT.
  rewrite HL, HA, HNL, HNA, HT. auto.
Qed.

Lemma auction_ok_later t t' a : t <= t' -> auction_ok t a -> auction_ok t' a.
Proof. unfold auction_ok. intros Ht (H1 & H2 & H3 & H4 & H5).
  repeat split; try assumption; try lia. intros Hf. specialize (H5 Hf). lia.
Qed.

(** ** The function bodies preserve the registry invariant *)

Ltac split_guards H :=
  repeat match type of H with
  | context [if ?b then _ else _] =>
      let E := fresh "G" in destruct b eqn:E; try discriminate H
  end.

Ltac bind_ok H :=
  match type of H with
  | context [bind ?m _] =>
      let x := fresh "x" in let E := fresh "E" in
      destruct m as [x|] eqn:E; [simpl in H|discriminate H]
  end.

Section Bodies.
Variable self : N.
Variable ext : ExtCall -> World -> Res World.
Hypothesis ext_frame : forall c x y, entered x = true -> ext c x = Ok y -> store y = store x.

Lemma listItem_InvS s nft tok price w w' :
  entered w = true -> InvS w -> listItem self ext s nft tok price w = Ok w' ->
  InvS w' /\ entered w' = true.
Proof.
  intros Hent Hinv H. unfold listItem in H.
  destruct (price =? 0); [discriminate|].
  destruct (nftToListing w !! (nft, tok)) eqn:HL; [discriminate|].
  destruct (nftToAuction w !! (nft, tok)) eqn:HA; [discriminate|].
  destruct (ext _ w) as [w1|] eqn:E; [|discriminate]. simpl in H. injection H as <-.
  pose proof (ext_frame _ _ _ Hent E) as Hs.
  apply (InvS_store _ _ Hs) in Hinv.
  rewrite <- (store_entered _ _ Hs) in Hent.
  unfold store in Hs. injection Hs as HL1 HA1 HNL1 HNA1 _ _ _ _ HT1.
  rewrite <- HNL1 in HL. rewrite <- HNA1 in HA.
  destruct Hinv as (IL & IA & IX & IT).
  split; [|exact Hent]. cbn.
  split; [|split; [|split]]; [| exact IA | | exact IT].
  - apply (sale_inv_insert_new lkey Listing.isActive); auto.
  - intros x. cbn. destruct (decide (x = (nft, tok))) as [->|Hne].
    + right. exact HA.
    + rewrite lookup_insert_ne by congruence. apply IX.
Qed.

Lemma cancelListing_InvS s k w w' :
  entered w = true -> InvS w -> cancelListing self ext s k w = Ok w' ->
  InvS w' /\ entered w' = true.
Proof.
  intros Hent Hinv H. unfold cancelListing in H.
  destruct (listings w !! k) as [l|] eqn:Hl; [|discriminate].
  split_guards H. bind_ok H. injection H as <-.
  pose proof (ext_frame _ _ _ Hent E) as Hs.
  apply (InvS_store _ _ Hs) in Hinv.
  rewrite <- (store_entered _ _ Hs) in Hent.
  unfold store in Hs. injection Hs as HL1 HA1 HNL1 HNA1 _ _ _ _ HT1.
  rewrite <- HL1 in Hl.
  destruct Hinv as (IL & IA & IX & IT).
  assert (Hk : k = lkey l) by (destruct IL as [IL1 _]; eauto).
  assert (Hact : Listing.isActive l = true) by (destruct (Listing.isActive l); auto).
  split; [|exact Hent]. cbn.
  rewrite (alter_some _ _ _ _ Hl).
  split; [|split; [|split]]; [| exact IA | | exact IT].
  - replace (Listing.nftContract l, Listing.tokenId l) with (key_asset k) by (rewrite Hk; reflexivity).
    eapply sale_inv_remove; eauto.
  - intros y. cbn. rewrite lookup_delete. case_decide; [left; reflexivity|apply IX].
Qed.

Lemma buyNow_InvS s v k w w' :
  entered w = true -> InvS w -> buyNow self ext s v k w = Ok w' ->
  InvS w' /\ entered w' = true.
Proof.
  intros Hent Hinv H. unfold buyNow in H.
  destruct (listings w !! k) as [l|] eqn:Hl; [|discriminate].
  split_guards H. bind_ok H. bind_ok H. bind_ok H. bind_ok H. injection H as <-.
  pose proof (ext_frame _ _ _ Hent E1) as Hs.
  apply (InvS_store _ _ Hs) in Hinv.
  rewrite <- (store_entered _ _ Hs) in Hent.
  unfold store in Hs. injection Hs as HL1 HA1 HNL1 HNA1 _ _ _ _ HT1.
  rewrite <- HL1 in Hl.
  destruct Hinv as (IL & IA & IX & IT).
  assert (Hk : k = lkey l) by (destruct IL as [IL1 _]; eauto).
  assert (Hact : Listing.isActive l = true) by (destruct (Listing.isActive l); auto).
  split; [|exact Hent]. cbn.
  rewrite (alter_some _ _ _ _ Hl).
  split; [|split; [|split]]; [| exact IA | | exact IT].
  - replace (Listing.nftContract l, Listing.tokenId l) with (key_asset k) by (rewrite Hk; reflexivity).
    eapply sale_inv_remove; eauto.
  - intros y. cbn. rewrite lookup_delete. case_decide; [left; reflexivity|apply IX].
Qed.

Lemma createAuction_InvS s nft tok sb dur w w' :
  entered w = true -> InvS w -> createAuction self ext s nft tok sb dur w = Ok w' ->
  InvS w' /\ entered w' = true.
Proof.
  intros Hent Hinv H. unfold createAuction in H.
  split_guards H.
  destruct (nftToListing w !! (nft, tok)) eqn:HL; [discriminate|].
  destruct (nftToAuction w !! (nft, tok)) eqn:HA; [discriminate|].
  bind_ok H. bind_ok H. injection H as <-.
  pose proof (ext_frame _ _ _ Hent E) as Hs.
  apply (InvS_store _ _ Hs) in Hinv.
  rewrite <- (store_entered _ _ Hs) in Hent.
  unfold store in Hs. injection Hs as HL1 HA1 HNL1 HNA1 _ _ _ _ HT1.
  rewrite <- HNL1 in HL. rewrite <- HNA1 in HA.
  unfold add256 in E0. split_guards E0. injection E0 as <-.
  apply orb_false_iff in G0 as [Gmin _]. apply N.ltb_ge in Gmin.
  unfold MIN_AUCTION_DURATION in Gmin.
  destruct Hinv as (IL & IA & IX & IT).
  split; [|exact Hent]. cbn.
  split; [|split; [|split]]; [exact IL | | | ].
  - apply (sale_inv_insert_new akey Auction.isActive); auto.
  - intros y. cbn. destruct (decide (y = (nft, tok))) as [->|Hne].
    + left. exact HL.
    + rewrite lookup_insert_ne by congruence. apply IX.
  - apply map_Forall_insert_2; [|exact IT].
    unfold auction_ok; cbn. repeat split; try lia; discriminate.
Qed.

Lemma placeBid_InvS s v k w w' :
  s <> 0 -> InvS w -> placeBid s v k w = Ok w' -> InvS w' /\ entered w' = entered w.
Proof.
  intros Hs Hinv H. unfold placeBid in H.
  destruct (auctions w !! k) as [a|] eqn:Ha; [|discriminate].
  destruct (negb (Auction.isActive a)) eqn:Gact; [discriminate|].
  destruct (Auction.endTime a <=? timestamp w) eqn:Gend; [discriminate|].
  destruct (v <=? Auction.highestBid a) eqn:Glow; [discriminate|].
  destruct (if Auction.highestBidder a =? 0 then _ else _) as [pr|] eqn:Epr; [|discriminate].
  simpl in H.
  destruct (if Auction.endTime a - timestamp w <? AUCTION_EXTENSION_TIME then _ else _)
    as [et|] eqn:Eet; [|discriminate].
  simpl in H. injection H as <-.
  destruct Hinv as (IL & IA & IX & IT).
  assert (Hact : Auction.isActive a = true) by (destruct (Auction.isActive a); auto).
  apply N.leb_gt in Gend.
  assert (Het : Auction.endTime a <= et).
  { destruct (Auction.endTime a - timestamp w <? AUCTION_EXTENSION_TIME) eqn:Ge.
    - unfold add256 in Eet. split_guards Eet. injection Eet as <-.
      apply N.ltb_lt in Ge. unfold AUCTION_EXTENSION_TIME in *. lia.
    - injection Eet as <-. lia. }
  split; [|reflexivity]. cbn.
  split; [|split; [|split]]; [exact IL | | exact IX | ].
  - eapply sale_inv_update; eauto; reflexivity.
  - apply map_Forall_insert_2; [|exact IT].
    pose proof (map_Forall_lookup_1 _ _ _ _ IT Ha) as (A1 & A2 & A3 & A4 & A5).
    unfold auction_ok; cbn. repeat split; try assumption; try lia;
      try (intros Hz; congruence); try (intros Hf; rewrite Hf in A2; cbn in A2; congruence).
Qed.

Lemma endAuction_InvS k w w' :
  entered w = true -> InvS w -> endAuction self ext k w = Ok w' ->
  InvS w' /\ entered w' = true.
Proof.
  intros Hent Hinv H. unfold endAuction in H.
  destruct (auctions w !! k) as [a|] eqn:Ha; [|discriminate].
  split_guards H.
  - bind_ok H. bind_ok H. bind_ok H. bind_ok H. injection H as <-.
    pose proof (fun He => ext_frame _ _ _ He E1) as Hs. specialize (Hs Hent).
    cbn in Hs. unfold store in Hs. cbn in Hs. injection Hs as HL1 HA1 HNL1 HNA1 _ _ _ Hent1 HT1.
    destruct Hinv as (IL & IA & IX & IT).
    assert (Hk : k = akey a) by (destruct IA as [IA1 _]; eauto).
    assert (Hact : Auction.isActive a = true) by (destruct (Auction.isActive a); auto).
    apply N.ltb_ge in G0.
    split; [|cbn; rewrite Hent1; exact Hent]. unfold InvS; cbn. rewrite HL1, HA1, HNL1, HNA1, HT1.
    split; [|split; [|split]]; [exact IL | | | ].
    + replace (Auction.nftContract a, Auction.tokenId a) with (key_asset k) by (rewrite Hk; reflexivity).
      eapply sale_inv_remove; eauto.
    + intros y. rewrite lookup_delete. case_decide; [right; reflexivity|apply IX].
    + apply map_Forall_insert_2; [|exact IT].
      pose proof (map_Forall_lookup_1 _ _ _ _ IT Ha) as (A1 & A2 & A3 & A4 & A5).
      unfold auction_ok; cbn. repeat split; auto.
  - bind_ok H. injection H as <-.
    pose proof (fun He => ext_frame _ _ _ He E) as Hs. specialize (Hs Hent).
    cbn in Hs. unfold store in Hs. cbn in Hs. injection Hs as HL1 HA1 HNL1 HNA1 _ _ _ Hent1 HT1.
    destruct Hinv as (IL & IA & IX & IT).
    assert (Hk : k = akey a) by (destruct IA as [IA1 _]; eauto).
    assert (Hact : Auction.isActive a = true) by (destruct (Auction.isActive a); auto).
    apply N.ltb_ge in G0.
    split; [|cbn; rewrite Hent1; exact Hent]. unfold InvS; cbn. rewrite HL1, HA1, HNL1, HNA1, HT1.
    split; [|split; [|split]]; [exact IL | | | ].
    + replace (Auction.nftContract a, Auction.tokenId a) with (key_asset k) by (rewrite Hk; reflexivity).
      eapply sale_inv_remove; eauto.
    + intros y. rewrite lookup_delete. case_decide; [right; reflexivity|apply IX].
    + apply map_Forall_insert_2; [|exact IT].
      pose proof (map_Forall_lookup_1 _ _ _ _ IT Ha) as (A1 & A2 & A3 & A4 & A5).
      unfold auction_ok; cbn. repeat split; auto.
Qed.

Lemma withdrawProceeds_InvS s w w' :
  entered w = true -> InvS w -> withdrawProceeds ext s w = Ok w' ->
  InvS w' /\ entered w' = true.
Proof.
  intros Hent Hinv H. unfold withdrawProceeds in H. split_guards H.
  destruct (ext _ _) as [w2|] eqn:E; [|discriminate]. injection H as <-.
  pose proof (fun He => ext_frame _ _ _ He E) as Hs. specialize (Hs Hent).
  split.
  - exact (InvS_store _ _ Hs Hinv).
  - cbn. rewrite (store_entered _ _ Hs). exact Hent.
Qed.

End Bodies.

(** ** The registry invariant holds between transactions *)

Ltac guarded_case L Hx Hinv H :=
  repeat match type of H with
  | context [if ?b then _ else _] => destruct b; try discriminate H
  end;
  match type of H with
  | context [match ?m with Ok _ => _ | Err _ => _ end] =>
      let E := fresh "E" in destruct m eqn:E; [|discriminate H]; injection H as <-;
      split; [reflexivity|];
      eapply L in E; [exact (proj1 E)|..]; first [exact Hx | reflexivity | exact Hinv | discriminate]
  end.

Lemma run_Inv self hook n : forall w r w', Inv w -> run self hook n w r = Ok w' -> Inv w'.
Proof.
  induction n as [|n IH]; intros w r w' [Hent Hinv] H; simpl in H; [discriminate|].
  assert (Hx : forall c x y, entered x = true ->
            external hook (run self hook n) c x = Ok y -> store y = store x)
    by (intros c x y Hx1 Hx2; exact (proj1 (external_frame self hook n c x y Hx1 Hx2))).
  destruct r as [s o v]. unfold step in H. cbn [op sender value] in H.
  destruct o; modifiers;
  cbn -[listItem cancelListing buyNow createAuction placeBid endAuction withdrawProceeds
        setMarketplaceFee pause unpause withdrawFees transferOwnership renounceOwnership] in H.
  - guarded_case listItem_InvS Hx Hinv H.
  - guarded_case cancelListing_InvS Hx Hinv H.
  - guarded_case buyNow_InvS Hx Hinv H.
  - guarded_case createAuction_InvS Hx Hinv H.
  - guarded_case placeBid_InvS Hx Hinv H.
  - guarded_case endAuction_InvS Hx Hinv H.
  - guarded_case withdrawProceeds_InvS Hx Hinv H.
  - destruct (v =? 0); [|discriminate]. destruct (owner w =? N.pos s); [|discriminate].
    unfold setMarketplaceFee in H. destruct (_ <? _); inversion H; subst; split; assumption.
  - destruct (v =? 0); [|discriminate]. destruct (owner w =? N.pos s); [|discriminate].
    unfold pause in H. destruct (paused w); inversion H; subst; split; assumption.
  - destruct (v =? 0); [|discriminate]. destruct (owner w =? N.pos s); [|discriminate].
    unfold unpause in H. destruct (negb (paused w)); inversion H; subst; split; assumption.
  - destruct (v =? 0); [|discriminate]. destruct (owner w =? N.pos s); [|discriminate].
    unfold withdrawFees, external in H.
    destruct (balance w <=? balance w); [|discriminate].
    destruct (nested _ _ _ _) as [w1|] eqn:E; inversion H; subst w1.
    eapply (nested_preserve Inv); [| |exact E].
    + intros x r y Hxi Hr. exact (IH x r y Hxi Hr).
    + split; assumption.
  - destruct (v =? 0); [|discriminate]. destruct (owner w =? N.pos s); [|discriminate].
    unfold transferOwnership in H. destruct (_ =? 0); inversion H; subst; split; assumption.
  - destruct (v =? 0); [|discriminate]. destruct (owner w =? N.pos s); [|discriminate].
    unfold renounceOwnership in H. inversion H; subst; split; assumption.
Qed.

Lemma sale_inv_empty {T} (tkey : T -> Key) tactive : sale_inv tkey tactive ∅ ∅.
Proof.
  split; [|split]; intros ?? Hl; rewrite lookup_empty in Hl; discriminate.
Qed.

Lemma deploy_Inv d fee t nfts w : deploy d fee t nfts = Ok w -> Inv w.
Proof.
  unfold deploy. destruct (_ <? _); [discriminate|]. intros [= <-].
  split; [reflexivity|]. split; [|split; [|split]]; cbn.
  - apply sale_inv_empty.
  - apply sale_inv_empty.
  - intros x. left. apply lookup_empty.
  - apply map_Forall_empty.
Qed.

Lemma reachable_Inv self hook w : reachable self hook w -> Inv w.
Proof.
  induction 1 as [d fee t nfts w Hd|w n r w' _ IH Hr|w t _ IH Ht|w m _ IH].
  - eapply deploy_Inv; eauto.
  - eapply run_Inv; eauto.
  - destruct IH as (He & IL & IA & IX & IT). split; [exact He|].
    split; [exact IL|split; [exact IA|split; [exact IX|]]].
    cbn. eapply map_Forall_impl; [exact IT|]. intros k a. apply auction_ok_later. exact Ht.
  - exact IH.
Qed.

Lemma reachable_nwf_Inv self hook w : reachable_nwf self hook w -> Inv w.
Proof.
  induction 1 as [d fee t nfts w Hd|w n r w' _ IH _ Hr|w t _ IH Ht|w m _ IH|w a _ IH].
  - eapply deploy_Inv; eauto.
  - eapply run_Inv; eauto.
  - destruct IH as (He & IL & IA & IX & IT). split; [exact He|].
    split; [exact IL|split; [exact IA|split; [exact IX|]]].
    cbn. eapply map_Forall_impl; [exact IT|]. intros k a. apply auction_ok_later. exact Ht.
  - exact IH.
  - exact IH.
Qed.

(** ** Value accounting *)

Lemma fees_taken_app l1 l2 : fees_taken (l1 ++ l2) = fees_taken l1 + fees_taken l2.
Proof. induction l1 as [|e l IH]; [reflexivity|]. unfold fees_taken in *. cbn. lia. Qed.

Lemma msum_insert {K} `{Countable K} {A} (g : A -> N) (m : gmap K A) k x :
  msum g (<[k:=x]> m) + (match m !! k with Some y => g y | None => 0 end) = msum g m + g x.
Proof.
  unfold msum. rewrite <- insert_delete_eq.
  rewrite map_fold_insert_L; [| intros; cbv beta; lia | apply lookup_delete_eq].
  destruct (m !! k) as [y|] eqn:Hk.
  - rewrite (map_fold_delete_L _ _ k y m); [lia | intros; cbv beta; lia | exact Hk].
  - rewrite (delete_id m k) by exact Hk. lia.
Qed.

Lemma add256_ok a b c : add256 a b = Ok c -> c = a + b.
Proof. unfold add256. destruct (_ <=? _); congruence. Qed.

Lemma sub256_ok a b c : sub256 a b = Ok c -> c = a - b /\ b <= a.
Proof. unfold sub256. destruct (b <=? a) eqn:E; [|discriminate]. apply N.leb_le in E. split; congruence. Qed.

Lemma nested_preserve_Forall (P : World -> Prop) (Q : Req -> Prop) rn p calls w w' :
  (forall x r y, Q r -> P x -> rn x r = Ok y -> P y) ->
  Forall Q calls -> P w -> nested rn p calls w = Ok w' -> P w'.
Proof.
  intros Hstep HQ. revert w. induction HQ as [|r rs Hr _ IH]; simpl; intros w Hw H.
  - congruence.
  - destruct (rn w r) eqn:E.
    + eapply IH; [|exact H]. eauto.
    + destruct p; [discriminate|]. eauto.
Qed.

Lemma emit_fees e w : fees_taken (events (emit e w)) = fees_taken (events w) + fee_of e.
Proof. cbn. rewrite fees_taken_app. cbn. lia. Qed.

(** Under the lock, a call other than [withdrawFees] moves no value. *)
Lemma run_locked_acc self hook n w r w' :
  entered w = true -> op r <> WithdrawFees -> run self hook n w r = Ok w' ->
  balance w' = balance w /\ fees_taken (events w') = fees_taken (events w).
Proof.
  intros Hent Hop H. destruct n as [|n]; simpl in H; [discriminate|].
  destruct (lock_guarded (op r)) eqn:G.
  { destruct (guarded_locked_fail self (external hook (run self hook n)) w r Hent G) as [e He].
    congruence. }
  destruct r as [s o v]. unfold step in H; simpl in G, H, Hop.
  destruct o; try discriminate G; modifiers;
  destruct (v =? 0); try discriminate; destruct (owner w =? N.pos s); try discriminate.
  - unfold setMarketplaceFee in H. destruct (_ <? _); inversion H; subst.
    rewrite emit_fees. split; [reflexivity|]. cbn [fee_of]. rewrite N.add_0_r. reflexivity.
  - unfold pause in H. destruct (paused w); inversion H; subst.
    rewrite emit_fees. split; [reflexivity|]. cbn [fee_of]. rewrite N.add_0_r. reflexivity.
  - unfold unpause in H. destruct (negb (paused w)); inversion H; subst.
    rewrite emit_fees. split; [reflexivity|]. cbn [fee_of]. rewrite N.add_0_r. reflexivity.
  - congruence.
  - unfold transferOwnership in H. destruct (_ =? 0); inversion H; subst.
    rewrite emit_fees. split; [reflexivity|]. cbn [fee_of]. rewrite N.add_0_r. reflexivity.
  - unfold renounceOwnership in H. inversion H; subst.
    rewrite emit_fees. split; [reflexivity|]. cbn [fee_of]. rewrite N.add_0_r. reflexivity.
Qed.

(** An external call made under the lock takes out exactly what it sends. *)
Lemma external_acc self hook n c x y :
  hook_nwf hook -> entered x = true -> external hook (run self hook n) c x = Ok y ->
  store y = store x /\ fees_taken (events y) = fees_taken (events x) /\
  balance y + paid_out c = balance x.
Proof.
  intros Hh Hent H. split; [exact (proj1 (external_frame self hook n c x y Hent H))|].
  assert (Hnest : forall w1 p calls, entered w1 = true ->
            Forall (fun r => op r <> WithdrawFees) calls ->
            nested (run self hook n) p calls w1 = Ok y ->
            fees_taken (events y) = fees_taken (events w1) /\ balance y = balance w1).
  { intros w1 p calls He1 HF Hn.
    cut (entered y = true /\ balance y = balance w1 /\ fees_taken (events y) = fees_taken (events w1));
      [intros (_ & ? & ?); split; assumption|].
    eapply (nested_preserve_Forall
              (fun z => entered z = true /\ balance z = balance w1 /\
                        fees_taken (events z) = fees_taken (events w1))); [| exact HF | | exact Hn].
    - intros z r z' Hop (Hz1 & Hz2 & Hz3) Hr.
      destruct (run_locked_frame self hook n z r z' Hz1 Hr) as [Hs _].
      destruct (run_locked_acc self hook n z r z' Hz1 Hop Hr) as [Hb Hf].
      split; [rewrite (store_entered _ _ Hs); exact Hz1|]. split; congruence.
    - split; [exact He1|split; reflexivity]. }
  destruct c as [nft tok from to|to amount]; simpl in H |- *.
  - case_decide; [|discriminate].
    apply Hnest in H; [|exact Hent|apply Hh]. destruct H as [Hf Hb]. cbn in Hf, Hb. split; [exact Hf|lia].
  - destruct (amount <=? balance x) eqn:Ha; [|discriminate]. apply N.leb_le in Ha.
    apply Hnest in H; [|exact Hent|apply Hh]. destruct H as [Hf Hb]. cbn in Hf, Hb. split; [exact Hf|lia].
Qed.

Tactic Notation "wsimp" "in" "*" :=
  cbn [balance proceeds auctions events listings nftToListing nftToAuction activeListings
       activeAuctions entered timestamp nftOwners sent owner paused marketplaceFeePercentage
       set_listings set_auctions set_nftToListing set_nftToAuction set_proceeds
       set_activeListings set_activeAuctions set_entered set_balance set_sent set_events
       set_marketplaceFeePercentage set_paused set_owner set_timestamp set_nftOwners
       emit fee_of paid_out] in *.
Ltac wsimp := wsimp in *.

Section Acc.

Variable self : N.
Variable ext : ExtCall -> World -> Res World.
Hypothesis ext_acc : forall c x y, entered x = true -> ext c x = Ok y ->
  store y = store x /\ fees_taken (events y) = fees_taken (events x) /\
  balance y + paid_out c = balance x.

Ltac ext_facts E Hent :=
  let Hs := fresh "Hs" in
  pose proof (fun He => ext_acc _ _ _ He E) as Hs; specialize (Hs Hent);
  destruct Hs as (Hs & Hf & Hb); unfold store in Hs;
  injection Hs as HL1 HA1 HNL1 HNA1 HP1 HAL1 HAA1 HE1 HT1; wsimp; cbn [paid_out] in Hb.

Lemma listItem_acc s nft tok price w w' :
  entered w = true -> listItem self ext s nft tok price w = Ok w' ->
  balance w' + total w = balance w + total w'.
Proof.
  intros Hent H. unfold listItem in H. split_guards H.
  destruct (nftToListing w !! (nft, tok)); [discriminate|].
  destruct (nftToAuction w !! (nft, tok)); [discriminate|].
  bind_ok H. injection H as <-. ext_facts E Hent.
  unfold total, escrow, held. rewrite emit_fees. wsimp. rewrite HP1, HA1. lia.
Qed.

Lemma cancelListing_acc s k w w' :
  entered w = true -> cancelListing self ext s k w = Ok w' ->
  balance w' + total w = balance w + total w'.
Proof.
  intros Hent H. unfold cancelListing in H.
  destruct (listings w !! k) as [l|]; [|discriminate]. split_guards H.
  bind_ok H. injection H as <-. ext_facts E Hent.
  unfold total, escrow, held. rewrite emit_fees. wsimp. rewrite HP1, HA1. lia.
Qed.

Lemma buyNow_acc s v k w w' :
  entered w = true -> buyNow self ext s v k w = Ok w' ->
  balance w' + total w + v = balance w + total w'.
Proof.
  intros Hent H. unfold buyNow in H.
  destruct (listings w !! k) as [l|]; [|discriminate]. split_guards H.
  apply negb_false_iff, N.eqb_eq in G0.
  bind_ok H. bind_ok H. bind_ok H. bind_ok H. injection H as <-. ext_facts E1 Hent.
  apply sub256_ok in E0 as [-> Hle]. apply add256_ok in E2. unfold proceeds_of in E2. cbn in E2.
  pose proof (msum_insert (fun x => x) (proceeds x1) (Listing.seller l) x2) as Hm.
  unfold total, escrow, held. rewrite emit_fees. wsimp. rewrite HA1.
  rewrite HP1 in Hm, E2 |- *.
  destruct (proceeds w !! Listing.seller l); cbn in E2; lia.
Qed.

Lemma createAuction_acc s nft tok sb dur w w' :
  entered w = true -> InvS w -> createAuction self ext s nft tok sb dur w = Ok w' ->
  balance w' + total w = balance w + total w'.
Proof.
  intros Hent Hinv H. unfold createAuction in H. split_guards H.
  destruct (nftToListing w !! (nft, tok)); [discriminate|].
  destruct (nftToAuction w !! (nft, tok)) eqn:HA; [discriminate|].
  bind_ok H. bind_ok H. injection H as <-. ext_facts E Hent.
  set (key := sale_key nft tok s (timestamp x)).
  pose proof (msum_insert held_bid (auctions x) key
    (Auction.mk key nft tok s sb 0 0 x0 true false (timestamp x))) as Hm.
  assert (Hold : match auctions x !! key with Some y => held_bid y | None => 0 end = 0).
  { rewrite HA1. destruct (auctions w !! key) as [a0|] eqn:Ha0; [|reflexivity].
    unfold held_bid. destruct (Auction.isActive a0) eqn:Hact; [|reflexivity].
    destruct Hinv as (_ & (_ & IA2 & _) & _).
    specialize (IA2 _ _ Ha0 Hact). unfold key, key_asset, sale_key in IA2. simpl in IA2. congruence. }
  rewrite Hold in Hm. cbn [held_bid Auction.isActive Auction.highestBid] in Hm.
  unfold total, escrow, held. rewrite emit_fees. wsimp. rewrite HP1.
  rewrite HA1 in Hm |- *. lia.
Qed.

Lemma placeBid_acc s v k w w' :
  InvS w -> placeBid s v k w = Ok w' ->
  balance w' + total w + v = balance w + total w'.
Proof.
  intros Hinv H. unfold placeBid in H.
  destruct (auctions w !! k) as [a|] eqn:Ha; [|discriminate].
  destruct (negb (Auction.isActive a)) eqn:Gact; [discriminate|].
  destruct (Auction.endTime a <=? timestamp w) eqn:Gend; [discriminate|].
  destruct (v <=? Auction.highestBid a) eqn:Glow; [discriminate|].
  destruct (if Auction.highestBidder a =? 0 then _ else _) as [pr|] eqn:Epr; [|discriminate].
  simpl in H.
  destruct (if Auction.endTime a - timestamp w <? AUCTION_EXTENSION_TIME then _ else _)
    as [et|] eqn:Eet; [|discriminate].
  simpl in H. injection H as <-.
  assert (Hact : Auction.isActive a = true) by (destruct (Auction.isActive a); auto).
  destruct Hinv as (_ & _ & _ & IT).
  pose proof (map_Forall_lookup_1 _ _ _ _ IT Ha) as (A1 & _).
  pose proof (msum_insert held_bid (auctions w) k (Auction.bid a v s et)) as Hm.
  rewrite Ha in Hm.
  replace (held_bid a) with (Auction.highestBid a) in Hm by (unfold held_bid; rewrite Hact; reflexivity).
  replace (held_bid (Auction.bid a v s et)) with v in Hm by (unfold held_bid; cbn; rewrite Hact; reflexivity).
  unfold total, escrow, held. rewrite emit_fees. wsimp.
  destruct (Auction.highestBidder a =? 0) eqn:Gb.
  - injection Epr as <-. apply N.eqb_eq in Gb. specialize (A1 Gb). lia.
  - destruct (add256 _ _) as [np|] eqn:Enp; [|discriminate]. injection Epr as <-.
    apply add256_ok in Enp. unfold proceeds_of in Enp.
    pose proof (msum_insert (fun x => x) (proceeds w) (Auction.highestBidder a) np) as Hp.
    destruct (proceeds w !! Auction.highestBidder a); cbn in Enp; lia.
Qed.

Lemma endAuction_acc k w w' :
  entered w = true -> InvS w -> endAuction self ext k w = Ok w' ->
  balance w' + total w = balance w + total w'.
Proof.
  intros Hent Hinv H. unfold endAuction in H.
  destruct (auctions w !! k) as [a|] eqn:Ha; [|discriminate].
  assert (Hact : Auction.isActive a = true) by (destruct (Auction.isActive a); auto; discriminate).
  destruct Hinv as (_ & _ & _ & IT).
  pose proof (map_Forall_lookup_1 _ _ _ _ IT Ha) as (A1 & _).
  pose proof (msum_insert held_bid (auctions w) k (Auction.finalize a)) as Hm.
  rewrite Ha in Hm.
  replace (held_bid a) with (Auction.highestBid a) in Hm by (unfold held_bid; rewrite Hact; reflexivity).
  replace (held_bid (Auction.finalize a)) with 0 in Hm by reflexivity.
  split_guards H.
  - bind_ok H. bind_ok H. bind_ok H. bind_ok H. injection H as <-. ext_facts E1 Hent.
    apply sub256_ok in E0 as [-> Hle]. apply add256_ok in E2. unfold proceeds_of in E2. cbn in E2.
    pose proof (msum_insert (fun x => x) (proceeds x1) (Auction.seller a) x2) as Hp.
    unfold total, escrow, held. rewrite emit_fees. wsimp. rewrite HA1.
    rewrite HP1 in Hp, E2 |- *.
    destruct (proceeds w !! Auction.seller a); cbn in E2; lia.
  - bind_ok H. injection H as <-. ext_facts E Hent.
    apply negb_false_iff, N.eqb_eq in G2. specialize (A1 G2).
    unfold total, escrow, held. rewrite emit_fees. wsimp. rewrite HA1, HP1. lia.
Qed.

Lemma withdrawProceeds_acc s w w' :
  entered w = true -> withdrawProceeds ext s w = Ok w' ->
  balance w' + total w = balance w + total w'.
Proof.
  intros Hent H. unfold withdrawProceeds in H. split_guards H.
  destruct (ext _ _) as [w2|] eqn:E; [|discriminate]. injection H as <-.
  ext_facts E Hent.
  pose proof (msum_insert (fun x => x) (proceeds w) s 0) as Hp.
  unfold total, escrow, held. rewrite emit_fees. wsimp. rewrite HA1, HP1.
  unfold proceeds_of in Hb. destruct (proceeds w !! s); cbn in Hb; lia.
Qed.

End Acc.

Ltac acc_case L Hx Hinv H :=
  repeat match type of H with
  | context [if ?b then _ else _] => destruct b; try discriminate H
  end;
  match type of H with
  | context [match ?m with Ok _ => _ | Err _ => _ end] =>
      let E := fresh "E" in destruct m eqn:E; [|discriminate H]; injection H as <-;
      eapply L in E; [|first [exact Hx | reflexivity | exact Hinv | discriminate]..]
  end;
  unfold conserved, total, escrow, held in *; wsimp; lia.

Ltac admin_acc H :=
  inversion H; subst; unfold conserved, total, escrow, held in *;
  rewrite emit_fees; wsimp; lia.

(** One transaction other than [withdrawFees] keeps the books balanced. *)
Lemma run_conserved self hook n d w r w' :
  hook_nwf hook -> Inv w -> conserved d w -> op r <> WithdrawFees ->
  run self hook n w r = Ok w' -> conserved d w'.
Proof.
  intros Hh [Hent Hinv] Hc Hop H. destruct n as [|n]; simpl in H; [discriminate|].
  assert (Hx : forall c x y, entered x = true -> external hook (run self hook n) c x = Ok y ->
            store y = store x /\ fees_taken (events y) = fees_taken (events x) /\
            balance y + paid_out c = balance x)
    by (intros c x y Hx1 Hx2; exact (external_acc self hook n c x y Hh Hx1 Hx2)).
  destruct r as [s o v]. unfold step in H. cbn [op sender value] in H, Hop.
  destruct o; modifiers;
  cbn -[listItem cancelListing buyNow createAuction placeBid endAuction withdrawProceeds
        setMarketplaceFee pause unpause withdrawFees transferOwnership renounceOwnership] in H.
  - acc_case listItem_acc Hx Hinv H.
  - acc_case cancelListing_acc Hx Hinv H.
  - acc_case buyNow_acc Hx Hinv H.
  - acc_case createAuction_acc Hx Hinv H.
  - acc_case placeBid_acc Hx Hinv H.
  - acc_case endAuction_acc Hx Hinv H.
  - acc_case withdrawProceeds_acc Hx Hinv H.
  - destruct (v =? 0); [|discriminate]. destruct (owner w =? N.pos s); [|discriminate].
    unfold setMarketplaceFee in H. destruct (_ <? _); [discriminate|]. admin_acc H.
  - destruct (v =? 0); [|discriminate]. destruct (owner w =? N.pos s); [|discriminate].
    unfold pause in H. destruct (paused w); [discriminate|]. admin_acc H.
  - destruct (v =? 0); [|discriminate]. destruct (owner w =? N.pos s); [|discriminate].
    unfold unpause in H. destruct (negb (paused w)); [discriminate|]. admin_acc H.
  - congruence.
  - destruct (v =? 0); [|discriminate]. destruct (owner w =? N.pos s); [|discriminate].
    unfold transferOwnership in H. destruct (_ =? 0); [discriminate|]. admin_acc H.
  - destruct (v =? 0); [|discriminate]. destruct (owner w =? N.pos s); [|discriminate].
    unfold renounceOwnership in H. admin_acc H.
Qed.

Lemma deploy_conserved d fee t nfts w : deploy d fee t nfts = Ok w -> conserved 0 w.
Proof.
  unfold deploy. destruct (_ <? _); [discriminate|]. intros [= <-]. reflexivity.
Qed.

(** ** Effects of single calls *)

Lemma mul256_ok a b c : mul256 a b = Ok c -> c = a * b.
Proof. unfold mul256. destruct (_ <=? _); congruence. Qed.

Lemma nonpayable_ok v k w w' : nonpayable v k w = Ok w' -> v = 0 /\ k w = Ok w'.
Proof. unfold nonpayable. destruct (v =? 0) eqn:E; [|discriminate]. apply N.eqb_eq in E. auto. Qed.

Lemma payable_ok v k w w' : payable v k w = Ok w' -> k (set_balance (balance w + v) w) = Ok w'.
Proof. unfold payable. auto. Qed.

Lemma whenNotPaused_ok k w w' : whenNotPaused k w = Ok w' -> paused w = false /\ k w = Ok w'.
Proof. unfold whenNotPaused. destruct (paused w); [discriminate|auto]. Qed.

Lemma nonReentrant_ok k w w' : nonReentrant k w = Ok w' ->
  entered w = false /\ exists w'', k (set_entered true w) = Ok w'' /\ w' = set_entered false w''.
Proof.
  unfold nonReentrant. intros H. destruct (entered w); [discriminate|]. split; [reflexivity|].
  destruct (k _) as [w''|]; [|discriminate]. injection H as <-. eauto.
Qed.

Lemma onlyOwner_ok s k w w' : onlyOwner s k w = Ok w' -> owner w = s /\ k w = Ok w'.
Proof. unfold onlyOwner. destruct (owner w =? s) eqn:E; [|discriminate]. apply N.eqb_eq in E. auto. Qed.

Ltac open_guarded H :=
  unfold step in H; cbn [op value sender] in H;
  first [ apply nonpayable_ok in H as [?Hv H] | apply payable_ok in H ];
  apply whenNotPaused_ok in H as [?Hp H];
  apply nonReentrant_ok in H as (?He & ?w & H & ->).

Section Effects.

Variable self : N.
Variable ext : ExtCall -> World -> Res World.
Hypothesis ext_frame : forall c x y, entered x = true -> ext c x = Ok y -> store y = store x.

Lemma endAuction_effect k w w' :
  entered w = true -> endAuction self ext k w = Ok w' ->
  exists a, auctions w !! k = Some a /\ Auction.isActive a = true /\
    Auction.isFinalized a = false /\
    auctions w' = <[k := Auction.finalize a]> (auctions w).
Proof.
  intros Hent H. unfold endAuction in H.
  destruct (auctions w !! k) as [a|] eqn:Ha; [|discriminate].
  exists a. split; [reflexivity|].
  assert (Hact : Auction.isActive a = true) by (destruct (Auction.isActive a); auto; discriminate).
  split; [exact Hact|].
  split_guards H; (split; [reflexivity|]).
  - bind_ok H. bind_ok H. bind_ok H. bind_ok H. injection H as <-.
    pose proof (fun He => ext_frame _ _ _ He E1) as Hs. specialize (Hs Hent).
    unfold store in Hs. injection Hs as _ HA1 _. wsimp. exact HA1.
  - bind_ok H. injection H as <-.
    pose proof (fun He => ext_frame _ _ _ He E) as Hs. specialize (Hs Hent).
    unfold store in Hs. injection Hs as _ HA1 _. wsimp. exact HA1.
Qed.

Lemma buyNow_effect s v k l w w' :
  entered w = true -> listings w !! k = Some l -> buyNow self ext s v k w = Ok w' ->
  v = Listing.price l /\
  (exists w1, ext (NftTransfer (Listing.nftContract l) (Listing.tokenId l) self s) w = Ok w1 /\
              nftOwners w' = nftOwners w1) /\
  proceeds_of w' (Listing.seller l) = proceeds_of w (Listing.seller l) +
    (Listing.price l - Listing.price l * marketplaceFeePercentage w / 10000) /\
  last (events w') = Some (ItemBought k s (Listing.price l)
    (Listing.price l * marketplaceFeePercentage w / 10000)).
Proof.
  intros Hent Hl H. unfold buyNow in H. rewrite Hl in H. split_guards H.
  apply negb_false_iff, N.eqb_eq in G0.
  bind_ok H. bind_ok H. bind_ok H. bind_ok H. injection H as <-.
  apply mul256_ok in E. apply sub256_ok in E0 as [-> _]. subst x.
  pose proof (fun He => ext_frame _ _ _ He E1) as Hs. specialize (Hs Hent).
  unfold store in Hs. injection Hs as _ _ _ _ HP1 _.
  apply add256_ok in E2.
  split; [exact G0|]. split; [eexists; split; reflexivity|]. split.
  - unfold proceeds_of in *. wsimp. rewrite lookup_insert_eq. cbn. rewrite E2, HP1. reflexivity.
  - wsimp. apply last_snoc.
Qed.

Lemma placeBid_effect s v k a w w' :
  auctions w !! k = Some a -> placeBid s v k w = Ok w' ->
  Auction.highestBid a < v /\ Auction.isActive a = true /\ timestamp w < Auction.endTime a /\
  (exists et, auctions w' = <[k := Auction.bid a v s et]> (auctions w)) /\
  proceeds w' = (if Auction.highestBidder a =? 0 then proceeds w
                 else <[Auction.highestBidder a :=
                          proceeds_of w (Auction.highestBidder a) + Auction.highestBid a]> (proceeds w)) /\
  sent w' = sent w /\ balance w' = balance w /\ entered w' = entered w /\
  timestamp w' = timestamp w.
Proof.
  intros Ha H. unfold placeBid in H. rewrite Ha in H.
  destruct (negb (Auction.isActive a)) eqn:Gact; [discriminate|].
  destruct (Auction.endTime a <=? timestamp w) eqn:Gend; [discriminate|].
  destruct (v <=? Auction.highestBid a) eqn:Glow; [discriminate|].
  destruct (if Auction.highestBidder a =? 0 then _ else _) as [pr|] eqn:Epr; [|discriminate].
  simpl in H.
  destruct (if Auction.endTime a - timestamp w <? AUCTION_EXTENSION_TIME then _ else _)
    as [et|] eqn:Eet; [|discriminate].
  simpl in H. injection H as <-.
  apply N.leb_gt in Gend, Glow.
  split; [exact Glow|]. split; [destruct (Auction.isActive a); auto|]. split; [exact Gend|].
  split; [exists et; reflexivity|]. wsimp.
  split; [|auto].
  destruct (Auction.highestBidder a =? 0).
  - congruence.
  - destruct (add256 _ _) as [np|] eqn:Enp; [|discriminate]. injection Epr as <-.
    apply add256_ok in Enp. rewrite Enp. reflexivity.
Qed.

End Effects.

Lemma external_store self hook n c x y :
  entered x = true -> external hook (run self hook n) c x = Ok y -> store y = store x.
Proof. intros H1 H2. exact (proj1 (external_frame self hook n c x y H1 H2)). Qed.

Ltac cbn_step :=
  cbn -[listItem cancelListing buyNow createAuction placeBid endAuction withdrawProceeds
        setMarketplaceFee pause unpause withdrawFees transferOwnership renounceOwnership].

(** A first bid on an auction without bids only has to beat 0. *)
Lemma placeBid_first s v k a w :
  auctions w !! k = Some a -> Auction.isActive a = true -> timestamp w < Auction.endTime a ->
  Auction.highestBid a < v -> Auction.highestBidder a = 0 ->
  timestamp w + AUCTION_EXTENSION_TIME <= UINT256_MAX ->
  exists et, placeBid s v k w =
    Ok (emit (BidPlaced k s v) (set_auctions (<[k := Auction.bid a v s et]> (auctions w))
                                  (set_proceeds (proceeds w) w))).
Proof.
  intros Ha Hact Ht Hv Hb Hov. unfold placeBid. rewrite Ha, Hact, Hb. cbn [negb].
  replace (Auction.endTime a <=? timestamp w) with false by (symmetry; apply N.leb_gt; lia).
  replace (v <=? Auction.highestBid a) with false by (symmetry; apply N.leb_gt; lia).
  cbn [N.eqb bind].
  destruct (Auction.endTime a - timestamp w <? AUCTION_EXTENSION_TIME).
  - unfold add256. replace (timestamp w + AUCTION_EXTENSION_TIME <=? UINT256_MAX) with true
      by (symmetry; apply N.leb_le; exact Hov).
    eexists. reflexivity.
  - eexists. reflexivity.
Qed.

(** ** Calls whose callees behave alike under the lock *)

Section Congr.

Variable self : N.
Variables ext1 ext2 : ExtCall -> World -> Res World.
Hypothesis Hext : forall c x, entered x = true -> ext1 c x = ext2 c x.

Ltac congr_body :=
  unfold bind;
  repeat first [ progress (rewrite Hext by (wsimp; assumption)) | case_match ];
  reflexivity.

Lemma listItem_congr s nft tok price w : entered w = true ->
  listItem self ext1 s nft tok price w = listItem self ext2 s nft tok price w.
Proof. intros Hent. unfold listItem. congr_body. Qed.

Lemma cancelListing_congr s k w : entered w = true ->
  cancelListing self ext1 s k w = cancelListing self ext2 s k w.
Proof. intros Hent. unfold cancelListing. congr_body. Qed.

Lemma buyNow_congr s v k w : entered w = true ->
  buyNow self ext1 s v k w = buyNow self ext2 s v k w.
Proof. intros Hent. unfold buyNow. congr_body. Qed.

Lemma createAuction_congr s nft tok sb dur w : entered w = true ->
  createAuction self ext1 s nft tok sb dur w = createAuction self ext2 s nft tok sb dur w.
Proof. intros Hent. unfold createAuction. congr_body. Qed.

Lemma endAuction_congr k w : entered w = true ->
  endAuction self ext1 k w = endAuction self ext2 k w.
Proof. intros Hent. unfold endAuction. congr_body. Qed.

Lemma withdrawProceeds_congr s w : entered w = true ->
  withdrawProceeds ext1 s w = withdrawProceeds ext2 s w.
Proof. intros Hent. unfold withdrawProceeds. congr_body. Qed.

Lemma step_congr w r : op r <> WithdrawFees -> step self ext1 w r = step self ext2 w r.
Proof.
  intros Hop. destruct r as [s o v]. unfold step. cbn [op sender value] in *.
  destruct o; modifiers; cbn_step;
    rewrite ?listItem_congr, ?cancelListing_congr, ?buyNow_congr, ?createAuction_congr,
            ?endAuction_congr, ?withdrawProceeds_congr by reflexivity;
    try reflexivity; congruence.
Qed.

End Congr.

(** Callees that only call lock-guarded entry points back, and let their
    failures pass, behave as callees that do not call back at all. *)
Lemma external_guard_only self hook n c x :
  (forall c x, cb_propagates (hook c x) = false /\
               Forall (fun q => lock_guarded (op q) = true) (cb_calls (hook c x))) ->
  entered x = true ->
  external hook (run self hook n) c x = external no_hook (run self no_hook n) c x.
Proof.
  intros Hh Hent.
  assert (Hall : forall y calls, entered y = true ->
            Forall (fun q => lock_guarded (op q) = true) calls ->
            nested (run self hook n) false calls y = Ok y).
  { intros y calls Hy HF. apply nested_all_fail. eapply Forall_impl; [exact HF|].
    intros q Hq. destruct n as [|n]; [eexists; reflexivity|]. cbn [run].
    apply guarded_locked_fail; assumption. }
  destruct c as [nft tok from to|to amount]; cbn [external].
  - case_decide; [|reflexivity].
    destruct (Hh (NftTransfer nft tok from to) (set_nftOwners (<[(nft, tok):=to]> (nftOwners x)) x))
      as [Hp HF].
    rewrite Hp. cbn [no_hook cb_calls cb_propagates nested]. apply Hall; [exact Hent|exact HF].
  - destruct (amount <=? balance x); [|reflexivity].
    match goal with |- nested _ (cb_propagates (hook ?c ?y)) _ _ = _ =>
      destruct (Hh c y) as [Hp HF] end.
    rewrite Hp. cbn [no_hook cb_calls cb_propagates nested]. apply Hall; [exact Hent|exact HF].
Qed.

Lemma run_guard_only self hook n w r :
  (forall c x, cb_propagates (hook c x) = false /\
               Forall (fun q => lock_guarded (op q) = true) (cb_calls (hook c x))) ->
  op r <> WithdrawFees -> run self hook n w r = run self no_hook n w r.
Proof.
  intros Hh Hop. destruct n as [|n]; [reflexivity|]. cbn [run].
  apply step_congr; [|exact Hop]. intros c x Hx. apply external_guard_only; assumption.
Qed.

(** A guarded entry point called under the lock fails the same way whatever
    its external calls would do. *)
Lemma guarded_locked_indep self ext1 ext2 w r :
  entered w = true -> lock_guarded (op r) = true -> step self ext1 w r = step self ext2 w r.
Proof.
  intros Hent G. destruct r as [s o v]. unfold step. cbn [op sender value] in *.
  destruct o; try discriminate G; modifiers; cbn_step; rewrite Hent; reflexivity.
Qed.

(** ** Values sent out under the lock *)

Lemma run_locked_sent self hook n : forall w r w',
  entered w = true -> run self hook n w r = Ok w' -> exists rest, sent w' = sent w ++ rest.
Proof.
  induction n as [|n IH]; intros w r w' Hent H; simpl in H; [discriminate|].
  destruct (lock_guarded (op r)) eqn:G.
  { destruct (guarded_locked_fail self (external hook (run self hook n)) w r Hent G) as [e He].
    congruence. }
  destruct r as [s o v]. unfold step in H; simpl in G, H.
  destruct o; try discriminate G; modifiers;
  destruct (v =? 0); try discriminate; destruct (owner w =? N.pos s); try discriminate.
  - unfold setMarketplaceFee in H. destruct (_ <? _); inversion H; subst; exists []; wsimp; rewrite app_nil_r; reflexivity.
  - unfold pause in H. destruct (paused w); inversion H; subst; exists []; wsimp; rewrite app_nil_r; reflexivity.
  - unfold unpause in H. destruct (negb (paused w)); inversion H; subst; exists []; wsimp; rewrite app_nil_r; reflexivity.
  - unfold withdrawFees, external in H.
    destruct (balance w <=? balance w); [|discriminate].
    destruct (nested _ _ _ _) as [w1|] eqn:E; inversion H; subst w1.
    eapply (nested_preserve (fun z => entered z = true /\ exists rest, sent z = sent w ++ rest)); [| |exact E].
    + intros x q y [Hx [rest Hr]] Hq. split.
      * destruct (run_locked_frame self hook n x q y Hx Hq) as [Hs _].
        rewrite (store_entered _ _ Hs). exact Hx.
      * destruct (IH x q y Hx Hq) as [rest' Hr']. exists (rest ++ rest').
        rewrite Hr', Hr, app_assoc. reflexivity.
    + split; [exact Hent|]. eexists. reflexivity.
  - unfold transferOwnership in H. destruct (_ =? 0); inversion H; subst; exists []; wsimp; rewrite app_nil_r; reflexivity.
  - unfold renounceOwnership in H. inversion H; subst; exists []; wsimp; rewrite app_nil_r; reflexivity.
Qed.

Lemma external_send_sent self hook n to amount x y :
  entered x = true -> external hook (run self hook n) (EthSend to amount) x = Ok y ->
  amount <= balance x /\ exists rest, sent y = sent x ++ (to, amount) :: rest.
Proof.
  intros Hent H. cbn [external] in H. destruct (amount <=? balance x) eqn:Ha; [|discriminate].
  apply N.leb_le in Ha. split; [exact Ha|].
  eapply (nested_preserve (fun z => entered z = true /\ exists rest, sent z = sent x ++ (to, amount) :: rest));
    [| |exact H].
  - intros z q z' [Hz [rest Hr]] Hq. split.
    + destruct (run_locked_frame self hook n z q z' Hz Hq) as [Hs _].
      rewrite (store_entered _ _ Hs). exact Hz.
    + destruct (run_locked_sent self hook n z q z' Hz Hq) as [rest' Hr']. exists (rest ++ rest').
      rewrite Hr', Hr, <- app_assoc. reflexivity.
  - split; [exact Hent|]. exists []. wsimp. reflexivity.
Qed.

(** ** Callees that agree on the worlds they can observe *)

Section HookCongr.

Variable self : N.
Variables hook1 hook2 : ExtCall -> World -> Callback.
Variable Pw : World -> Prop.
Hypothesis HPw : forall x y, store x = store y -> Pw x -> Pw y.
Hypothesis Hh : forall c x, Pw x -> hook1 c x = hook2 c x.

Lemma external_hook_congr n :
  (forall x q, entered x = true -> Pw x -> run self hook1 n x q = run self hook2 n x q) ->
  forall c x, entered x = true -> Pw x ->
  external hook1 (run self hook1 n) c x = external hook2 (run self hook2 n) c x.
Proof.
  intros IH c x Hent HP.
  assert (Hn : forall p calls y, entered y = true -> Pw y ->
            nested (run self hook1 n) p calls y = nested (run self hook2 n) p calls y).
  { intros p calls y Hy HPy.
    apply (nested_congr (fun z => entered z = true /\ Pw z)).
    - intros z q [Hz1 Hz2]. apply IH; assumption.
    - intros z q z' [Hz1 Hz2] Hr. destruct (run_locked_frame _ _ _ _ _ _ Hz1 Hr) as [Hs _].
      split; [rewrite (store_entered _ _ Hs); exact Hz1|].
      apply (HPw z); [symmetry; exact Hs|exact Hz2].
    - split; assumption. }
  destruct c as [nft tok from to|to amount]; cbn [external].
  - case_decide; [|reflexivity].
    rewrite Hh by (apply (HPw x); [reflexivity|exact HP]).
    apply Hn; [exact Hent|]. apply (HPw x); [reflexivity|exact HP].
  - destruct (amount <=? balance x); [|reflexivity].
    rewrite Hh by (apply (HPw x); [reflexivity|exact HP]).
    apply Hn; [exact Hent|]. apply (HPw x); [reflexivity|exact HP].
Qed.

Lemma run_hook_congr n : forall x q, entered x = true -> Pw x ->
  run self hook1 n x q = run self hook2 n x q.
Proof.
  induction n as [|n IH]; intros x q Hent HP; [reflexivity|]. cbn [run].
  destruct (lock_guarded (op q)) eqn:G; [apply guarded_locked_indep; assumption|].
  destruct q as [s o v]. cbn [op] in G.
  destruct o; try discriminate G; try reflexivity.
  unfold step. cbn [op sender value]. modifiers. unfold withdrawFees.
  rewrite (external_hook_congr n IH) by assumption. reflexivity.
Qed.

End HookCongr.

(** ** Exclusivity of sales *)

Lemma store_auctions x y : store x = store y -> auctions x = auctions y.
Proof. unfold store. intros H. injection H. auto. Qed.

Lemma listing_indexed w k l :
  InvS w -> listings w !! k = Some l -> Listing.isActive l = true ->
  nftToListing w !! (Listing.nftContract l, Listing.tokenId l) = Some k.
Proof.
  intros [[L1 [L2 _]] _] H Ha.
  replace (Listing.nftContract l, Listing.tokenId l) with (key_asset k)
    by (rewrite (L1 _ _ H); reflexivity).
  exact (L2 _ _ H Ha).
Qed.

Lemma auction_indexed w k a :
  InvS w -> auctions w !! k = Some a -> Auction.isActive a = true ->
  nftToAuction w !! (Auction.nftContract a, Auction.tokenId a) = Some k.
Proof.
  intros [_ [[A1 [A2 _]] _]] H Ha.
  replace (Auction.nftContract a, Auction.tokenId a) with (key_asset k)
    by (rewrite (A1 _ _ H); reflexivity).
  exact (A2 _ _ H Ha).
Qed.

Lemma InvS_exclusive w : InvS w -> exclusive w.
Proof.
  intros HI. split; [|split].
  - intros k1 k2 l1 l2 H1 H2 A1 A2 E.
    pose proof (listing_indexed _ _ _ HI H1 A1) as I1.
    pose proof (listing_indexed _ _ _ HI H2 A2) as I2.
    rewrite E in I1. congruence.
  - intros k1 k2 a1 a2 H1 H2 A1 A2 E.
    pose proof (auction_indexed _ _ _ HI H1 A1) as I1.
    pose proof (auction_indexed _ _ _ HI H2 A2) as I2.
    rewrite E in I1. congruence.
  - intros k1 k2 l a H1 H2 A1 A2 E.
    pose proof (listing_indexed _ _ _ HI H1 A1) as I1.
    pose proof (auction_indexed _ _ _ HI H2 A2) as I2.
    destruct HI as (_ & _ & IX & _). rewrite E in I1.
    destruct (IX (Auction.nftContract a, Auction.tokenId a)); congruence.
Qed.

(** ** Highest bids are never lowered *)

Lemma bids_kept_refl A : bids_kept A A.
Proof. intros k a H. exists a. split; [exact H|lia]. Qed.

Lemma bids_kept_trans A B C : bids_kept A B -> bids_kept B C -> bids_kept A C.
Proof.
  intros H1 H2 k a Ha. destruct (H1 k a Ha) as (b & Hb & Hab).
  destruct (H2 k b Hb) as (c & Hc & Hbc). exists c. split; [exact Hc|lia].
Qed.

Lemma bids_kept_insert_new A k x : A !! k = None -> bids_kept A (<[k := x]> A).
Proof.
  intros Hn k' a Ha. exists a. split; [|lia].
  rewrite lookup_insert_ne; [exact Ha|congruence].
Qed.

Lemma bids_kept_insert_ge A k a x :
  A !! k = Some a -> Auction.highestBid a <= Auction.highestBid x -> bids_kept A (<[k := x]> A).
Proof.
  intros Ha Hle k' b Hb. destruct (decide (k = k')) as [<-|Hne].
  - exists x. rewrite lookup_insert_eq. split; [reflexivity|congruence].
  - exists b. rewrite lookup_insert_ne by exact Hne. split; [exact Hb|lia].
Qed.

(** A new auction identifier is fresh: an auction of the same token opened
    by the same seller at the same time would still be running. *)
Lemma auction_fresh w nft tok s :
  InvS w -> nftToAuction w !! (nft, tok) = None ->
  auctions w !! sale_key nft tok s (timestamp w) = None.
Proof.
  intros (IL & (IA1 & IA2 & IA3) & IX & IT) HA.
  destruct (auctions w !! _) as [a|] eqn:Ha; [|reflexivity]. exfalso.
  pose proof (IA1 _ _ Ha) as Hk.
  pose proof (map_Forall_lookup_1 _ _ _ _ IT Ha) as (A1 & A2 & A3 & A4 & A5).
  unfold akey, sale_key in Hk. injection Hk as Hn Htk Hsl Hc.
  destruct (Auction.isFinalized a) eqn:Hf.
  - specialize (A5 eq_refl). lia.
  - cbn in A2. pose proof (IA2 _ _ Ha A2) as Hi.
    unfold key_asset, sale_key in Hi. simpl in Hi. congruence.
Qed.

Lemma placeBid_bids s v k w w' :
  placeBid s v k w = Ok w' -> bids_kept (auctions w) (auctions w').
Proof.
  intros H. unfold placeBid in H.
  destruct (auctions w !! k) as [a|] eqn:Ha; [|discriminate].
  destruct (negb (Auction.isActive a)); [discriminate|].
  destruct (Auction.endTime a <=? timestamp w); [discriminate|].
  destruct (v <=? Auction.highestBid a) eqn:Glow; [discriminate|].
  destruct (if Auction.highestBidder a =? 0 then _ else _) as [pr|]; [|discriminate].
  simpl in H.
  destruct (if Auction.endTime a - timestamp w <? AUCTION_EXTENSION_TIME then _ else _)
    as [et|]; [|discriminate].
  simpl in H. injection H as <-. cbn.
  apply (bids_kept_insert_ge _ _ a); [exact Ha|]. cbn. apply N.leb_gt in Glow. lia.
Qed.

Section Bids.
Variable self : N.
Variable ext : ExtCall -> World -> Res World.
Hypothesis ext_frame : forall c x y, entered x = true -> ext c x = Ok y -> store y = store x.

Lemma listItem_bids s nft tok price w w' :
  entered w = true -> listItem self ext s nft tok price w = Ok w' ->
  bids_kept (auctions w) (auctions w').
Proof.
  intros Hent H. unfold listItem in H.
  destruct (price =? 0); [discriminate|].
  destruct (nftToListing w !! (nft, tok)); [discriminate|].
  destruct (nftToAuction w !! (nft, tok)); [discriminate|].
  destruct (ext _ w) as [w1|] eqn:E; [|discriminate]. simpl in H. injection H as <-.
  cbn. rewrite (store_auctions _ _ (ext_frame _ _ _ Hent E)). apply bids_kept_refl.
Qed.

Lemma cancelListing_bids s k w w' :
  entered w = true -> cancelListing self ext s k w = Ok w' ->
  bids_kept (auctions w) (auctions w').
Proof.
  intros Hent H. unfold cancelListing in H.
  destruct (listings w !! k) as [l|]; [|discriminate].
  split_guards H. bind_ok H. injection H as <-.
  cbn. rewrite (store_auctions _ _ (ext_frame _ _ _ Hent E)). apply bids_kept_refl.
Qed.

Lemma buyNow_bids s v k w w' :
  entered w = true -> buyNow self ext s v k w = Ok w' ->
  bids_kept (auctions w) (auctions w').
Proof.
  intros Hent H. unfold buyNow in H.
  destruct (listings w !! k) as [l|]; [|discriminate].
  split_guards H. bind_ok H. bind_ok H. bind_ok H. bind_ok H. injection H as <-.
  cbn. rewrite (store_auctions _ _ (ext_frame _ _ _ Hent E1)). apply bids_kept_refl.
Qed.

Lemma createAuction_bids s nft tok sb dur w w' :
  entered w = true -> InvS w -> createAuction self ext s nft tok sb dur w = Ok w' ->
  bids_kept (auctions w) (auctions w').
Proof.
  intros Hent Hinv H. unfold createAuction in H.
  split_guards H.
  destruct (nftToListing w !! (nft, tok)); [discriminate|].
  destruct (nftToAuction w !! (nft, tok)) eqn:HA; [discriminate|].
  bind_ok H. bind_ok H. injection H as <-.
  pose proof (ext_frame _ _ _ Hent E) as Hs.
  unfold store in Hs. injection Hs as HL1 HA1 HNL1 HNA1 _ _ _ _ HT1.
  cbn. rewrite HA1, HT1. apply bids_kept_insert_new. apply auction_fresh; assumption.
Qed.

Lemma endAuction_bids k w w' :
  entered w = true -> endAuction self ext k w = Ok w' ->
  bids_kept (auctions w) (auctions w').
Proof.
  intros Hent H.
  destruct (endAuction_effect self ext ext_frame k w w' Hent H) as (a & Ha & _ & _ & ->).
  apply (bids_kept_insert_ge _ _ a); [exact Ha|]. cbn. lia.
Qed.

Lemma withdrawProceeds_bids s w w' :
  entered w = true -> withdrawProceeds ext s w = Ok w' ->
  bids_kept (auctions w) (auctions w').
Proof.
  intros Hent H. unfold withdrawProceeds in H. split_guards H.
  destruct (ext _ _) as [w2|] eqn:E; [|discriminate]. injection H as <-.
  pose proof (fun He => ext_frame _ _ _ He E) as Hs. specialize (Hs Hent).
  apply store_auctions in Hs. cbn in *. rewrite Hs. apply bids_kept_refl.
Qed.

End Bids.

Ltac bids_case L Hx Hinv H :=
  repeat match type of H with
  | context [if ?b then _ else _] => destruct b; try discriminate H
  end;
  match type of H with
  | context [match ?m with Ok _ => _ | Err _ => _ end] =>
      let E := fresh "E" in destruct m eqn:E; [|discriminate H]; injection H as <-;
      eapply L in E; [exact E|..]; first [exact Hx | reflexivity | exact Hinv]
  end.

Lemma run_bids_kept self hook n : forall w r w',
  Inv w -> run self hook n w r = Ok w' -> bids_kept (auctions w) (auctions w').
Proof.
  induction n as [|n IH]; intros w r w' [Hent Hinv] H; simpl in H; [discriminate|].
  assert (Hx : forall c x y, entered x = true ->
            external hook (run self hook n) c x = Ok y -> store y = store x)
    by (intros c x y Hx1 Hx2; exact (external_store self hook n c x y Hx1 Hx2)).
  destruct r as [s o v]. unfold step in H. cbn [op sender value] in H.
  destruct o; modifiers; cbn -[listItem cancelListing buyNow createAuction placeBid endAuction withdrawProceeds
        setMarketplaceFee pause unpause withdrawFees transferOwnership renounceOwnership] in H.
  - bids_case listItem_bids Hx Hinv H.
  - bids_case cancelListing_bids Hx Hinv H.
  - bids_case buyNow_bids Hx Hinv H.
  - bids_case createAuction_bids Hx Hinv H.
  - bids_case placeBid_bids Hx Hinv H.
  - bids_case endAuction_bids Hx Hinv H.
  - bids_case withdrawProceeds_bids Hx Hinv H.
  - destruct (v =? 0); [|discriminate]. destruct (owner w =? N.pos s); [|discriminate].
    unfold setMarketplaceFee in H. destruct (_ <? _); inversion H; subst; apply bids_kept_refl.
  - destruct (v =? 0); [|discriminate]. destruct (owner w =? N.pos s); [|discriminate].
    unfold pause in H. destruct (paused w); inversion H; subst; apply bids_kept_refl.
  - destruct (v =? 0); [|discriminate]. destruct (owner w =? N.pos s); [|discriminate].
    unfold unpause in H. destruct (negb (paused w)); inversion H; subst; apply bids_kept_refl.
  - destruct (v =? 0); [|discriminate]. destruct (owner w =? N.pos s); [|discriminate].
    unfold withdrawFees, external in H.
    destruct (balance w <=? balance w); [|discriminate].
    destruct (nested _ _ _ _) as [w1|] eqn:E; inversion H; subst w1.
    eapply (nested_preserve (fun z => Inv z /\ bids_kept (auctions w) (auctions z))); [| |exact E].
    + intros x r y [Hxi Hxb] Hr. split; [exact (run_Inv self hook n x r y Hxi Hr)|].
      exact (bids_kept_trans _ _ _ Hxb (IH x r y Hxi Hr)).
    + split; [split; assumption|apply bids_kept_refl].
  - destruct (v =? 0); [|discriminate]. destruct (owner w =? N.pos s); [|discriminate].
    unfold transferOwnership in H. destruct (_ =? 0); inversion H; subst; apply bids_kept_refl.
  - destruct (v =? 0); [|discriminate]. destruct (owner w =? N.pos s); [|discriminate].
    unfold renounceOwnership in H. inversion H; subst; apply bids_kept_refl.
Qed.

(** ** Withdrawing proceeds from the top level *)

Lemma store_proceeds x y : store x = store y -> proceeds x = proceeds y.
Proof. unfold store. intros H. injection H. auto. Qed.

Lemma run_withdraw self hook n w s :
  entered w = false ->
  run self hook (S n) w (mkReq s WithdrawProceeds 0) =
  if proceeds_of w (Npos s) =? 0 then Err NoBids else
  match external hook (run self hook n) (EthSend (Npos s) (proceeds_of w (Npos s)))
          (set_proceeds (<[Npos s := 0]> (proceeds w)) (set_entered true w)) with
  | Err _ => Err TransferFailed
  | Ok w2 => Ok (set_entered false (emit (ProceedsWithdrawn (Npos s) (proceeds_of w (Npos s))) w2))
  end.
Proof.
  intros Hent. cbn [run]. unfold step. cbn [op sender value].
  unfold nonpayable, nonReentrant. cbn [N.eqb]. rewrite Hent.
  unfold withdrawProceeds. change (proceeds_of (set_entered true w)) with (proceeds_of w).
  cbv zeta. destruct (proceeds_of w (N.pos s) =? 0); [reflexivity|].
  change (proceeds (set_entered true w)) with (proceeds w).
  destruct (external _ _ _ _); reflexivity.
Qed.

(** ** Reachability of the concrete runs *)

Lemma reach_W1 : reachable mkt no_hook W1.
Proof.
  apply (reach_tx _ _ W0 1 (mkReq 3 (ListItem 7 1 100) 0)).
  - apply (reach_deploy _ _ 1 250 1000 nfts0). reflexivity.
  - vm_compute. reflexivity.
Qed.

Lemma reach_W2 : reachable mkt no_hook W2.
Proof.
  apply (reach_tx _ _ W1 1 (mkReq 4 (BuyNow key0) 100)); [exact reach_W1|].
  vm_compute. reflexivity.
Qed.

Lemma reach_nwf_W2 : reachable_nwf mkt no_hook W2.
Proof.
  apply (nwf_tx _ _ W1 1 (mkReq 4 (BuyNow key0) 100)); [|discriminate|vm_compute; reflexivity].
  apply (nwf_tx _ _ W0 1 (mkReq 3 (ListItem 7 1 100) 0)); [|discriminate|vm_compute; reflexivity].
  apply (nwf_deploy _ _ 1 250 1000 nfts0). reflexivity.
Qed.

Lemma reach_A2 : reachable mkt no_hook A2.
Proof.
  apply (reach_tx _ _ A1 1 (mkReq 4 (PlaceBid key0) 50)); [|vm_compute; reflexivity].
  apply (reach_tx _ _ W0 1 (mkReq 3 (CreateAuction 7 1 10 3600) 0)); [|vm_compute; reflexivity].
  apply (reach_deploy _ _ 1 250 1000 nfts0). reflexivity.
Qed.

Lemma no_hook_nwf : hook_nwf no_hook.
Proof. intros c w. constructor. Qed.

(** ** Removing from the active arrays *)

Lemma swap_pop (pre post : list Key) k :
  match last (pre ++ k :: post) with
  | Some x => take (length (pre ++ k :: post) - 1)%nat (<[length pre := x]> (pre ++ k :: post))
  | None => pre ++ k :: post
  end ≡ₚ pre ++ post.
Proof.
  destruct post as [|y post] using rev_ind.
  - rewrite last_snoc. rewrite list_insert_id.
    2:{ rewrite lookup_app_r by lia. rewrite Nat.sub_diag. reflexivity. }
    rewrite length_app. cbn [length]. rewrite Nat.add_sub, take_app_length, app_nil_r. reflexivity.
  - rewrite app_comm_cons, app_assoc, last_snoc.
    rewrite <- app_assoc, <- app_comm_cons.
    rewrite insert_app_r_alt by lia. rewrite Nat.sub_diag. cbn [insert list_insert].
    replace (length (pre ++ k :: post ++ [y]) - 1)%nat with (length (pre ++ y :: post))
      by (rewrite !length_app; cbn [length]; rewrite length_app; cbn [length]; lia).
    replace (pre ++ y :: post ++ [y]) with ((pre ++ y :: post) ++ [y])
      by (rewrite <- app_assoc; reflexivity).
    rewrite take_app_length. apply Permutation_app_head. apply Permutation_cons_append.
Qed.

Lemma removeFromActive_notin k arr : k ∉ arr -> removeFromActive k arr = arr.
Proof.
  intros Hn. unfold removeFromActive.
  destruct (list_find _ arr) as [[i y]|] eqn:E; [|reflexivity].
  apply list_find_Some in E as (Hi & -> & _). exfalso. apply Hn.
  eapply list_elem_of_lookup_2. exact Hi.
Qed.

Lemma removeFromActive_first k arr i :
  arr !! i = Some k -> (forall j, (j < i)%nat -> arr !! j <> Some k) ->
  removeFromActive k arr ≡ₚ delete i arr.
Proof.
  intros Hi Hfirst. unfold removeFromActive.
  replace (list_find (fun x => x = k) arr) with (Some (i, k)).
  2:{ symmetry. apply list_find_Some. split; [exact Hi|]. split; [reflexivity|].
      intros j y Hj Hlt ->. exact (Hfirst j Hlt Hj). }
  pose proof (take_drop_middle arr i k Hi) as Hsplit.
  assert (Hlen : length (take i arr) = i).
  { apply length_take_le. apply lookup_lt_Some in Hi. lia. }
  rewrite <- Hsplit. remember (take i arr) as pre. remember (drop (S i) arr) as post.
  rewrite <- Hlen. rewrite delete_middle. apply swap_pop.
Qed.

Lemma removeFromActive_NoDup k arr :
  NoDup arr ->
  NoDup (removeFromActive k arr) /\
  forall x, x ∈ removeFromActive k arr <-> x ∈ arr /\ x <> k.
Proof.
  intros Hnd. destruct (decide (k ∈ arr)) as [Hin|Hn].
  - apply list_elem_of_lookup_1 in Hin as [i Hi].
    assert (Hfirst : forall j, (j < i)%nat -> arr !! j <> Some k).
    { intros j Hj Hjk. pose proof (NoDup_lookup arr j i k Hnd Hjk Hi). lia. }
    pose proof (removeFromActive_first k arr i Hi Hfirst) as Hp.
    pose proof (take_drop_middle arr i k Hi) as Hsplit.
    assert (Hlen : length (take i arr) = i).
    { apply length_take_le. apply lookup_lt_Some in Hi. lia. }
    rewrite <- Hsplit in Hp, Hnd |- *.
    remember (take i arr) as pre. remember (drop (S i) arr) as post.
    rewrite <- Hlen, delete_middle in Hp. rewrite Hp.
    apply NoDup_app in Hnd as (Hnd1 & Hdis & Hnd2). apply NoDup_cons in Hnd2 as [Hk Hnd2].
    split.
    + apply NoDup_app. split; [exact Hnd1|]. split; [|exact Hnd2].
      intros x Hx1 Hx2. apply (Hdis x Hx1). apply elem_of_cons. right. exact Hx2.
    + intros x. rewrite Hp, !elem_of_app, elem_of_cons. split.
      * intros [Hx|Hx]; (split; [tauto|intros ->]).
        -- exact (Hdis k Hx (list_elem_of_here _ _)).  
        -- exact (Hk Hx).
      * intros [[Hx|[Hx|Hx]] Hne]; auto; congruence.
  - rewrite removeFromActive_notin by exact Hn. split; [exact Hnd|].
    intros x. split; [intros Hx; split; [exact Hx|intros ->; contradiction]|tauto].
Qed.


(** ** The active arrays index the active sales *)

Section ActiveIndex.
Context {T : Type} (tactive : T -> bool).

Lemma active_index_insert_new M arr k t :
  active_index tactive M arr -> (forall t', M !! k = Some t' -> tactive t' = false) ->
  tactive t = true -> active_index tactive (<[k := t]> M) (arr ++ [k]).
Proof.
  intros [Hnd Hmem] Hoff Hon.
  assert (Hk : k ∉ arr).
  { intros Hin. apply Hmem in Hin as (t' & Ht' & Ha). rewrite (Hoff t' Ht') in Ha. discriminate. }
  split.
  - apply NoDup_app. split; [exact Hnd|]. split; [|apply NoDup_singleton].
    intros x Hx Hx'. apply list_elem_of_singleton in Hx'. subst x. contradiction.
  - intros x. rewrite elem_of_app, list_elem_of_singleton. destruct (decide (x = k)) as [->|Hne].
    + split; [intros _; exists t; rewrite lookup_insert_eq; auto|auto].
    + rewrite lookup_insert_ne by congruence. rewrite <- Hmem. split; [intros [H|H]; [exact H|contradiction]|auto].
Qed.

Lemma active_index_remove M arr k t t' :
  active_index tactive M arr -> M !! k = Some t -> tactive t = true -> tactive t' = false ->
  active_index tactive (<[k := t']> M) (removeFromActive k arr).
Proof.
  intros [Hnd Hmem] Hk Hon Hoff.
  destruct (removeFromActive_NoDup k arr Hnd) as [Hnd' Hmem'].
  split; [exact Hnd'|]. intros x. rewrite Hmem'. destruct (decide (x = k)) as [->|Hne].
  - rewrite lookup_insert_eq. split; [intros [_ []]; reflexivity|].
    intros (t'' & [= <-] & Ha). congruence.
  - rewrite lookup_insert_ne by congruence. rewrite <- Hmem. tauto.
Qed.

Lemma active_index_update M arr k t t' :
  active_index tactive M arr -> M !! k = Some t -> tactive t' = tactive t ->
  active_index tactive (<[k := t']> M) arr.
Proof.
  intros [Hnd Hmem] Hk Hsame. split; [exact Hnd|]. intros x. rewrite Hmem.
  destruct (decide (x = k)) as [->|Hne].
  - rewrite lookup_insert_eq, Hk. split; intros (t'' & [= <-] & Ha); eexists; split; eauto; congruence.
  - rewrite lookup_insert_ne by congruence. reflexivity.
Qed.

End ActiveIndex.

Lemma store_active x y : store x = store y -> 
  listings x = listings y /\ auctions x = auctions y /\
  activeListings x = activeListings y /\ activeAuctions x = activeAuctions y.
Proof. unfold store. intros H. injection H. auto. Qed.

Lemma active_ok_store x y : store x = store y -> active_ok y -> active_ok x.
Proof.
  intros H. destruct (store_active _ _ H) as (H1 & H2 & H3 & H4). unfold active_ok.
  rewrite H1, H2, H3, H4. auto.
Qed.

Section Active.
Variable self : N.
Variable ext : ExtCall -> World -> Res World.
Hypothesis ext_frame : forall c x y, entered x = true -> ext c x = Ok y -> store y = store x.

Lemma listItem_active s nft tok price w w' :
  entered w = true -> InvS w -> active_ok w -> listItem self ext s nft tok price w = Ok w' ->
  active_ok w'.
Proof.
  intros Hent Hinv Hact H. unfold listItem in H.
  destruct (price =? 0); [discriminate|].
  destruct (nftToListing w !! (nft, tok)) eqn:HL; [discriminate|].
  destruct (nftToAuction w !! (nft, tok)); [discriminate|].
  destruct (ext _ w) as [w1|] eqn:E; [|discriminate]. simpl in H. injection H as <-.
  pose proof (ext_frame _ _ _ Hent E) as Hs.
  apply (active_ok_store _ _ Hs) in Hact. apply (InvS_store _ _ Hs) in Hinv.
  assert (HL1 : nftToListing w1 !! (nft, tok) = None).
  { unfold store in Hs. injection Hs as _ _ HNL1. rewrite HNL1. exact HL. }
  destruct Hact as [HAL HAA]. split; [|exact HAA]. cbn.
  apply active_index_insert_new; [exact HAL| |reflexivity].
  intros t' Ht'. destruct (Listing.isActive t') eqn:Ha; [|reflexivity].
  destruct Hinv as ((_ & IL2 & _) & _). pose proof (IL2 _ _ Ht' Ha) as Hi.
  unfold key_asset, sale_key in Hi. cbn in Hi. congruence.
Qed.

Lemma cancelListing_active s k w w' :
  entered w = true -> InvS w -> active_ok w -> cancelListing self ext s k w = Ok w' -> active_ok w'.
Proof.
  intros Hent Hinv Hact H. unfold cancelListing in H.
  destruct (listings w !! k) as [l|] eqn:Hl; [|discriminate].
  split_guards H. bind_ok H. injection H as <-.
  pose proof (ext_frame _ _ _ Hent E) as Hs.
  apply (active_ok_store _ _ Hs) in Hact.
  destruct (store_active _ _ Hs) as (HL1 & _). rewrite <- HL1 in Hl.
  assert (Ha : Listing.isActive l = true) by (destruct (Listing.isActive l); auto).
  destruct Hact as [HAL HAA]. split; [|exact HAA]. cbn.
  rewrite (alter_some _ _ _ _ Hl). eapply active_index_remove; eauto.
Qed.

Lemma buyNow_active s v k w w' :
  entered w = true -> InvS w -> active_ok w -> buyNow self ext s v k w = Ok w' -> active_ok w'.
Proof.
  intros Hent Hinv Hact H. unfold buyNow in H.
  destruct (listings w !! k) as [l|] eqn:Hl; [|discriminate].
  split_guards H. bind_ok H. bind_ok H. bind_ok H. bind_ok H. injection H as <-.
  pose proof (ext_frame _ _ _ Hent E1) as Hs.
  apply (active_ok_store _ _ Hs) in Hact.
  destruct (store_active _ _ Hs) as (HL1 & _). rewrite <- HL1 in Hl.
  assert (Ha : Listing.isActive l = true) by (destruct (Listing.isActive l); auto).
  destruct Hact as [HAL HAA]. split; [|exact HAA]. cbn.
  rewrite (alter_some _ _ _ _ Hl). eapply active_index_remove; eauto.
Qed.

Lemma createAuction_active s nft tok sb dur w w' :
  entered w = true -> InvS w -> active_ok w -> createAuction self ext s nft tok sb dur w = Ok w' ->
  active_ok w'.
Proof.
  intros Hent Hinv Hact H. unfold createAuction in H.
  split_guards H.
  destruct (nftToListing w !! (nft, tok)); [discriminate|].
  destruct (nftToAuction w !! (nft, tok)) eqn:HA; [discriminate|].
  bind_ok H. bind_ok H. injection H as <-.
  pose proof (ext_frame _ _ _ Hent E) as Hs.
  assert (Hfresh := auction_fresh w nft tok s Hinv HA).
  unfold store in Hs. injection Hs as HL1 HA1 HNL1 HNA1 _ HAL1 HAA1 _ HT1.
  destruct Hact as [HAL HAA]. split; cbn; rewrite ?HL1, ?HAL1, ?HA1, ?HAA1, ?HT1; [exact HAL|].
  apply active_index_insert_new; [exact HAA| |reflexivity].
  intros t' Ht'. congruence.
Qed.

Lemma placeBid_active s v k w w' :
  active_ok w -> placeBid s v k w = Ok w' -> active_ok w'.
Proof.
  intros Hact H.
  destruct (auctions w !! k) as [a|] eqn:Ha; [|unfold placeBid in H; rewrite Ha in H; discriminate].
  destruct (placeBid_effect s v k a w w' Ha H) as (_ & _ & _ & (et & HA) & _).
  unfold placeBid in H. rewrite Ha in H.
  destruct (negb (Auction.isActive a)); [discriminate|].
  destruct (Auction.endTime a <=? timestamp w); [discriminate|].
  destruct (v <=? Auction.highestBid a); [discriminate|].
  destruct (if Auction.highestBidder a =? 0 then _ else _); [|discriminate]. simpl in H.
  destruct (if Auction.endTime a - timestamp w <? AUCTION_EXTENSION_TIME then _ else _); [|discriminate].
  simpl in H. injection H as <-.
  destruct Hact as [HAL HAA]. split; cbn; [exact HAL|].
  eapply active_index_update; [exact HAA|exact Ha|reflexivity].
Qed.

Lemma endAuction_active k w w' :
  entered w = true -> active_ok w -> endAuction self ext k w = Ok w' -> active_ok w'.
Proof.
  intros Hent Hact H. unfold endAuction in H.
  destruct (auctions w !! k) as [a|] eqn:Ha; [|discriminate].
  assert (Hon : Auction.isActive a = true) by (destruct (Auction.isActive a); auto; discriminate).
  destruct Hact as [HAL HAA].
  assert (Hnew : active_ok (set_nftToAuction (delete (Auction.nftContract a, Auction.tokenId a)
       (nftToAuction w)) (set_activeAuctions (removeFromActive k (activeAuctions w))
       (set_auctions (<[k:=Auction.finalize a]> (auctions w)) w)))).
  { split; cbn; [exact HAL|]. eapply active_index_remove; eauto. }
  split_guards H.
  - bind_ok H. bind_ok H. bind_ok H. bind_ok H. injection H as <-.
    pose proof (fun He => ext_frame _ _ _ He E1) as Hs. specialize (Hs Hent).
    exact (active_ok_store _ _ Hs Hnew).
  - bind_ok H. injection H as <-.
    pose proof (fun He => ext_frame _ _ _ He E) as Hs. specialize (Hs Hent).
    exact (active_ok_store _ _ Hs Hnew).
Qed.

Lemma withdrawProceeds_active s w w' :
  entered w = true -> active_ok w -> withdrawProceeds ext s w = Ok w' -> active_ok w'.
Proof.
  intros Hent Hact H. unfold withdrawProceeds in H. split_guards H.
  destruct (ext _ _) as [w2|] eqn:E; [|discriminate]. injection H as <-.
  pose proof (fun He => ext_frame _ _ _ He E) as Hs. specialize (Hs Hent).
  exact (active_ok_store _ _ Hs Hact).
Qed.

End Active.

Ltac active_case L Hx Hinv Hact H :=
  repeat match type of H with
  | context [if ?b then _ else _] => destruct b; try discriminate H
  end;
  match type of H with
  | context [match ?m with Ok _ => _ | Err _ => _ end] =>
      let E := fresh "E" in destruct m eqn:E; [|discriminate H]; injection H as <-;
      eapply L in E; [exact E|..]; first [exact Hx | reflexivity | exact Hinv | exact Hact]
  end.

Lemma run_active self hook n : forall w r w',
  Inv w -> active_ok w -> run self hook n w r = Ok w' -> active_ok w'.
Proof.
  induction n as [|n IH]; intros w r w' [Hent Hinv] Hact H; simpl in H; [discriminate|].
  assert (Hx : forall c x y, entered x = true ->
            external hook (run self hook n) c x = Ok y -> store y = store x)
    by (intros c x y Hx1 Hx2; exact (external_store self hook n c x y Hx1 Hx2)).
  destruct r as [s o v]. unfold step in H. cbn [op sender value] in H.
  destruct o; modifiers;
  cbn -[listItem cancelListing buyNow createAuction placeBid endAuction withdrawProceeds
        setMarketplaceFee pause unpause withdrawFees transferOwnership renounceOwnership] in H.
  - active_case listItem_active Hx Hinv Hact H.
  - active_case cancelListing_active Hx Hinv Hact H.
  - active_case buyNow_active Hx Hinv Hact H.
  - active_case createAuction_active Hx Hinv Hact H.
  - active_case placeBid_active Hx Hinv Hact H.
  - active_case endAuction_active Hx Hinv Hact H.
  - active_case withdrawProceeds_active Hx Hinv Hact H.
  - destruct (v =? 0); [|discriminate]. destruct (owner w =? N.pos s); [|discriminate].
    unfold setMarketplaceFee in H. destruct (_ <? _); inversion H; subst; exact Hact.
  - destruct (v =? 0); [|discriminate]. destruct (owner w =? N.pos s); [|discriminate].
    unfold pause in H. destruct (paused w); inversion H; subst; exact Hact.
  - destruct (v =? 0); [|discriminate]. destruct (owner w =? N.pos s); [|discriminate].
    unfold unpause in H. destruct (negb (paused w)); inversion H; subst; exact Hact.
  - destruct (v =? 0); [|discriminate]. destruct (owner w =? N.pos s); [|discriminate].
    unfold withdrawFees, external in H.
    destruct (balance w <=? balance w); [|discriminate].
    destruct (nested _ _ _ _) as [w1|] eqn:E; inversion H; subst w1.
    eapply (nested_preserve (fun z => Inv z /\ active_ok z)); [| |exact E].
    + intros x r y [Hxi Hxa] Hr. split; [exact (run_Inv self hook n x r y Hxi Hr)|].
      exact (IH x r y Hxi Hxa Hr).
    + split; [split; assumption|exact Hact].
  - destruct (v =? 0); [|discriminate]. destruct (owner w =? N.pos s); [|discriminate].
    unfold transferOwnership in H. destruct (_ =? 0); inversion H; subst; exact Hact.
  - destruct (v =? 0); [|discriminate]. destruct (owner w =? N.pos s); [|discriminate].
    unfold renounceOwnership in H. inversion H; subst; exact Hact.
Qed.

Lemma reachable_active self hook w : reachable self hook w -> active_ok w.
Proof.
  induction 1 as [d fee t nfts w Hd|w n r w' R IH Hr|w t _ IH Ht|w m _ IH].
  - unfold deploy in Hd. destruct (_ <? _); [discriminate|]. injection Hd as <-.
    split; (split; [apply NoDup_nil_2|]); intros k; cbn; rewrite lookup_empty;
      (split; [intros Hk; inversion Hk|intros (? & [=] & _)]).
  - exact (run_active self hook n w r w' (reachable_Inv _ _ _ R) IH Hr).
  - exact IH.
  - exact IH.
Qed.

(** ** The marketplace keeps custody of the tokens on sale *)

Section Custody.
Variable self : N.
Variable ext : ExtCall -> World -> Res World.
Hypothesis ext_nft : forall c x y, entered x = true -> ext c x = Ok y ->
  store y = store x /\
  match c with
  | NftTransfer nft tok from to =>
      nftOwners x !! (nft, tok) = Some from /\ nftOwners y = <[(nft, tok) := to]> (nftOwners x)
  | EthSend _ _ => nftOwners y = nftOwners x
  end.

(** the token of an active sale other than the one at [x] keeps its owner *)
Lemma custody_other w x to :
  custody self w ->
  (forall k l, listings w !! k = Some l -> Listing.isActive l = true ->
     (Listing.nftContract l, Listing.tokenId l) <> x) ->
  (forall k a, auctions w !! k = Some a -> Auction.isActive a = true ->
     (Auction.nftContract a, Auction.tokenId a) <> x) ->
  custody self (set_nftOwners (<[x := to]> (nftOwners w)) w).
Proof.
  intros [CL CA] HL HA. split; cbn.
  - intros k l Hk Ha. rewrite lookup_insert_ne by (intros E; exact (HL k l Hk Ha (eq_sym E))). eauto.
  - intros k a Hk Ha. rewrite lookup_insert_ne by (intros E; exact (HA k a Hk Ha (eq_sym E))). eauto.
Qed.

Lemma listItem_custody s nft tok price w w' :
  entered w = true -> InvS w -> custody self w -> listItem self ext s nft tok price w = Ok w' ->
  custody self w'.
Proof.
  intros Hent Hinv Hc H. unfold listItem in H.
  destruct (price =? 0); [discriminate|].
  destruct (nftToListing w !! (nft, tok)) eqn:HL; [discriminate|].
  destruct (nftToAuction w !! (nft, tok)) eqn:HA; [discriminate|].
  destruct (ext _ w) as [w1|] eqn:E; [|discriminate]. simpl in H. injection H as <-.
  destruct (ext_nft _ _ _ Hent E) as [Hs [_ Hno]].
  unfold store in Hs. injection Hs as HL1 HA1 _ _ _ _ _ _ _.
  assert (Hc1 : custody self (set_nftOwners (<[(nft, tok) := self]> (nftOwners w)) w)).
  { apply custody_other; [exact Hc| |].
    - intros k l Hk Ha E'. pose proof (listing_indexed w k l Hinv Hk Ha) as I. congruence.
    - intros k a Hk Ha E'. pose proof (auction_indexed w k a Hinv Hk Ha) as I. congruence. }
  destruct Hc1 as [CL CA]. cbn in CL, CA. split; cbn; rewrite Hno.
  - intros k l Hk Ha. apply lookup_insert_Some in Hk as [[<- <-]|[_ Hk]].
    + apply lookup_insert_eq.
    + rewrite HL1 in Hk. eauto.
  - intros k a Hk Ha. rewrite HA1 in Hk. eauto.
Qed.

Lemma createAuction_custody s nft tok sb dur w w' :
  entered w = true -> InvS w -> custody self w -> createAuction self ext s nft tok sb dur w = Ok w' ->
  custody self w'.
Proof.
  intros Hent Hinv Hc H. unfold createAuction in H. split_guards H.
  destruct (nftToListing w !! (nft, tok)) eqn:HL; [discriminate|].
  destruct (nftToAuction w !! (nft, tok)) eqn:HA; [discriminate|].
  bind_ok H. bind_ok H. injection H as <-.
  destruct (ext_nft _ _ _ Hent E) as [Hs [_ Hno]].
  unfold store in Hs. injection Hs as HL1 HA1 _ _ _ _ _ _ _.
  assert (Hc1 : custody self (set_nftOwners (<[(nft, tok) := self]> (nftOwners w)) w)).
  { apply custody_other; [exact Hc| |].
    - intros k l Hk Ha E'. pose proof (listing_indexed w k l Hinv Hk Ha) as I. congruence.
    - intros k a Hk Ha E'. pose proof (auction_indexed w k a Hinv Hk Ha) as I. congruence. }
  destruct Hc1 as [CL CA]. cbn in CL, CA. split; cbn; rewrite Hno.
  - intros k l Hk Ha. rewrite HL1 in Hk. eauto.
  - intros k a Hk Ha. apply lookup_insert_Some in Hk as [[<- <-]|[_ Hk]].
    + apply lookup_insert_eq.
    + rewrite HA1 in Hk. eauto.
Qed.

Lemma custody_fields x y :
  listings x = listings y -> auctions x = auctions y -> nftOwners x = nftOwners y ->
  custody self x -> custody self y.
Proof. unfold custody. intros -> -> ->. auto. Qed.

(** closing the listing at [k] and handing its token to [to] *)
Lemma custody_close_listing w k l to :
  InvS w -> custody self w -> listings w !! k = Some l -> Listing.isActive l = true ->
  custody self (set_nftOwners (<[(Listing.nftContract l, Listing.tokenId l) := to]> (nftOwners w))
                  (set_listings (<[k := Listing.deactivate l]> (listings w)) w)).
Proof.
  intros Hinv [CL CA] Hl Ha. destruct (InvS_exclusive w Hinv) as (X1 & _ & X3).
  split; cbn.
  - intros k' l' Hk' Ha'. apply lookup_insert_Some in Hk' as [[<- <-]|[Hne Hk']]; [discriminate|].
    rewrite lookup_insert_ne; [eauto|].
    intros E'. apply Hne. exact (X1 _ _ _ _ Hl Hk' Ha Ha' E').
  - intros k' a Hk' Ha'. rewrite lookup_insert_ne; [eauto|].
    exact (X3 _ _ _ _ Hl Hk' Ha Ha').
Qed.

(** closing the auction at [k] and handing its token to [to] *)
Lemma custody_close_auction w k a to :
  InvS w -> custody self w -> auctions w !! k = Some a -> Auction.isActive a = true ->
  custody self (set_nftOwners (<[(Auction.nftContract a, Auction.tokenId a) := to]> (nftOwners w))
                  (set_auctions (<[k := Auction.finalize a]> (auctions w)) w)).
Proof.
  intros Hinv [CL CA] Hk Ha. destruct (InvS_exclusive w Hinv) as (_ & X2 & X3).
  split; cbn.
  - intros k' l Hk' Ha'. rewrite lookup_insert_ne; [eauto|].
    intros E'. exact (X3 _ _ _ _ Hk' Hk Ha' Ha (eq_sym E')).
  - intros k' a' Hk' Ha'. apply lookup_insert_Some in Hk' as [[<- <-]|[Hne Hk']]; [discriminate|].
    rewrite lookup_insert_ne; [eauto|].
    intros E'. apply Hne. exact (X2 _ _ _ _ Hk Hk' Ha Ha' E').
Qed.

Lemma cancelListing_custody s k w w' :
  entered w = true -> InvS w -> custody self w -> cancelListing self ext s k w = Ok w' ->
  custody self w'.
Proof.
  intros Hent Hinv Hc H. unfold cancelListing in H.
  destruct (listings w !! k) as [l|] eqn:Hl; [|discriminate].
  split_guards H. bind_ok H. injection H as <-.
  destruct (ext_nft _ _ _ Hent E) as [Hs [_ Hno]].
  unfold store in Hs. injection Hs as HL1 HA1 _.
  assert (Ha : Listing.isActive l = true) by (destruct (Listing.isActive l); auto).
  eapply custody_fields; [| | |exact (custody_close_listing w k l (Listing.seller l) Hinv Hc Hl Ha)]; cbn.
  - rewrite HL1, (alter_some _ _ _ _ Hl). reflexivity.
  - exact (eq_sym HA1).
  - exact (eq_sym Hno).
Qed.

Lemma buyNow_custody s v k w w' :
  entered w = true -> InvS w -> custody self w -> buyNow self ext s v k w = Ok w' ->
  custody self w'.
Proof.
  intros Hent Hinv Hc H. unfold buyNow in H.
  destruct (listings w !! k) as [l|] eqn:Hl; [|discriminate].
  split_guards H. bind_ok H. bind_ok H. bind_ok H. bind_ok H. injection H as <-.
  destruct (ext_nft _ _ _ Hent E1) as [Hs [_ Hno]].
  unfold store in Hs. injection Hs as HL1 HA1 _.
  assert (Ha : Listing.isActive l = true) by (destruct (Listing.isActive l); auto).
  eapply custody_fields; [| | |exact (custody_close_listing w k l s Hinv Hc Hl Ha)]; cbn.
  - rewrite HL1, (alter_some _ _ _ _ Hl). reflexivity.
  - exact (eq_sym HA1).
  - exact (eq_sym Hno).
Qed.

Lemma placeBid_custody s v k w w' :
  custody self w -> placeBid s v k w = Ok w' -> custody self w'.
Proof.
  intros [CL CA] H. unfold placeBid in H.
  destruct (auctions w !! k) as [a|] eqn:Ha; [|discriminate].
  destruct (negb (Auction.isActive a)); [discriminate|].
  destruct (Auction.endTime a <=? timestamp w); [discriminate|].
  destruct (v <=? Auction.highestBid a); [discriminate|].
  destruct (if Auction.highestBidder a =? 0 then _ else _); [|discriminate]. simpl in H.
  destruct (if Auction.endTime a - timestamp w <? AUCTION_EXTENSION_TIME then _ else _); [|discriminate].
  simpl in H. injection H as <-.
  split; cbn; [exact CL|].
  intros k' a' Hk' Ha'. apply lookup_insert_Some in Hk' as [[<- <-]|[_ Hk']]; [|eauto].
  cbn in *. eauto.
Qed.

Lemma endAuction_custody k w w' :
  entered w = true -> InvS w -> custody self w -> endAuction self ext k w = Ok w' ->
  custody self w'.
Proof.
  intros Hent Hinv Hc H. unfold endAuction in H.
  destruct (auctions w !! k) as [a|] eqn:Hk; [|discriminate].
  assert (Ha : Auction.isActive a = true) by (destruct (Auction.isActive a); auto; discriminate).
  split_guards H.
  - bind_ok H. bind_ok H. bind_ok H. bind_ok H. injection H as <-.
    pose proof (fun He => ext_nft _ _ _ He E1) as Hx. specialize (Hx Hent).
    destruct Hx as [Hs [_ Hno]]. unfold store in Hs. injection Hs as HL1 HA1 _.
    eapply custody_fields; [| | |exact (custody_close_auction w k a (Auction.highestBidder a) Hinv Hc Hk Ha)]; cbn in *.
    + exact (eq_sym HL1).
    + exact (eq_sym HA1).
    + exact (eq_sym Hno).
  - bind_ok H. injection H as <-.
    pose proof (fun He => ext_nft _ _ _ He E) as Hx. specialize (Hx Hent).
    destruct Hx as [Hs [_ Hno]]. unfold store in Hs. injection Hs as HL1 HA1 _.
    eapply custody_fields; [| | |exact (custody_close_auction w k a (Auction.seller a) Hinv Hc Hk Ha)]; cbn in *.
    + exact (eq_sym HL1).
    + exact (eq_sym HA1).
    + exact (eq_sym Hno).
Qed.

Lemma withdrawProceeds_custody s w w' :
  entered w = true -> custody self w -> withdrawProceeds ext s w = Ok w' -> custody self w'.
Proof.
  intros Hent Hc H. unfold withdrawProceeds in H. split_guards H.
  destruct (ext _ _) as [w2|] eqn:E; [|discriminate]. injection H as <-.
  pose proof (fun He => ext_nft _ _ _ He E) as Hx. specialize (Hx Hent).
  destruct Hx as [Hs Hno]. unfold store in Hs. injection Hs as HL1 HA1 _.
  eapply custody_fields; [| | |exact Hc]; cbn in *; congruence.
Qed.

End Custody.

Ltac custody_case L Hx Hinv Hc H :=
  repeat match type of H with
  | context [if ?b then _ else _] => destruct b; try discriminate H
  end;
  match type of H with
  | context [match ?m with Ok _ => _ | Err _ => _ end] =>
      let E := fresh "E" in destruct m eqn:E; [|discriminate H]; injection H as <-;
      eapply L in E; [exact E|..]; first [exact Hx | reflexivity | exact Hinv | exact Hc]
  end.

Lemma run_custody self hook n : forall w r w',
  Inv w -> custody self w -> run self hook n w r = Ok w' -> custody self w'.
Proof.
  induction n as [|n IH]; intros w r w' [Hent Hinv] Hc H; simpl in H; [discriminate|].
  pose proof (external_frame self hook n) as Hx.
  destruct r as [s o v]. unfold step in H. cbn [op sender value] in H.
  destruct o; modifiers;
  cbn -[listItem cancelListing buyNow createAuction placeBid endAuction withdrawProceeds
        setMarketplaceFee pause unpause withdrawFees transferOwnership renounceOwnership] in H.
  - custody_case listItem_custody Hx Hinv Hc H.
  - custody_case cancelListing_custody Hx Hinv Hc H.
  - custody_case buyNow_custody Hx Hinv Hc H.
  - custody_case createAuction_custody Hx Hinv Hc H.
  - custody_case placeBid_custody Hx Hinv Hc H.
  - custody_case endAuction_custody Hx Hinv Hc H.
  - custody_case withdrawProceeds_custody Hx Hinv Hc H.
  - destruct (v =? 0); [|discriminate]. destruct (owner w =? N.pos s); [|discriminate].
    unfold setMarketplaceFee in H. destruct (_ <? _); inversion H; subst; exact Hc.
  - destruct (v =? 0); [|discriminate]. destruct (owner w =? N.pos s); [|discriminate].
    unfold pause in H. destruct (paused w); inversion H; subst; exact Hc.
  - destruct (v =? 0); [|discriminate]. destruct (owner w =? N.pos s); [|discriminate].
    unfold unpause in H. destruct (negb (paused w)); inversion H; subst; exact Hc.
  - destruct (v =? 0); [|discriminate]. destruct (owner w =? N.pos s); [|discriminate].
    unfold withdrawFees, external in H.
    destruct (balance w <=? balance w); [|discriminate].
    destruct (nested _ _ _ _) as [w1|] eqn:E; inversion H; subst w1.
    eapply (nested_preserve (fun z => Inv z /\ custody self z)); [| |exact E].
    + intros x r y [Hxi Hxc] Hr. split; [exact (run_Inv self hook n x r y Hxi Hr)|].
      exact (IH x r y Hxi Hxc Hr).
    + split; [split; assumption|exact Hc].
  - destruct (v =? 0); [|discriminate]. destruct (owner w =? N.pos s); [|discriminate].
    unfold transferOwnership in H. destruct (_ =? 0); inversion H; subst; exact Hc.
  - destruct (v =? 0); [|discriminate]. destruct (owner w =? N.pos s); [|discriminate].
    unfold renounceOwnership in H. inversion H; subst; exact Hc.
Qed.

(** ** Owner and fee *)

Section Admin.
(** a property of the owner and the fee only *)
Variable P : World -> Prop.
Hypothesis P_fields : forall x y, marketplaceFeePercentage x = marketplaceFeePercentage y ->
  owner x = owner y -> P x -> P y.
Hypothesis P_fee : forall w f, P w -> owner w <> 0 -> f <= MAX_MARKETPLACE_FEE ->
  P (set_marketplaceFeePercentage f w).
Hypothesis P_own : forall w o, P w -> owner w <> 0 -> P (set_owner o w).

Variable self : N.
Variable ext : ExtCall -> World -> Res World.
Hypothesis P_ext : forall c x y, P x -> ext c x = Ok y -> P y.

Ltac admin_close :=
  match goal with
  | E : ext ?c ?x = Ok ?y |- _ =>
      assert (P y) by (apply (P_ext c x y); [|exact E];
        match goal with Hq : P ?z |- P _ => apply (P_fields z); [reflexivity|reflexivity|exact Hq] end);
      clear E
  end.

Ltac admin_body H :=
  repeat first
    [ progress split_guards H
    | match type of H with context [match ?m with Some _ => _ | None => _ end] =>
        destruct m; try discriminate H end
    | match type of H with context [match ?m with Ok _ => _ | Err _ => _ end] =>
        let E := fresh "E" in destruct m eqn:E; try discriminate H end
    | bind_ok H ];
  injection H as <-; repeat admin_close;
  match goal with Hq : P ?y |- P _ => apply (P_fields y); [reflexivity|reflexivity|exact Hq] end.

Lemma listItem_admin s nft tok price w w' :
  P w -> listItem self ext s nft tok price w = Ok w' -> P w'.
Proof. intros Hp H. unfold listItem in H. admin_body H. Qed.

Lemma cancelListing_admin s k w w' :
  P w -> cancelListing self ext s k w = Ok w' -> P w'.
Proof. intros Hp H. unfold cancelListing in H. admin_body H. Qed.

Lemma buyNow_admin s v k w w' :
  P w -> buyNow self ext s v k w = Ok w' -> P w'.
Proof. intros Hp H. unfold buyNow in H. admin_body H. Qed.

Lemma createAuction_admin s nft tok sb dur w w' :
  P w -> createAuction self ext s nft tok sb dur w = Ok w' -> P w'.
Proof. intros Hp H. unfold createAuction in H. admin_body H. Qed.

Lemma placeBid_admin s v k w w' :
  P w -> placeBid s v k w = Ok w' -> P w'.
Proof. intros Hp H. unfold placeBid in H. admin_body H. Qed.

Lemma endAuction_admin k w w' :
  P w -> endAuction self ext k w = Ok w' -> P w'.
Proof. intros Hp H. unfold endAuction in H. admin_body H. Qed.

Lemma withdrawProceeds_admin s w w' :
  P w -> withdrawProceeds ext s w = Ok w' -> P w'.
Proof. intros Hp H. unfold withdrawProceeds in H. admin_body H. Qed.

End Admin.

Section AdminRun.
Variable P : World -> Prop.
Hypothesis P_fields : forall x y, marketplaceFeePercentage x = marketplaceFeePercentage y ->
  owner x = owner y -> P x -> P y.
Hypothesis P_fee : forall w f, P w -> owner w <> 0 -> f <= MAX_MARKETPLACE_FEE ->
  P (set_marketplaceFeePercentage f w).
Hypothesis P_own : forall w o, P w -> owner w <> 0 -> P (set_owner o w).
Variable self : N.
Variable hook : ExtCall -> World -> Callback.

Ltac admin_case L Hx Hp H :=
  repeat match type of H with
  | context [if ?b then _ else _] => destruct b; try discriminate H
  end;
  match type of H with
  | context [match ?m with Ok _ => _ | Err _ => _ end] =>
      let E := fresh "E" in destruct m eqn:E; [|discriminate H]; injection H as <-;
      eapply (L P P_fields) in E; [|first [exact Hx|exact Hp] ..];
      match type of E with P ?z => apply (P_fields z); [reflexivity|reflexivity|exact E] end
  end.

Lemma run_admin n : forall w r w', P w -> run self hook n w r = Ok w' -> P w'.
Proof.
  induction n as [|n IH]; intros w r w' Hp H; simpl in H; [discriminate|].
  assert (Hx : forall c x y, P x -> external hook (run self hook n) c x = Ok y -> P y).
  { intros c x y Hx H1. destruct c as [nft tok from to|to amount]; cbn [external] in H1.
    - case_decide; [|discriminate].
      eapply (nested_preserve P); [exact IH| |exact H1].
      apply (P_fields x); [reflexivity|reflexivity|exact Hx].
    - destruct (amount <=? balance x); [|discriminate].
      eapply (nested_preserve P); [exact IH| |exact H1].
      apply (P_fields x); [reflexivity|reflexivity|exact Hx]. }
  assert (Hp1 : forall v b, P (set_entered b (set_balance (balance w + v) w)))
    by (intros; apply (P_fields w); [reflexivity|reflexivity|exact Hp]).
  assert (Hp2 : forall b, P (set_entered b w))
    by (intros; apply (P_fields w); [reflexivity|reflexivity|exact Hp]).
  destruct r as [s o v]. unfold step in H. cbn [op sender value] in H.
  destruct o; modifiers;
  cbn -[listItem cancelListing buyNow createAuction placeBid endAuction withdrawProceeds
        setMarketplaceFee pause unpause withdrawFees transferOwnership renounceOwnership] in H.
  - admin_case listItem_admin Hx (Hp2 true) H.
  - admin_case cancelListing_admin Hx (Hp2 true) H.
  - admin_case buyNow_admin Hx (Hp1 v true) H.
  - admin_case createAuction_admin Hx (Hp2 true) H.
  - admin_case placeBid_admin Hx (Hp1 v true) H.
  - admin_case endAuction_admin Hx (Hp2 true) H.
  - admin_case withdrawProceeds_admin Hx (Hp2 true) H.
  - destruct (v =? 0); [|discriminate]. destruct (owner w =? N.pos s) eqn:Ho; [|discriminate].
    apply N.eqb_eq in Ho.
    unfold setMarketplaceFee in H. destruct (_ <? _) eqn:Hf; [discriminate|]. injection H as <-.
    apply N.ltb_ge in Hf.
    apply (P_fields (set_marketplaceFeePercentage newFeePercentage w)); [reflexivity|reflexivity|].
    apply P_fee; [exact Hp|congruence|exact Hf].
  - destruct (v =? 0); [|discriminate]. destruct (owner w =? N.pos s); [|discriminate].
    unfold pause in H. destruct (paused w); inversion H; subst.
    apply (P_fields w); [reflexivity|reflexivity|exact Hp].
  - destruct (v =? 0); [|discriminate]. destruct (owner w =? N.pos s); [|discriminate].
    unfold unpause in H. destruct (negb (paused w)); inversion H; subst.
    apply (P_fields w); [reflexivity|reflexivity|exact Hp].
  - destruct (v =? 0); [|discriminate]. destruct (owner w =? N.pos s); [|discriminate].
    unfold withdrawFees in H. destruct (external _ _ _ _) as [w1|] eqn:E; [|discriminate].
    injection H as <-. exact (Hx _ _ _ Hp E).
  - destruct (v =? 0); [|discriminate]. destruct (owner w =? N.pos s) eqn:Ho; [|discriminate].
    apply N.eqb_eq in Ho.
    unfold transferOwnership in H. destruct (_ =? 0); [discriminate|]. injection H as <-.
    apply (P_fields (set_owner newOwner w)); [reflexivity|reflexivity|].
    apply P_own; [exact Hp|congruence].
  - destruct (v =? 0); [|discriminate]. destruct (owner w =? N.pos s) eqn:Ho; [|discriminate].
    apply N.eqb_eq in Ho.
    unfold renounceOwnership in H. injection H as <-.
    apply (P_fields (set_owner 0 w)); [reflexivity|reflexivity|].
    apply P_own; [exact Hp|congruence].
Qed.

End AdminRun.

Lemma run_fee_bounded self hook n w r w' :
  marketplaceFeePercentage w <= MAX_MARKETPLACE_FEE -> run self hook n w r = Ok w' ->
  marketplaceFeePercentage w' <= MAX_MARKETPLACE_FEE.
Proof.
  apply (run_admin (fun x => marketplaceFeePercentage x <= MAX_MARKETPLACE_FEE)).
  - intros x y Hf _. rewrite <- Hf. auto.
  - intros x f _ _ Hf. exact Hf.
  - intros x o Hx _. exact Hx.
Qed.

Lemma run_owner_zero self hook n w r w' :
  owner w = 0 -> run self hook n w r = Ok w' -> owner w' = 0.
Proof.
  apply (run_admin (fun x => owner x = 0)).
  - intros x y _ Ho. rewrite <- Ho. auto.
  - intros x f Hx Hne. contradiction.
  - intros x o Hx Hne. contradiction.
Qed.

Lemma exec_all_owner_zero self hook txs : forall w,
  owner w = 0 -> owner (exec_all self hook w txs) = 0.
Proof.
  induction txs as [|[n r] txs IH]; intros w Hw; cbn [exec_all]; [exact Hw|].
  apply IH. unfold exec. destruct (run self hook n w r) as [w'|] eqn:E; [|exact Hw].
  exact (run_owner_zero self hook n w r w' Hw E).
Qed.

Lemma N_fee_share p f : f <= MAX_MARKETPLACE_FEE -> p * f / 10000 <= p / 10.
Proof.
  unfold MAX_MARKETPLACE_FEE. intros Hf.
  transitivity (p * 1000 / 10000).
  - apply N.Div0.div_le_mono. apply N.mul_le_mono_l. exact Hf.
  - replace 10000 with (10 * 1000) by reflexivity.
    rewrite N.Div0.div_mul_cancel_r by lia. reflexivity.
Qed.

(** ** Outcomes of single calls from the top level *)

Ltac run_ext_facts self hook n E :=
  let Hs := fresh "Hs" in let Hn := fresh "Hn" in
  pose proof (fun He => external_frame self hook n _ _ _ He E) as Hs; specialize (Hs eq_refl);
  destruct Hs as [Hs Hn]; cbv beta iota in Hn; unfold store in Hs;
  injection Hs as ?HL ?HA ?HNL ?HNA ?HP ?HAL ?HAA ?HE ?HT; wsimp.

Ltac bind_run H :=
  match type of H with
  | context [bind ?m _] =>
      let x := fresh "x" in let E := fresh "E" in
      destruct m as [x|] eqn:E; [cbn [bind] in H|discriminate H]
  end.

Lemma listItem_run self hook n w s nft tok price v w' :
  run self hook n w (mkReq s (ListItem nft tok price) v) = Ok w' ->
  let k := sale_key nft tok (Npos s) (timestamp w) in
  price <> 0 /\ nftToListing w !! (nft, tok) = None /\ nftToAuction w !! (nft, tok) = None /\
  nftOwners w !! (nft, tok) = Some (Npos s) /\
  listings w' = <[k := Listing.mk k nft tok (Npos s) price true (timestamp w)]> (listings w) /\
  nftToListing w' = <[(nft, tok) := k]> (nftToListing w) /\
  activeListings w' = activeListings w ++ [k] /\
  nftOwners w' = <[(nft, tok) := self]> (nftOwners w).
Proof.
  intros H. destruct n as [|n]; [discriminate|]. cbn [run] in H. open_guarded H.
  unfold listItem in H. split_guards H.
  destruct (nftToListing _ !! _) eqn:EL; [discriminate|].
  destruct (nftToAuction _ !! _) eqn:EA; [discriminate|].
  bind_ok H. injection H as <-. run_ext_facts self hook n E. destruct Hn as [Hf Hn].
  cbv zeta. wsimp. rewrite HL, HNL, HAL, HT, Hn.
  apply N.eqb_neq in G. repeat split; assumption.
Qed.

Lemma cancelListing_run self hook n w s k v w' :
  run self hook n w (mkReq s (CancelListing k) v) = Ok w' ->
  exists l, listings w !! k = Some l /\ Listing.isActive l = true /\
    (Listing.seller l = Npos s \/ owner w = Npos s) /\
    listings w' = <[k := Listing.deactivate l]> (listings w) /\
    activeListings w' = removeFromActive k (activeListings w) /\
    nftToListing w' = delete (Listing.nftContract l, Listing.tokenId l) (nftToListing w) /\
    nftOwners w !! (Listing.nftContract l, Listing.tokenId l) = Some self /\
    nftOwners w' = <[(Listing.nftContract l, Listing.tokenId l) := Listing.seller l]> (nftOwners w).
Proof.
  intros H. destruct n as [|n]; [discriminate|]. cbn [run] in H. open_guarded H.
  unfold cancelListing in H. cbn [listings set_entered] in H.
  destruct (listings w !! k) as [l|] eqn:Hl; [|discriminate].
  split_guards H. bind_ok H. injection H as <-. run_ext_facts self hook n E. destruct Hn as [Hf Hn].
  exists l. wsimp. rewrite HL, HAL, HNL, Hn.
  rewrite (alter_some _ _ _ l) by exact Hl.
  split; [reflexivity|]. split; [destruct (Listing.isActive l); [reflexivity|discriminate]|].
  split.
  { apply andb_false_iff in G. destruct G as [G|G]; apply negb_false_iff, N.eqb_eq in G; auto. }
  repeat split; assumption.
Qed.

(** appending an absent key and removing it again gives the array back *)
Lemma removeFromActive_snoc k arr : k ∉ arr -> removeFromActive k (arr ++ [k]) = arr.
Proof.
  intros Hk. unfold removeFromActive.
  assert (Hf : list_find (fun x => x = k) (arr ++ [k]) = Some (length arr, k)).
  { apply list_find_Some. split; [|split].
    - rewrite lookup_app_r by lia. rewrite Nat.sub_diag. reflexivity.
    - reflexivity.
    - intros j y Hj Hy. rewrite lookup_app_l in Hj by lia.
      intros ->. apply Hk. eapply list_elem_of_lookup_2. exact Hj. }
  rewrite Hf, last_snoc, list_insert_id.
  - rewrite length_app. cbn. rewrite Nat.add_sub. apply take_app_length.
  - rewrite lookup_app_r by lia. rewrite Nat.sub_diag. reflexivity.
Qed.

Lemma owner_only_access_run self hook n w r :
  owner w <> Npos (sender r) -> owner_only (op r) = true ->
  run self hook (S n) w r = Err (if value r =? 0 then OwnableUnauthorizedAccount else NonPayable).
Proof.
  intros Ho G. destruct r as [s o v]. cbn [op sender value] in *.
  apply N.eqb_neq in Ho. cbn [run]. unfold step. cbn [op sender value].
  destruct o; try discriminate G; modifiers; destruct (v =? 0); rewrite ?Ho; reflexivity.
Qed.

(** * Properties of the marketplace *)

(** ** C1, X1 *)

Lemma reachable_nwf_conserved self hook w :
  hook_nwf hook -> reachable_nwf self hook w -> exists d, conserved d w.
Proof.
  intros Hh R. induction R as [d fee t nfts w Hd|w n r w' R IH Hop Hr|w t R IH Ht|w m R IH|w a R IH].
  - exists 0. exact (deploy_conserved _ _ _ _ _ Hd).
  - destruct IH as [d IH]. exists d.
    exact (run_conserved self hook n d w r w' Hh (reachable_nwf_Inv _ _ _ R) IH Hop Hr).
  - exact IH.
  - exact IH.
  - destruct IH as [d IH]. exists (d + a). unfold conserved in *.
    change (total (set_balance (balance w + a) w)) with (total w). cbn [balance set_balance]. lia.
Qed.



(** C1 (value conservation fails at [withdrawFees]). In a reachable
    world after a sale at 100 (fee 2, seller owed 98), the owner's
    [withdrawFees] sends the whole balance of 100 to the owner: the 98
    still owed in escrow is paid out, the contract holds 0 against 98 of
    escrow balances, and the seller's [withdrawProceeds] then reverts with
    [TransferFailed]. *)
Theorem withdrawFees_drains_escrow :
  reachable mkt no_hook W2 /\ escrow W2 = 98 /\ balance W2 = 100 /\
  exists w', run mkt no_hook 1 W2 (mkReq 1 WithdrawFees 0) = Ok w' /\
    escrow w' = 98 /\ balance w' = 0 /\ sent w' = [(1, 100)] /\
    run mkt no_hook 1 w' (mkReq 3 WithdrawProceeds 0) = Err TransferFailed.
Proof.
  split; [exact reach_W2|]. split; [vm_compute; reflexivity|]. split; [vm_compute; reflexivity|].
  exists (exec mkt no_hook 1 W2 (mkReq 1 WithdrawFees 0)). vm_compute. repeat split.
Qed.

(** ** C2 *)

(** C2 (ending an auction twice). A successful [endAuction] turns the
    auction's [isFinalized] from false to true (and [isActive] to false);
    a second [endAuction] on it, while not paused, reverts with
    [AuctionNotActive]: the [isFinalized] check that follows is never
    reached, and no [AuctionAlreadyFinalized] error exists. *)
Theorem end_twice_not_active self hook n m w w' k s1 s2 :
  run self hook n w (mkReq s1 (EndAuction k) 0) = Ok w' -> paused w' = false ->
  (exists a, auctions w !! k = Some a /\ Auction.isFinalized a = false /\
             auctions w' !! k = Some (Auction.finalize a)) /\
  run self hook (S m) w' (mkReq s2 (EndAuction k) 0) = Err AuctionNotActive.
Proof.
  intros H Hp'. destruct n as [|n]; [discriminate|]. cbn [run] in H. open_guarded H.
  destruct (endAuction_effect self _ (external_store self hook n) k (set_entered true w) _ eq_refl H)
    as (a & Ha & Hact & Hfin & HA).
  split.
  - exists a. split; [exact Ha|]. split; [exact Hfin|]. cbn. rewrite HA. apply lookup_insert_eq.
  - cbn [run]. unfold step. cbn [op sender value].
    unfold nonpayable, whenNotPaused, nonReentrant. cbn [N.eqb].
    rewrite Hp'. cbn [entered set_entered].
    unfold endAuction. cbn [auctions set_entered]. rewrite HA, lookup_insert_eq. reflexivity.
Qed.

Lemma end_twice_witness :
  run mkt no_hook 1 A4 (mkReq 4 (EndAuction key0) 0) = Ok A5 /\ paused A5 = false /\
  run mkt no_hook 1 A5 (mkReq 4 (EndAuction key0) 0) = Err AuctionNotActive.
Proof.
  split; [vm_compute; reflexivity|]. split; [vm_compute; reflexivity|].
  exact (proj2 (end_twice_not_active mkt no_hook 1 0 A4 A5 key0 4 4
                  ltac:(vm_compute; reflexivity) ltac:(vm_compute; reflexivity))).
Defined.

(** ** C3 *)

(** C3 (fixed-price settlement). A successful [buyNow] of listing [l]
    requires the tendered value to equal the price, credits the seller
    [price - price * fee / 10000] (fee rounded down), gives the buyer the
    token, and logs the fee [price * fee / 10000]. *)
Theorem buy_settlement self hook n w w' k l s v :
  listings w !! k = Some l -> run self hook n w (mkReq s (BuyNow k) v) = Ok w' ->
  v = Listing.price l /\
  proceeds_of w' (Listing.seller l) = proceeds_of w (Listing.seller l) +
    (Listing.price l - Listing.price l * marketplaceFeePercentage w / 10000) /\
  nftOwners w' !! (Listing.nftContract l, Listing.tokenId l) = Some (Npos s) /\
  last (events w') = Some (ItemBought k (Npos s) (Listing.price l)
                             (Listing.price l * marketplaceFeePercentage w / 10000)).
Proof.
  intros Hl H. destruct n as [|n]; [discriminate|]. cbn [run] in H. open_guarded H.
  destruct (buyNow_effect self _ (external_store self hook n) (Npos s) v k l
                  (set_entered true (set_balance (balance w + v) w)) _ eq_refl Hl H)
    as (Hv & (w1 & E & Ho) & Hpr & Hev).
  destruct (external_frame self hook n _ (set_entered true (set_balance (balance w + v) w)) _ eq_refl E)
    as [_ [_ Ho1]].
  split; [exact Hv|]. split; [exact Hpr|]. split; [|exact Hev].
  cbn. rewrite Ho, Ho1. apply lookup_insert_eq.
Qed.

Lemma buy_settlement_witness :
  listings W1 !! key0 = Some (Listing.mk key0 7 1 3 100 true 1000) /\
  proceeds_of W2 3 = proceeds_of W1 3 + (100 - 100 * marketplaceFeePercentage W1 / 10000).
Proof.
  split; [vm_compute; reflexivity|].
  exact (proj1 (proj2 (buy_settlement mkt no_hook 1 W1 W2 key0 (Listing.mk key0 7 1 3 100 true 1000) 4 100
                  ltac:(vm_compute; reflexivity) ltac:(vm_compute; reflexivity)))).
Defined.

(** Scenario A: listed at 100 with a 250 basis point fee and bought for
    100, the seller's escrow balance goes from 0 to 98 (fee 2), not 97. *)
Lemma buy_settlement_counterexample :
  marketplaceFeePercentage W1 = 250 /\ proceeds_of W1 3 = 0 /\
  run mkt no_hook 1 W1 (mkReq 4 (BuyNow key0) 100) = Ok W2 /\
  proceeds_of W2 3 = 98 /\ nftOwners W2 !! (7, 1) = Some 4.
Proof. vm_compute. repeat split. Qed.

(** ** C4 *)

(** C4 (pause coverage). While paused:
    - every [whenNotPaused] entry point ([listItem], [cancelListing],
      [buyNow], [createAuction], [placeBid], [endAuction]) reverts with
      [EnforcedPause] (a non-payable one given no value) and the world is
      unchanged;
    - [setMarketplaceFee], [transferOwnership] and [renounceOwnership]
      have the outcome they have when not paused, the flag staying set;
    - for the owner, [pause] reverts with [EnforcedPause], [unpause]
      succeeds and clears the flag, and [withdrawFees] pays the whole
      balance to the owner (a recipient making no calls back);
    - outside a call holding the lock, [withdrawProceeds] pays a positive
      escrow balance the contract can cover to its holder (a recipient
      making no calls back) and clears it. *)
Theorem pause_coverage self hook n w :
  paused w = true ->
  (forall r, pause_guarded (op r) = true ->
     (value r = 0 \/ is_payable (op r) = true) ->
     run self hook (S n) w r = Err EnforcedPause /\ exec self hook (S n) w r = w) /\
  (forall r, pause_free (op r) = true ->
     run self hook (S n) w r =
       res_map (set_paused true) (run self hook (S n) (set_paused false w) r)) /\
  (forall s, owner w = Npos s ->
     run self hook (S n) w (mkReq s Pause 0) = Err EnforcedPause /\
     run self hook (S n) w (mkReq s Unpause 0) =
       Ok (emit (Unpaused (Npos s)) (set_paused false w)) /\
     ((forall x, cb_calls (hook (EthSend (Npos s) (balance w)) x) = []) ->
      exists w', run self hook (S n) w (mkReq s WithdrawFees 0) = Ok w' /\
        balance w' = 0 /\ sent w' = sent w ++ [(Npos s, balance w)])) /\
  (forall s, entered w = false -> proceeds_of w (Npos s) <> 0 ->
     proceeds_of w (Npos s) <= balance w ->
     (forall x, cb_calls (hook (EthSend (Npos s) (proceeds_of w (Npos s))) x) = []) ->
     exists w', run self hook (S n) w (mkReq s WithdrawProceeds 0) = Ok w' /\
       proceeds_of w' (Npos s) = 0 /\ balance w' = balance w - proceeds_of w (Npos s) /\
       sent w' = sent w ++ [(Npos s, proceeds_of w (Npos s))]).
Proof.
  intros Hp. split; [|split; [|split]].
  - intros r G Hv.
    assert (R : run self hook (S n) w r = Err EnforcedPause).
    { destruct r as [s o v]. cbn [op value] in G, Hv. cbn [run]. unfold step. cbn [op sender value].
      destruct o; try discriminate G; modifiers; cbn [paused set_balance];
        try (rewrite Hp; reflexivity);
        (destruct Hv as [-> | Hv]; [|discriminate Hv]); cbn [N.eqb]; rewrite Hp; reflexivity. }
    split; [exact R|]. unfold exec. rewrite R. reflexivity.
  - intros [s o v] G. cbn [op] in G.
    destruct w as [L A NL NA P AL AA F Pz E O B T NO S EV]; cbn in Hp; subst Pz.
    destruct o; try discriminate G; cbn [run]; unfold step; cbn [op sender value]; modifiers;
    unfold setMarketplaceFee, transferOwnership, renounceOwnership; cbn;
    repeat match goal with |- context [if ?b then _ else _] => destruct b end; reflexivity.
  - intros s Ho. split; [|split].
    + cbn [run]. unfold step. cbn [op sender value]. modifiers. unfold pause.
      rewrite Ho, (N.eqb_refl (N.pos s)). cbn [N.eqb]. rewrite Hp. reflexivity.
    + cbn [run]. unfold step. cbn [op sender value]. modifiers. unfold unpause.
      rewrite Ho, (N.eqb_refl (N.pos s)). cbn [N.eqb]. rewrite Hp. reflexivity.
    + intros Hcb. cbn [run]. unfold step. cbn [op sender value]. modifiers. unfold withdrawFees.
      rewrite Ho, (N.eqb_refl (N.pos s)). cbn [N.eqb]. unfold external. rewrite N.leb_refl.
      rewrite Hcb. cbn [nested].
      eexists. split; [reflexivity|]. cbn. split; [lia|reflexivity].
  - intros s Hent Hne Hle Hcb. cbn [run]. unfold step. cbn [op sender value]. modifiers.
    cbn [N.eqb]. rewrite Hent. unfold withdrawProceeds.
    change (proceeds_of (set_entered true w) (Npos s)) with (proceeds_of w (Npos s)).
    apply N.eqb_neq in Hne. rewrite Hne. unfold external.
    change (balance (set_proceeds (<[Npos s:=0]> (proceeds (set_entered true w))) (set_entered true w)))
      with (balance w).
    apply N.leb_le in Hle. rewrite Hle. rewrite Hcb. cbn [nested].
    eexists. split; [reflexivity|]. unfold proceeds_of. cbn. rewrite lookup_insert_eq. cbn.
    split; [reflexivity|split; reflexivity].
Qed.

Lemma pause_coverage_witness :
  paused W3 = true /\
  run mkt no_hook 1 W3 (mkReq 4 (ListItem 7 1 100) 0) = Err EnforcedPause /\
  run mkt no_hook 1 W3 (mkReq 1 Unpause 0) = Ok (emit (Unpaused 1) (set_paused false W3)) /\
  exists w', run mkt no_hook 1 W3 (mkReq 3 WithdrawProceeds 0) = Ok w' /\
    proceeds_of w' 3 = 0 /\ sent w' = sent W3 ++ [(3, 98)].
Proof.
  assert (Hp : paused W3 = true) by (vm_compute; reflexivity).
  destruct (pause_coverage mkt no_hook 0 W3 Hp) as (Hg & _ & Ho & Hw).
  split; [exact Hp|]. split.
  { exact (proj1 (Hg (mkReq 4 (ListItem 7 1 100) 0) eq_refl (or_introl eq_refl))). }
  split.
  { exact (proj1 (proj2 (Ho 1%positive ltac:(vm_compute; reflexivity)))). }
  destruct (Hw 3%positive ltac:(vm_compute; reflexivity) ltac:(vm_compute; discriminate)
              ltac:(vm_compute; discriminate) (fun _ => eq_refl)) as (w' & Hr & Hz & _ & Hs).
  exists w'. split; [exact Hr|]. split; [exact Hz|]. rewrite Hs. vm_compute. reflexivity.
Defined.

(** While paused, [withdrawProceeds] succeeds: the seller of the sale
    above is paid 98 and the escrow balance is cleared. *)
Lemma pause_coverage_counterexample :
  paused W3 = true /\
  exists w', run mkt no_hook 1 W3 (mkReq 3 WithdrawProceeds 0) = Ok w' /\
    sent w' = [(3, 98)] /\ proceeds_of w' 3 = 0 /\ balance w' = 2.
Proof.
  split; [vm_compute; reflexivity|].
  exists (exec mkt no_hook 1 W3 (mkReq 3 WithdrawProceeds 0)). vm_compute. repeat split.
Qed.

(** ** C5 *)



(** ** C6 *)

(** C6 (exclusivity). In every reachable world an asset has at most one
    active listing, at most one active auction, and never both; a
    [listItem] or [createAuction] call for an asset on sale (value 0, not
    paused, its argument checks passing) reverts with [NFTAlreadyListed]
    when the asset is listed, with [NFTAlreadyAuctioned] when it is
    auctioned, and leaves the world unchanged. *)
Theorem exclusivity self hook w :
  reachable self hook w ->
  exclusive w /\
  forall n r x, sale_request (op r) = Some x -> value r = 0 -> paused w = false ->
    (listed w x -> run self hook (S n) w r = Err NFTAlreadyListed) /\
    (auctioned w x -> run self hook (S n) w r = Err NFTAlreadyAuctioned) /\
    (listed w x \/ auctioned w x -> exec self hook (S n) w r = w).
Proof.
  intros R. destruct (reachable_Inv _ _ _ R) as [Hent Hinv].
  split; [exact (InvS_exclusive _ Hinv)|].
  intros n r x Hx Hv Hp.
  assert (HL : listed w x -> nftToListing w !! x <> None).
  { intros (k & l & Hk & Ha & <-). rewrite (listing_indexed _ _ _ Hinv Hk Ha). discriminate. }
  assert (HA : auctioned w x -> nftToListing w !! x = None /\ nftToAuction w !! x <> None).
  { intros (k & a & Hk & Ha & <-). pose proof (auction_indexed _ _ _ Hinv Hk Ha) as I.
    destruct Hinv as (_ & _ & IX & _).
    split; [destruct (IX (Auction.nftContract a, Auction.tokenId a)); congruence|].
    rewrite I. discriminate. }
  assert (Hrun : forall e,
            (nftToListing w !! x <> None /\ e = NFTAlreadyListed) \/
            (nftToListing w !! x = None /\ nftToAuction w !! x <> None /\ e = NFTAlreadyAuctioned) ->
            run self hook (S n) w r = Err e).
  { intros e He. destruct r as [s o v]. cbn [op value] in Hx, Hv. subst v.
    cbn [run]. unfold step. cbn [op sender value].
    unfold nonpayable, whenNotPaused, nonReentrant. cbn [N.eqb]. rewrite Hp, Hent.
    destruct o; cbn in Hx; try discriminate Hx.
    - destruct (price =? 0) eqn:Hpr; [discriminate|]. injection Hx as <-.
      unfold listItem. rewrite Hpr. cbn [nftToListing nftToAuction set_entered].
      destruct He as [[Hl ->]|[Hl [Ha ->]]].
      + destruct (nftToListing w !! _); [reflexivity|congruence].
      + rewrite Hl. destruct (nftToAuction w !! _); [reflexivity|congruence].
    - destruct (_ || _) eqn:Hc; [discriminate|]. injection Hx as <-.
      apply orb_false_iff in Hc as [Hc1 Hc2].
      unfold createAuction. rewrite Hc1, Hc2. cbn [nftToListing nftToAuction set_entered].
      destruct He as [[Hl ->]|[Hl [Ha ->]]].
      + destruct (nftToListing w !! _); [reflexivity|congruence].
      + rewrite Hl. destruct (nftToAuction w !! _); [reflexivity|congruence]. }
  split; [|split].
  - intros Hl. apply Hrun. left. split; [exact (HL Hl)|reflexivity].
  - intros Ha. apply Hrun. right. destruct (HA Ha) as [H1 H2]. auto.
  - intros Hs. unfold exec.
    destruct Hs as [Hl|Ha].
    + rewrite (Hrun NFTAlreadyListed) by (left; split; [exact (HL Hl)|reflexivity]). reflexivity.
    + rewrite (Hrun NFTAlreadyAuctioned)
        by (right; destruct (HA Ha) as [H1 H2]; auto). reflexivity.
Qed.

Lemma exclusivity_witness :
  exclusive W1 /\
  run mkt no_hook 1 W1 (mkReq 5 (CreateAuction 7 1 10 3600) 0) = Err NFTAlreadyListed.
Proof.
  destruct (exclusivity mkt no_hook W1 reach_W1) as [Ex Hr].
  split; [exact Ex|].
  apply (proj1 (Hr 0%nat (mkReq 5 (CreateAuction 7 1 10 3600) 0) (7, 1)
                  eq_refl eq_refl ltac:(vm_compute; reflexivity))).
  exists key0, (Listing.mk key0 7 1 3 100 true 1000).
  split; [vm_compute; reflexivity|]. split; reflexivity.
Defined.

(** ** C7 *)

(** C7 (monotonic bidding). Take an auction [a] at [k] in a reachable
    world: a successful bid on it is strictly above [a]'s highest bid and
    becomes the new highest bid; a bid at or below it on the running
    auction reverts with [BidTooLow]; and no transaction lowers the
    highest bid of the auction (or removes it). *)
Theorem monotonic_bidding self hook n w k a s v :
  reachable self hook w -> auctions w !! k = Some a ->
  (forall w', run self hook n w (mkReq s (PlaceBid k) v) = Ok w' ->
     Auction.highestBid a < v /\
     exists a', auctions w' !! k = Some a' /\ Auction.highestBid a' = v) /\
  (paused w = false -> Auction.isActive a = true -> timestamp w < Auction.endTime a ->
   v <= Auction.highestBid a ->
   run self hook (S n) w (mkReq s (PlaceBid k) v) = Err BidTooLow) /\
  (forall r w', run self hook n w r = Ok w' ->
     exists a', auctions w' !! k = Some a' /\ Auction.highestBid a <= Auction.highestBid a').
Proof.
  intros R Ha. destruct (reachable_Inv _ _ _ R) as [Hent Hinv].
  split; [|split].
  - intros w' H. destruct n as [|n]; [discriminate|]. cbn [run] in H. open_guarded H.
    destruct (placeBid_effect (Npos s) v k a (set_entered true (set_balance (balance w + v) w)) _ Ha H)
      as (Hlt & _ & _ & (et & HA) & _).
    split; [exact Hlt|]. exists (Auction.bid a v (Npos s) et). cbn. rewrite HA, lookup_insert_eq.
    split; reflexivity.
  - intros Hp Hact Ht Hv. cbn [run]. unfold step. cbn [op sender value].
    unfold payable, whenNotPaused, nonReentrant.
    change (paused (set_balance (balance w + v) w)) with (paused w).
    change (entered (set_balance (balance w + v) w)) with (entered w).
    rewrite Hp, Hent. unfold placeBid.
    change (auctions (set_entered true (set_balance (balance w + v) w))) with (auctions w).
    change (timestamp (set_entered true (set_balance (balance w + v) w))) with (timestamp w).
    rewrite Ha, Hact. cbn [negb].
    replace (Auction.endTime a <=? timestamp w) with false by (symmetry; apply N.leb_gt; lia).
    replace (v <=? Auction.highestBid a) with true by (symmetry; apply N.leb_le; lia).
    reflexivity.
  - intros r w' H. exact (run_bids_kept self hook n w r w' (conj Hent Hinv) H k a Ha).
Qed.

Lemma monotonic_bidding_witness :
  auctions A2 !! key0 = Some (Auction.mk key0 7 1 3 10 50 4 4600 true false 1000) /\
  run mkt no_hook 1 A2 (mkReq 5 (PlaceBid key0) 50) = Err BidTooLow.
Proof.
  split; [vm_compute; reflexivity|].
  exact (proj1 (proj2 (monotonic_bidding mkt no_hook 0 A2 key0
                         (Auction.mk key0 7 1 3 10 50 4 4600 true false 1000) 5 50
                         reach_A2 ltac:(vm_compute; reflexivity)))
           ltac:(vm_compute; reflexivity) eq_refl ltac:(vm_compute; reflexivity) (N.le_refl 50)).
Defined.

(** ** C8 *)

(** C8 (withdraw semantics). Called from outside (lock free) with no
    value, [withdrawProceeds] reverts with [NoBids] exactly when the
    caller's escrow balance is 0; on success the balance is 0 afterwards,
    the first payment made is the whole prior balance to the caller, and
    a repeated call reverts with [NoBids]; when the balance is not 0 and
    the call reverts, the error is [TransferFailed] and the world is
    unchanged.  The balance is zeroed before the payment: callees that
    behave alike on worlds where the caller's balance is 0 give the same
    outcome. *)
Theorem withdraw_semantics self hook n w s :
  entered w = false ->
  (run self hook (S n) w (mkReq s WithdrawProceeds 0) = Err NoBids <->
   proceeds_of w (Npos s) = 0) /\
  (forall w', run self hook (S n) w (mkReq s WithdrawProceeds 0) = Ok w' ->
     proceeds_of w' (Npos s) = 0 /\
     (exists rest, sent w' = sent w ++ (Npos s, proceeds_of w (Npos s)) :: rest) /\
     forall m, run self hook (S m) w' (mkReq s WithdrawProceeds 0) = Err NoBids) /\
  (forall e, proceeds_of w (Npos s) <> 0 ->
     run self hook (S n) w (mkReq s WithdrawProceeds 0) = Err e ->
     e = TransferFailed /\ exec self hook (S n) w (mkReq s WithdrawProceeds 0) = w) /\
  (forall hook', (forall c x, proceeds_of x (Npos s) = 0 -> hook' c x = hook c x) ->
     run self hook' (S n) w (mkReq s WithdrawProceeds 0) =
     run self hook (S n) w (mkReq s WithdrawProceeds 0)).
Proof.
  intros Hent. split; [|split; [|split]].
  - rewrite run_withdraw by exact Hent.
    destruct (proceeds_of w (N.pos s) =? 0) eqn:Z.
    + apply N.eqb_eq in Z. split; [intros _; exact Z|reflexivity].
    + apply N.eqb_neq in Z. split; [|intros; contradiction].
      destruct (external _ _ _ _); discriminate.
  - intros w' H. rewrite run_withdraw in H by exact Hent.
    destruct (proceeds_of w (N.pos s) =? 0); [discriminate|].
    destruct (external _ _ _ _) as [w2|] eqn:E; [|discriminate]. injection H as <-.
    pose proof (external_store self hook n _ (set_proceeds (<[N.pos s:=0]> (proceeds w)) (set_entered true w)) _ eq_refl E) as Hs.
    apply external_send_sent in E as [_ [rest Hr]]; [|reflexivity].
    assert (Z : proceeds_of (set_entered false (emit (ProceedsWithdrawn (N.pos s) (proceeds_of w (N.pos s))) w2)) (N.pos s) = 0).
    { unfold proceeds_of. cbn. rewrite (store_proceeds _ _ Hs). cbn. rewrite lookup_insert_eq. reflexivity. }
    split; [exact Z|]. split.
    + exists rest. cbn. exact Hr.
    + intros m. rewrite run_withdraw by reflexivity. rewrite Z. reflexivity.
  - intros e Hne H. assert (H' := H). rewrite run_withdraw in H by exact Hent.
    apply N.eqb_neq in Hne. rewrite Hne in H.
    split; [destruct (external _ _ _ _); congruence|].
    unfold exec. rewrite H'. reflexivity.
  - intros hook' Hh. rewrite !run_withdraw by exact Hent.
    destruct (proceeds_of w (N.pos s) =? 0); [reflexivity|].
    set (Pw := fun x => proceeds_of x (N.pos s) = 0).
    assert (HPw : forall x y, store x = store y -> Pw x -> Pw y).
    { unfold Pw, proceeds_of. intros x y Hs. rewrite (store_proceeds _ _ Hs). auto. }
    rewrite (external_hook_congr self hook' hook Pw HPw Hh n
               (run_hook_congr self hook' hook Pw HPw Hh n)).
    + reflexivity.
    + reflexivity.
    + unfold Pw, proceeds_of. cbn. rewrite lookup_insert_eq. reflexivity.
Qed.

Lemma withdraw_semantics_witness :
  entered W2 = false /\
  (run mkt no_hook 1 W2 (mkReq 3 WithdrawProceeds 0) = Err NoBids <-> proceeds_of W2 3 = 0).
Proof.
  split; [vm_compute; reflexivity|].
  exact (proj1 (withdraw_semantics mkt no_hook 0 W2 3 ltac:(vm_compute; reflexivity))).
Defined.

(** ** C9 *)

(** C9 (reentrancy guard). A call into a [nonReentrant] entry point
    ([listItem], [cancelListing], [buyNow], [createAuction], [placeBid],
    [endAuction], [withdrawProceeds]) made while the lock is held (that
    is, from a callee of one of these seven entry points) reverts
    (with [ReentrancyGuardReentrantCall], or earlier with [NonPayable] or
    [EnforcedPause]) and changes nothing; so when callees only call those
    entry points back and catch the failures, every call other than
    [withdrawFees] has the outcome it has with callees that do not call
    back.  The owner-only entry points, [withdrawFees] among them, carry
    no lock. *)
Theorem reentrancy_guard self hook n w r :
  (entered w = true -> lock_guarded (op r) = true ->
   (run self hook (S n) w r = Err ReentrancyGuardReentrantCall \/
    run self hook (S n) w r = Err NonPayable \/
    run self hook (S n) w r = Err EnforcedPause) /\
   exec self hook (S n) w r = w) /\
  ((forall c x, cb_propagates (hook c x) = false /\
                Forall (fun q => lock_guarded (op q) = true) (cb_calls (hook c x))) ->
   op r <> WithdrawFees -> run self hook n w r = run self no_hook n w r).
Proof.
  split.
  - intros Hent G.
    assert (R : run self hook (S n) w r = Err ReentrancyGuardReentrantCall \/
                run self hook (S n) w r = Err NonPayable \/
                run self hook (S n) w r = Err EnforcedPause).
    { destruct r as [s o v]. cbn [op] in G. cbn [run]. unfold step. cbn [op sender value].
      destruct o; try discriminate G; modifiers; cbn [paused entered set_balance]; rewrite ?Hent;
        repeat match goal with |- context [if ?b then _ else _] => destruct b end; auto. }
    split; [exact R|]. unfold exec.
    destruct R as [R|[R|R]]; rewrite R; reflexivity.
  - intros Hh Hop. exact (run_guard_only self hook n w r Hh Hop).
Qed.

Lemma reentrancy_guard_witness :
  run mkt no_hook 1 (set_entered true W1) (mkReq 4 (BuyNow key0) 100) =
    Err ReentrancyGuardReentrantCall.
Proof.
  destruct (proj1 (reentrancy_guard mkt no_hook 0 (set_entered true W1) (mkReq 4 (BuyNow key0) 100))
              eq_refl eq_refl) as [[R|[R|R]] _];
    [exact R | vm_compute in R; discriminate R | vm_compute in R; discriminate R].
Defined.

(** Two calls back that succeed.  The owner sells its token at 100
    (fee 2); its [withdrawProceeds] pays it 98, and on receipt it calls
    [pause] back: the call back, made while the lock is held, succeeds and
    the marketplace ends up paused.  Right after deployment the owner
    calls [withdrawFees] (balance 0); on receipt it calls [listItem] back:
    [withdrawFees] holds no lock, the listing is opened and the
    marketplace takes the token. *)
Lemma reentrancy_guard_counterexample :
  (paused V2 = false /\ proceeds_of V2 1 = 98 /\
   exists w', run mkt pause_on_receipt 2 V2 (mkReq 1 WithdrawProceeds 0) = Ok w' /\
     paused w' = true /\ sent w' = [(1, 98)] /\ last (events w') = Some (ProceedsWithdrawn 1 98)) /\
  (deploy 1 250 1000 nfts1 = Ok V0 /\
   exists w', run mkt list_on_receipt 2 V0 (mkReq 1 WithdrawFees 0) = Ok w' /\
     activeListings w' = [keyV] /\ nftOwners w' !! (7, 1) = Some mkt /\ sent w' = [(1, 0)]).
Proof.
  split.
  - split; [vm_compute; reflexivity|]. split; [vm_compute; reflexivity|].
    exists (exec mkt pause_on_receipt 2 V2 (mkReq 1 WithdrawProceeds 0)). vm_compute. repeat split.
  - split; [reflexivity|].
    exists (exec mkt list_on_receipt 2 V0 (mkReq 1 WithdrawFees 0)). vm_compute. repeat split.
Qed.

(** ** C10 *)

(** C10 (starting bid not enforced). On a running auction with no bid
    yet, any bid above 0 succeeds, also one below the auction's
    [startingBid], and becomes the highest bid: [startingBid] is only
    recorded. *)
Theorem starting_bid_unenforced self hook n w k a s v :
  entered w = false -> paused w = false -> auctions w !! k = Some a ->
  Auction.isActive a = true -> Auction.highestBid a = 0 -> Auction.highestBidder a = 0 ->
  timestamp w < Auction.endTime a -> timestamp w + AUCTION_EXTENSION_TIME <= UINT256_MAX ->
  0 < v -> v < Auction.startingBid a ->
  exists w' a', run self hook (S n) w (mkReq s (PlaceBid k) v) = Ok w' /\
    auctions w' !! k = Some a' /\ Auction.highestBid a' = v /\
    Auction.highestBidder a' = Npos s /\ Auction.startingBid a' = Auction.startingBid a.
Proof.
  intros Hent Hp Ha Hact Hhb Hb Ht Hov Hv Hsb.
  destruct (placeBid_first (Npos s) v k a (set_entered true (set_balance (balance w + v) w))
              Ha Hact Ht ltac:(rewrite Hhb; exact Hv) Hb Hov) as [et Hpb].
  do 2 eexists. split.
  - cbn [run]. unfold step. cbn [op sender value].
    unfold payable, whenNotPaused, nonReentrant. rewrite Hpb.
    change (paused (set_balance (balance w + v) w)) with (paused w).
    change (entered (set_balance (balance w + v) w)) with (entered w).
    rewrite Hp, Hent. reflexivity.
  - cbn. rewrite lookup_insert_eq. split; [reflexivity|]. cbn. auto.
Qed.

Lemma starting_bid_unenforced_witness :
  exists w' a', run mkt no_hook 1 A1 (mkReq 4 (PlaceBid key0) 5) = Ok w' /\
    auctions w' !! key0 = Some a' /\ Auction.highestBid a' = 5 /\
    Auction.highestBidder a' = 4 /\ Auction.startingBid a' = 10.
Proof.
  exact (starting_bid_unenforced mkt no_hook 0 A1 key0
           (Auction.mk key0 7 1 3 10 0 0 4600 true false 1000) 4 5
           ltac:(vm_compute; reflexivity) ltac:(vm_compute; reflexivity)
           ltac:(vm_compute; reflexivity) eq_refl eq_refl eq_refl
           ltac:(vm_compute; reflexivity) ltac:(vm_compute; discriminate)
           ltac:(vm_compute; reflexivity) ltac:(vm_compute; reflexivity)).
Defined.

(** * Further properties of the code *)

(** ** X2 *)

(** X2 ([_removeFromActiveListings] / [_removeFromActiveAuctions]). An
    array without the key is left as it is. Otherwise the result holds,
    in some order, the array with the first occurrence of the key deleted
    (a later duplicate stays). On an array without duplicates the result
    has no duplicates and holds exactly the other elements. *)
Theorem removeFromActive_spec k arr :
  (k ∉ arr -> removeFromActive k arr = arr) /\
  (forall i, arr !! i = Some k -> (forall j, (j < i)%nat -> arr !! j <> Some k) ->
     removeFromActive k arr ≡ₚ delete i arr) /\
  (NoDup arr -> NoDup (removeFromActive k arr) /\
     forall x, x ∈ removeFromActive k arr <-> x ∈ arr /\ x <> k).
Proof.
  split; [apply removeFromActive_notin|].
  split; [intros i; apply removeFromActive_first|apply removeFromActive_NoDup].
Qed.

Lemma removeFromActive_spec_witness :
  removeFromActive key0 [key0; sale_key 7 2 3 1000; key0] = [key0; sale_key 7 2 3 1000] /\
  removeFromActive key0 [key0; sale_key 7 2 3 1000; key0] ≡ₚ
    delete 0%nat [key0; sale_key 7 2 3 1000; key0].
Proof.
  split; [vm_compute; reflexivity|].
  apply (proj1 (proj2 (removeFromActive_spec key0 [key0; sale_key 7 2 3 1000; key0])) 0%nat).
  - reflexivity.
  - intros j Hj. lia.
Defined.

(** ** X3 *)

(** X3 (active arrays). In every reachable world the array returned by
    [getActiveListings] has no duplicates and holds exactly the
    identifiers whose [getListing] record is active; the same holds for
    [getActiveAuctions] and [getAuction]. *)
Theorem active_arrays self hook w :
  reachable self hook w ->
  NoDup (getActiveListings w) /\
  (forall k, k ∈ getActiveListings w <->
     exists l, getListing w k = Some l /\ Listing.isActive l = true) /\
  NoDup (getActiveAuctions w) /\
  (forall k, k ∈ getActiveAuctions w <->
     exists a, getAuction w k = Some a /\ Auction.isActive a = true).
Proof.
  intros R. destruct (reachable_active self hook w R) as [[H1 H2] [H3 H4]].
  exact (conj H1 (conj H2 (conj H3 H4))).
Qed.

Lemma active_arrays_witness :
  reachable mkt no_hook A2 /\
  (forall k, k ∈ getActiveAuctions A2 <->
     exists a, getAuction A2 k = Some a /\ Auction.isActive a = true).
Proof.
  split; [exact reach_A2|].
  exact (proj2 (proj2 (proj2 (active_arrays mkt no_hook A2 reach_A2)))).
Defined.

(** ** X4 *)

(** X4 (custody). From a reachable world in which the marketplace holds
    the token of every active listing and auction, a successful call
    leads to a world in which it still does, whatever the callees do. *)
Theorem custody_kept self hook n w r w' :
  reachable self hook w -> custody self w -> run self hook n w r = Ok w' -> custody self w'.
Proof. intros R. apply run_custody. exact (reachable_Inv _ _ _ R). Qed.

Lemma custody_kept_witness : custody mkt W1.
Proof.
  apply (custody_kept mkt no_hook 1 W0 (mkReq 3 (ListItem 7 1 100) 0)).
  - apply (reach_deploy _ _ 1 250 1000 nfts0). reflexivity.
  - split; intros k ? Hk; unfold W0 in Hk; cbn in Hk; rewrite lookup_empty in Hk; discriminate.
  - vm_compute. reflexivity.
Defined.

(** ** X5 *)

(** X5 (fee bound). In every reachable world the marketplace fee is at
    most [MAX_MARKETPLACE_FEE] (1000 basis points), so the fee taken on
    any price is at most a tenth of it. *)
Theorem fee_bounded self hook w :
  reachable self hook w ->
  marketplaceFeePercentage w <= MAX_MARKETPLACE_FEE /\
  forall price, price * marketplaceFeePercentage w / 10000 <= price / 10.
Proof.
  intros R. assert (Hf : marketplaceFeePercentage w <= MAX_MARKETPLACE_FEE).
  { induction R as [d fee t nfts w Hd|w n r w' _ IH Hr|w t _ IH Ht|w m _ IH].
    - unfold deploy in Hd. destruct (_ <? _) eqn:E; [discriminate|]. injection Hd as <-.
      cbn. apply N.ltb_ge in E. exact E.
    - exact (run_fee_bounded self hook n w r w' IH Hr).
    - exact IH.
    - exact IH. }
  split; [exact Hf|]. intros p. apply N_fee_share. exact Hf.
Qed.

Lemma fee_bounded_witness :
  reachable mkt no_hook W2 /\ marketplaceFeePercentage W2 <= MAX_MARKETPLACE_FEE.
Proof. split; [exact reach_W2|]. exact (proj1 (fee_bounded mkt no_hook W2 reach_W2)). Defined.

(** ** X6 *)

(** X6 (renouncing ownership is final). After a successful
    [renounceOwnership], whatever transactions follow, the owner stays
    [address(0)] and every owner-only function ([setMarketplaceFee],
    [pause], [unpause], [withdrawFees], [transferOwnership],
    [renounceOwnership]) reverts. *)
Theorem renounce_permanent self hook n w s w' txs :
  run self hook n w (mkReq s RenounceOwnership 0) = Ok w' ->
  owner (exec_all self hook w' txs) = 0 /\
  forall m r, owner_only (op r) = true ->
    exists e, run self hook m (exec_all self hook w' txs) r = Err e.
Proof.
  intros H.
  assert (H0 : owner w' = 0).
  { destruct n as [|n]; [discriminate|]. cbn [run] in H. unfold step in H. cbn [op sender value] in H.
    modifiers. cbn [N.eqb] in H. destruct (owner w =? N.pos s); [|discriminate].
    unfold renounceOwnership in H. injection H as <-. reflexivity. }
  pose proof (exec_all_owner_zero self hook txs w' H0) as Hz.
  split; [exact Hz|]. intros [|m] r G; [eexists; reflexivity|].
  eexists. apply owner_only_access_run; [|exact G]. rewrite Hz. discriminate.
Qed.

Lemma renounce_permanent_witness :
  exists e, run mkt no_hook 1
    (exec_all mkt no_hook (exec mkt no_hook 1 W0 (mkReq 1 RenounceOwnership 0))
       [(1%nat, mkReq 1 (TransferOwnership 1) 0)])
    (mkReq 1 Unpause 0) = Err e.
Proof.
  exact (proj2 (renounce_permanent mkt no_hook 1 W0 1 _ [(1%nat, mkReq 1 (TransferOwnership 1) 0)]
                  ltac:(vm_compute; reflexivity)) 1%nat (mkReq 1 Unpause 0) eq_refl).
Defined.

(** ** X7 *)

(** X7 (owner-only functions). A call of an owner-only function by an
    account other than the owner reverts, with [NonPayable] when value is
    sent and with [OwnableUnauthorizedAccount] otherwise. *)
Theorem owner_only_access self hook n w r :
  owner w <> Npos (sender r) -> owner_only (op r) = true ->
  run self hook (S n) w r = Err (if value r =? 0 then OwnableUnauthorizedAccount else NonPayable).
Proof. exact (owner_only_access_run self hook n w r). Qed.

Lemma owner_only_access_witness :
  run mkt no_hook 1 W1 (mkReq 3 Pause 0) = Err OwnableUnauthorizedAccount.
Proof.
  exact (owner_only_access mkt no_hook 0 W1 (mkReq 3 Pause 0)
           ltac:(vm_compute; discriminate) eq_refl).
Defined.

(** ** X8 *)

(** X8 (only [buyNow] and [placeBid] take value). A call that sends value
    and succeeds is a call of [buyNow] or of [placeBid]; every other entry
    point reverts when value is sent. *)
Theorem payable_only self hook n w r w' :
  run self hook n w r = Ok w' -> value r <> 0 ->
  exists k, op r = BuyNow k \/ op r = PlaceBid k.
Proof.
  intros H Hv. destruct n as [|n]; [discriminate|]. cbn [run] in H.
  destruct r as [s o v]. cbn [op value] in *. unfold step in H. cbn [op sender value] in H.
  destruct o; eauto;
  match type of H with
  | nonpayable _ _ _ = Ok _ => apply nonpayable_ok in H as [Hz _]; contradiction
  end.
Qed.

Lemma payable_only_witness :
  run mkt no_hook 1 W1 (mkReq 4 (BuyNow key0) 100) = Ok W2 /\
  exists k, op (mkReq 4 (BuyNow key0) 100) = BuyNow k \/ op (mkReq 4 (BuyNow key0) 100) = PlaceBid k.
Proof.
  split; [vm_compute; reflexivity|].
  exact (payable_only mkt no_hook 1 W1 (mkReq 4 (BuyNow key0) 100) W2
           ltac:(vm_compute; reflexivity) ltac:(vm_compute; discriminate)).
Defined.

(** ** X9 *)

(** X9 ([listItem]). A successful [listItem(nft, tok, price)] by [s] at
    time [t] had a nonzero price, an asset listed and auctioned nowhere,
    owned by [s]. It stores the active listing under the identifier
    [(nft, tok, s, t)] and changes no other listing, indexes the asset
    under it, appends it to the active listings, and moves the token to
    the marketplace. *)
Theorem listItem_outcome self hook n w s nft tok price v w' :
  run self hook n w (mkReq s (ListItem nft tok price) v) = Ok w' ->
  let k := sale_key nft tok (Npos s) (timestamp w) in
  price <> 0 /\ nftToListing w !! (nft, tok) = None /\ nftToAuction w !! (nft, tok) = None /\
  nftOwners w !! (nft, tok) = Some (Npos s) /\
  listings w' = <[k := Listing.mk k nft tok (Npos s) price true (timestamp w)]> (listings w) /\
  nftToListing w' = <[(nft, tok) := k]> (nftToListing w) /\
  activeListings w' = activeListings w ++ [k] /\
  nftOwners w' = <[(nft, tok) := self]> (nftOwners w).
Proof. exact (listItem_run self hook n w s nft tok price v w'). Qed.

Lemma listItem_outcome_witness :
  activeListings W1 = activeListings W0 ++ [sale_key 7 1 3 (timestamp W0)] /\
  nftOwners W1 = <[(7, 1) := mkt]> (nftOwners W0).
Proof.
  pose proof (listItem_outcome mkt no_hook 1 W0 3 7 1 100 0 W1 ltac:(vm_compute; reflexivity)) as H.
  cbv zeta in H. destruct H as (_ & _ & _ & _ & _ & _ & HA & HN). exact (conj HA HN).
Defined.

(** ** X10 *)

(** X10 ([cancelListing]). A successful [cancelListing(k)] by [s] found an
    active listing under [k] whose seller or the owner is [s]. It marks
    that listing inactive, removes [k] from the active listings with the
    swap-and-pop removal, drops the asset's index entry, and moves the
    token from the marketplace back to the seller. *)
Theorem cancelListing_outcome self hook n w s k v w' :
  run self hook n w (mkReq s (CancelListing k) v) = Ok w' ->
  exists l, listings w !! k = Some l /\ Listing.isActive l = true /\
    (Listing.seller l = Npos s \/ owner w = Npos s) /\
    listings w' = <[k := Listing.deactivate l]> (listings w) /\
    activeListings w' = removeFromActive k (activeListings w) /\
    nftToListing w' = delete (Listing.nftContract l, Listing.tokenId l) (nftToListing w) /\
    nftOwners w !! (Listing.nftContract l, Listing.tokenId l) = Some self /\
    nftOwners w' = <[(Listing.nftContract l, Listing.tokenId l) := Listing.seller l]> (nftOwners w).
Proof. exact (cancelListing_run self hook n w s k v w'). Qed.

Lemma cancelListing_outcome_witness :
  exists l, listings W1 !! key0 = Some l /\
    nftOwners (exec mkt no_hook 1 W1 (mkReq 3 (CancelListing key0) 0)) =
      <[(Listing.nftContract l, Listing.tokenId l) := Listing.seller l]> (nftOwners W1).
Proof.
  destruct (cancelListing_outcome mkt no_hook 1 W1 3 key0 0 _ ltac:(vm_compute; reflexivity))
    as (l & H1 & _ & _ & _ & _ & _ & _ & H2).
  exists l. exact (conj H1 H2).
Defined.

(** ** X11 *)

(** X11 ([cancelListing] by a stranger). Outside a call and while not
    paused, [cancelListing(k)] on an existing listing by an account that
    is neither its seller nor the owner reverts with [NotListingOwner]. *)
Theorem cancelListing_not_owner self hook n w s k l :
  entered w = false -> paused w = false -> listings w !! k = Some l ->
  Listing.seller l <> Npos s -> owner w <> Npos s ->
  run self hook (S n) w (mkReq s (CancelListing k) 0) = Err NotListingOwner.
Proof.
  intros He Hp Hl Hs Ho. cbn [run]. unfold step. cbn [op sender value]. modifiers.
  cbn [N.eqb]. rewrite Hp, He. unfold cancelListing. cbn [listings owner set_entered].
  rewrite Hl. apply N.eqb_neq in Hs, Ho. rewrite Hs, Ho. reflexivity.
Qed.

Lemma cancelListing_not_owner_witness :
  run mkt no_hook 1 W1 (mkReq 4 (CancelListing key0) 0) = Err NotListingOwner.
Proof.
  exact (cancelListing_not_owner mkt no_hook 0 W1 4 key0 (Listing.mk key0 7 1 3 100 true 1000)
           ltac:(vm_compute; reflexivity) ltac:(vm_compute; reflexivity)
           ltac:(vm_compute; reflexivity) ltac:(vm_compute; discriminate)
           ltac:(vm_compute; discriminate)).
Defined.

(** ** X12 *)

(** X12 (list then cancel). From a reachable world, a [listItem] by [s]
    followed by [s]'s [cancelListing] of the new listing gives back the
    active listings array, the asset index and the token ledgers as they
    were; only the inactive listing record stays behind. *)
Theorem list_cancel_roundtrip self hook n m w s nft tok price w1 w2 :
  reachable self hook w ->
  run self hook n w (mkReq s (ListItem nft tok price) 0) = Ok w1 ->
  run self hook m w1 (mkReq s (CancelListing (sale_key nft tok (Npos s) (timestamp w))) 0) = Ok w2 ->
  activeListings w2 = activeListings w /\ nftToListing w2 = nftToListing w /\
  nftOwners w2 = nftOwners w /\
  listings w2 = <[sale_key nft tok (Npos s) (timestamp w) :=
                   Listing.mk (sale_key nft tok (Npos s) (timestamp w)) nft tok (Npos s) price false (timestamp w)]>
                 (listings w).
Proof.
  intros R H1 H2.
  pose proof (listItem_run self hook n w s nft tok price 0 w1 H1) as
    (_ & HnL & _ & Hown & HL1 & HNL1 & HAL1 & HN1). cbv zeta in *.
  set (k := sale_key nft tok (Npos s) (timestamp w)) in *.
  destruct (cancelListing_run self hook m w1 s k 0 w2 H2) as
    (l & Hl & _ & _ & HL2 & HAL2 & HNL2 & _ & HN2).
  rewrite HL1, lookup_insert_eq in Hl. injection Hl as <-. cbn in *.
  assert (Hk : k ∉ activeListings w).
  { destruct (reachable_active self hook w R) as [[_ Hact] _].
    destruct (reachable_Inv self hook w R) as (_ & (_ & Hidx & _) & _).
    rewrite Hact. intros (t & Ht & Hta). specialize (Hidx k t Ht Hta).
    unfold key_asset, k, sale_key in Hidx. cbn in Hidx. congruence. }
  split; [rewrite HAL2, HAL1; apply removeFromActive_snoc; exact Hk|].
  split; [rewrite HNL2, HNL1; apply delete_insert_id; exact HnL|].
  split; [rewrite HN2, HN1, insert_insert_eq; apply insert_id; exact Hown|].
  rewrite HL2, HL1, insert_insert_eq. reflexivity.
Qed.

Lemma list_cancel_roundtrip_witness :
  activeListings (exec mkt no_hook 1 W1 (mkReq 3 (CancelListing (sale_key 7 1 3 (timestamp W0))) 0)) =
    activeListings W0 /\
  nftOwners (exec mkt no_hook 1 W1 (mkReq 3 (CancelListing (sale_key 7 1 3 (timestamp W0))) 0)) =
    nftOwners W0.
Proof.
  destruct (list_cancel_roundtrip mkt no_hook 1 1 W0 3 7 1 100 W1 _
              (reach_deploy _ _ 1 250 1000 nfts0 W0 eq_refl)
              ltac:(vm_compute; reflexivity) ltac:(vm_compute; reflexivity))
    as (HA & _ & HN & _).
  exact (conj HA HN).
Defined.

(** ** X13 *)

(** X13 ([buyNow]). A successful [buyNow(k)] by [s] with value [v] found an
    active listing under [k] whose price is [v]. It marks the listing
    inactive, removes [k] from the active listings, drops the asset's index
    entry, moves the token from the marketplace to [s], and credits the
    seller's proceeds with the price minus the fee and no other account. *)
Theorem buyNow_outcome self hook n w s k v w' :
  run self hook n w (mkReq s (BuyNow k) v) = Ok w' ->
  exists l, listings w !! k = Some l /\ Listing.isActive l = true /\ v = Listing.price l /\
    listings w' = <[k := Listing.deactivate l]> (listings w) /\
    activeListings w' = removeFromActive k (activeListings w) /\
    nftToListing w' = delete (Listing.nftContract l, Listing.tokenId l) (nftToListing w) /\
    nftOwners w !! (Listing.nftContract l, Listing.tokenId l) = Some self /\
    nftOwners w' = <[(Listing.nftContract l, Listing.tokenId l) := Npos s]> (nftOwners w) /\
    proceeds w' = <[Listing.seller l := proceeds_of w (Listing.seller l) +
        (Listing.price l - Listing.price l * marketplaceFeePercentage w / 10000)]> (proceeds w).
Proof.
  intros H. destruct n as [|n]; [discriminate|]. cbn [run] in H. open_guarded H.
  unfold buyNow in H. cbn [listings set_entered set_balance] in H.
  destruct (listings w !! k) as [l|] eqn:Hl; [|discriminate].
  exists l. split; [reflexivity|].
  destruct (negb (Listing.isActive l)) eqn:Gact; [discriminate|].
  destruct (negb (v =? Listing.price l)) eqn:Gp; [discriminate|].
  apply negb_false_iff in Gact. apply negb_false_iff, N.eqb_eq in Gp.
  split; [exact Gact|]. split; [exact Gp|].
  bind_run H. bind_run H. bind_run H. bind_run H. injection H as <-.
  run_ext_facts self hook n E1. destruct Hn as [Hf Hn].
  apply mul256_ok in E. apply sub256_ok in E0 as [-> _]. apply add256_ok in E2. subst.
  unfold proceeds_of in *. wsimp. rewrite HL, HAL, HNL, HP, Hn.
  rewrite (alter_some _ _ _ l) by exact Hl.
  repeat split; assumption.
Qed.

Lemma buyNow_outcome_witness :
  exists l, listings W1 !! key0 = Some l /\
    nftOwners W2 = <[(Listing.nftContract l, Listing.tokenId l) := 4]> (nftOwners W1).
Proof.
  destruct (buyNow_outcome mkt no_hook 1 W1 4 key0 100 W2 ltac:(vm_compute; reflexivity))
    as (l & H1 & _ & _ & _ & _ & _ & _ & H2 & _).
  exists l. exact (conj H1 H2).
Defined.

(** ** X14 *)

(** X14 ([buyNow] errors). Outside a call and while not paused, [buyNow(k)]
    reverts with [ListingNotFound] when there is no listing under [k], with
    [ListingNotActive] when it is inactive (sold or cancelled), and with
    [InvalidPrice] when the value sent differs from the price. *)
Theorem buyNow_rejects self hook n w s k v :
  entered w = false -> paused w = false ->
  (listings w !! k = None -> run self hook (S n) w (mkReq s (BuyNow k) v) = Err ListingNotFound) /\
  (forall l, listings w !! k = Some l -> Listing.isActive l = false ->
     run self hook (S n) w (mkReq s (BuyNow k) v) = Err ListingNotActive) /\
  (forall l, listings w !! k = Some l -> Listing.isActive l = true -> v <> Listing.price l ->
     run self hook (S n) w (mkReq s (BuyNow k) v) = Err InvalidPrice).
Proof.
  intros He Hp. cbn [run]. unfold step. cbn [op sender value]. modifiers.
  cbn [paused entered set_balance]. rewrite Hp, He. unfold buyNow.
  cbn [listings set_entered set_balance].
  split; [intros Hl; rewrite Hl; reflexivity|]. split.
  - intros l Hl Ha. rewrite Hl, Ha. reflexivity.
  - intros l Hl Ha Hv. rewrite Hl, Ha. apply N.eqb_neq in Hv. rewrite Hv. reflexivity.
Qed.

Lemma buyNow_rejects_witness :
  run mkt no_hook 1 W2 (mkReq 5 (BuyNow key0) 100) = Err ListingNotActive /\
  run mkt no_hook 1 W1 (mkReq 5 (BuyNow key0) 50) = Err InvalidPrice.
Proof.
  split.
  - exact (proj1 (proj2 (buyNow_rejects mkt no_hook 0 W2 5 key0 100
             ltac:(vm_compute; reflexivity) ltac:(vm_compute; reflexivity)))
             (Listing.mk key0 7 1 3 100 false 1000)
             ltac:(vm_compute; reflexivity) eq_refl).
  - exact (proj2 (proj2 (buyNow_rejects mkt no_hook 0 W1 5 key0 50
             ltac:(vm_compute; reflexivity) ltac:(vm_compute; reflexivity)))
             (Listing.mk key0 7 1 3 100 true 1000)
             ltac:(vm_compute; reflexivity) eq_refl ltac:(vm_compute; discriminate)).
Defined.

(** ** X15 *)

(** X15 ([createAuction]). A successful [createAuction(nft, tok, sb, dur)]
    by [s] at time [t] had a nonzero starting bid, a duration between one
    hour and seven days, an asset listed and auctioned nowhere, owned by
    [s]. It stores an active auction without bids ending at [t + dur] under
    [(nft, tok, s, t)], indexes the asset under it, appends it to the
    active auctions, and moves the token to the marketplace. *)
Theorem createAuction_outcome self hook n w s nft tok sb dur v w' :
  run self hook n w (mkReq s (CreateAuction nft tok sb dur) v) = Ok w' ->
  let k := sale_key nft tok (Npos s) (timestamp w) in
  sb <> 0 /\ MIN_AUCTION_DURATION <= dur <= MAX_AUCTION_DURATION /\
  nftToListing w !! (nft, tok) = None /\ nftToAuction w !! (nft, tok) = None /\
  nftOwners w !! (nft, tok) = Some (Npos s) /\
  auctions w' = <[k := Auction.mk k nft tok (Npos s) sb 0 0 (timestamp w + dur) true false (timestamp w)]>
                  (auctions w) /\
  nftToAuction w' = <[(nft, tok) := k]> (nftToAuction w) /\
  activeAuctions w' = activeAuctions w ++ [k] /\
  nftOwners w' = <[(nft, tok) := self]> (nftOwners w).
Proof.
  intros H. destruct n as [|n]; [discriminate|]. cbn [run] in H. open_guarded H.
  unfold createAuction in H. split_guards H.
  destruct (nftToListing _ !! _) eqn:EL; [discriminate|].
  destruct (nftToAuction _ !! _) eqn:EA; [discriminate|].
  bind_ok H. bind_ok H. injection H as <-. run_ext_facts self hook n E. destruct Hn as [Hf Hn].
  apply add256_ok in E0. subst x0.
  cbv zeta. wsimp. rewrite HA, HNA, HAA, HT, Hn.
  apply N.eqb_neq in G. apply orb_false_iff in G0 as [Gmin Gmax]. apply N.ltb_ge in Gmin, Gmax.
  repeat split; assumption.
Qed.

Lemma createAuction_outcome_witness :
  auctions A1 = <[sale_key 7 1 3 (timestamp W0) :=
    Auction.mk (sale_key 7 1 3 (timestamp W0)) 7 1 3 10 0 0 (timestamp W0 + 3600) true false (timestamp W0)]>
    (auctions W0).
Proof.
  pose proof (createAuction_outcome mkt no_hook 1 W0 3 7 1 10 3600 0 A1 ltac:(vm_compute; reflexivity)) as H.
  cbv zeta in H. destruct H as (_ & _ & _ & _ & _ & HA & _). exact HA.
Defined.

(** ** X16 *)

(** X16 ([placeBid], anti-sniping). A successful [placeBid(k)] by [s] with
    value [v] found an active, running auction whose highest bid is below
    [v]. It records [v] and [s] as the highest bid and bidder and moves the
    end time to the later of the old end time and five minutes after now,
    changing no other auction; the value stays in the contract. *)
Theorem placeBid_outcome self hook n w s k v w' :
  run self hook n w (mkReq s (PlaceBid k) v) = Ok w' ->
  exists a, auctions w !! k = Some a /\ Auction.isActive a = true /\
    timestamp w < Auction.endTime a /\ Auction.highestBid a < v /\
    auctions w' = <[k := Auction.bid a v (Npos s)
                          (N.max (Auction.endTime a) (timestamp w + AUCTION_EXTENSION_TIME))]>
                    (auctions w) /\
    balance w' = balance w + v.
Proof.
  intros H. destruct n as [|n]; [discriminate|]. cbn [run] in H. open_guarded H.
  unfold placeBid in H. cbn [auctions set_entered set_balance] in H.
  destruct (auctions w !! k) as [a|] eqn:Ha; [|discriminate].
  exists a. split; [reflexivity|].
  cbn [timestamp set_entered set_balance] in H.
  destruct (negb (Auction.isActive a)) eqn:Gact; [discriminate|].
  destruct (Auction.endTime a <=? timestamp w) eqn:Gend; [discriminate|].
  destruct (v <=? Auction.highestBid a) eqn:Glow; [discriminate|].
  destruct (if Auction.highestBidder a =? 0 then _ else _) as [pr|]; [|discriminate].
  simpl in H.
  destruct (if Auction.endTime a - timestamp w <? AUCTION_EXTENSION_TIME then _ else _)
    as [et|] eqn:Eet; [|discriminate].
  simpl in H. injection H as <-.
  apply negb_false_iff in Gact. apply N.leb_gt in Gend, Glow.
  split; [exact Gact|]. split; [exact Gend|]. split; [exact Glow|].
  wsimp. split; [|reflexivity].
  replace et with (N.max (Auction.endTime a) (timestamp w + AUCTION_EXTENSION_TIME)); [reflexivity|].
  destruct (Auction.endTime a - timestamp w <? AUCTION_EXTENSION_TIME) eqn:Ex.
  - apply add256_ok in Eet. apply N.ltb_lt in Ex. lia.
  - injection Eet as <-. apply N.ltb_ge in Ex. lia.
Qed.

Lemma placeBid_outcome_witness :
  exists a, auctions (set_timestamp 4500 A1) !! key0 = Some a /\
    auctions (exec mkt no_hook 1 (set_timestamp 4500 A1) (mkReq 4 (PlaceBid key0) 50)) =
      <[key0 := Auction.bid a 50 4 (N.max (Auction.endTime a)
                 (timestamp (set_timestamp 4500 A1) + AUCTION_EXTENSION_TIME))]>
        (auctions (set_timestamp 4500 A1)).
Proof.
  destruct (placeBid_outcome mkt no_hook 1 (set_timestamp 4500 A1) 4 key0 50 _
              ltac:(vm_compute; reflexivity)) as (a & H1 & _ & _ & _ & H2 & _).
  exists a. exact (conj H1 H2).
Defined.

(** ** X17 *)

(** X17 (auction timing). Outside a call and while not paused, on an
    active auction [placeBid] reverts with [AuctionEnded] once the end time
    is reached, and [endAuction] reverts with [AuctionNotEnded] before it. *)
Theorem auction_timing self hook n w s k a v :
  entered w = false -> paused w = false -> auctions w !! k = Some a -> Auction.isActive a = true ->
  (Auction.endTime a <= timestamp w ->
     run self hook (S n) w (mkReq s (PlaceBid k) v) = Err AuctionEnded) /\
  (timestamp w < Auction.endTime a ->
     run self hook (S n) w (mkReq s (EndAuction k) 0) = Err AuctionNotEnded).
Proof.
  intros He Hp Ha Hact. cbn [run]. unfold step. cbn [op sender value]. modifiers.
  cbn [N.eqb paused entered set_balance]. rewrite Hp, He. split.
  - intros Ht. unfold placeBid. cbn [auctions timestamp set_entered set_balance].
    rewrite Ha, Hact. apply N.leb_le in Ht. rewrite Ht. reflexivity.
  - intros Ht. unfold endAuction. cbn [auctions timestamp set_entered].
    rewrite Ha, Hact. apply N.ltb_lt in Ht. rewrite Ht. reflexivity.
Qed.

Lemma auction_timing_witness :
  run mkt no_hook 1 A2 (mkReq 4 (EndAuction key0) 0) = Err AuctionNotEnded /\
  run mkt no_hook 1 A4 (mkReq 6 (PlaceBid key0) 100) = Err AuctionEnded.
Proof.
  split.
  - exact (proj2 (auction_timing mkt no_hook 0 A2 4 key0
             (Auction.mk key0 7 1 3 10 50 4 4600 true false 1000) 0
             ltac:(vm_compute; reflexivity) ltac:(vm_compute; reflexivity)
             ltac:(vm_compute; reflexivity) eq_refl) ltac:(vm_compute; reflexivity)).
  - exact (proj1 (auction_timing mkt no_hook 0 A4 6 key0
             (Auction.mk key0 7 1 3 10 60 5 4600 true false 1000) 100
             ltac:(vm_compute; reflexivity) ltac:(vm_compute; reflexivity)
             ltac:(vm_compute; reflexivity) eq_refl) ltac:(vm_compute; discriminate)).
Defined.

(** ** X18 *)

(** X18 ([endAuction]). A successful [endAuction(k)] found an active,
    unfinalized auction whose end time is reached. It finalizes the
    auction, removes [k] from the active auctions, drops the asset's index
    entry, and moves the token from the marketplace: to the seller when
    there was no bid, with the proceeds unchanged; otherwise to the highest
    bidder, crediting the seller's proceeds with the highest bid minus the
    fee and no other account. *)
Theorem endAuction_outcome self hook n w s k v w' :
  run self hook n w (mkReq s (EndAuction k) v) = Ok w' ->
  exists a, auctions w !! k = Some a /\ Auction.isActive a = true /\
    Auction.isFinalized a = false /\ Auction.endTime a <= timestamp w /\
    auctions w' = <[k := Auction.finalize a]> (auctions w) /\
    activeAuctions w' = removeFromActive k (activeAuctions w) /\
    nftToAuction w' = delete (Auction.nftContract a, Auction.tokenId a) (nftToAuction w) /\
    nftOwners w !! (Auction.nftContract a, Auction.tokenId a) = Some self /\
    if Auction.highestBidder a =? 0 then
      nftOwners w' = <[(Auction.nftContract a, Auction.tokenId a) := Auction.seller a]> (nftOwners w) /\
      proceeds w' = proceeds w
    else
      nftOwners w' = <[(Auction.nftContract a, Auction.tokenId a) := Auction.highestBidder a]> (nftOwners w) /\
      proceeds w' = <[Auction.seller a := proceeds_of w (Auction.seller a) +
          (Auction.highestBid a - Auction.highestBid a * marketplaceFeePercentage w / 10000)]> (proceeds w).
Proof.
  intros H. destruct n as [|n]; [discriminate|]. cbn [run] in H. open_guarded H.
  unfold endAuction in H. cbn [auctions set_entered] in H.
  destruct (auctions w !! k) as [a|] eqn:Ha; [|discriminate].
  exists a. split; [reflexivity|].
  cbn [timestamp set_entered] in H.
  destruct (negb (Auction.isActive a)) eqn:Gact; [discriminate|].
  destruct (timestamp w <? Auction.endTime a) eqn:Gend; [discriminate|].
  destruct (Auction.isFinalized a) eqn:Gfin; [discriminate|].
  apply negb_false_iff in Gact. apply N.ltb_ge in Gend.
  split; [exact Gact|]. split; [reflexivity|]. split; [exact Gend|].
  destruct (Auction.highestBidder a =? 0) eqn:Gb; cbn [negb] in H.
  - bind_ok H. injection H as <-. run_ext_facts self hook n E. destruct Hn as [Hf Hn].
    wsimp. rewrite HA, HAA, HNA, HP, Hn. repeat split; assumption.
  - bind_run H. bind_run H. bind_run H. bind_run H. injection H as <-.
    run_ext_facts self hook n E1. destruct Hn as [Hf Hn].
    apply mul256_ok in E. apply sub256_ok in E0 as [-> _]. apply add256_ok in E2. subst.
    unfold proceeds_of in *. wsimp. rewrite HA, HAA, HNA, HP, Hn.
    repeat split; assumption.
Qed.

Lemma endAuction_outcome_witness :
  exists a, auctions A4 !! key0 = Some a /\
    auctions A5 = <[key0 := Auction.finalize a]> (auctions A4).
Proof.
  destruct (endAuction_outcome mkt no_hook 1 A4 4 key0 0 A5 ltac:(vm_compute; reflexivity))
    as (a & H1 & _ & _ & _ & H2 & _).
  exists a. exact (conj H1 H2).
Defined.

(** ** X19 *)


